(** * Verification of the multi-agent orchestration core

  Shallow embedding of the Python sources under [core/]:
  - [core/message_bus/message_bus.py]       (module [MessageBus])
  - [core/workflow_safety.py]               (module [WorkflowSafety])
  - [core/agent_orchestrator/...]           (module [Orchestrator])
  - [core/workflow_engine/workflow_engine.py] (module [WorkflowEngine])

  Python objects that are mutated in place are modelled by explicit state
  passing; a Python call that may raise returns a [Res]. *)

From Stdlib Require Import ZArith Lia PrimFloat Ascii.
From stdpp Require Import base option list gmap strings pretty.

Set Warnings "-register-all".
Local Open Scope string_scope.
Local Open Scope Z_scope.
Local Open Scope list_scope.

(** ** Python values, exceptions and results *)

Module Py.

(** The built-in exception classes that the modelled code raises or meets. *)
Inductive ExcType : Type :=
| TypeError
| ValueError
| RuntimeError
| KeyError
| IndexError
| TimeoutError
| QueueEmpty
| OtherException (cls : string).

(** An exception instance: its class and [str(e)]. *)
Record PyExc : Type := mkExc { exc_type : ExcType; exc_str : string }.

(** Outcome of a call: a returned value or a raised exception. *)
Inductive Res (A : Type) : Type :=
| Ok (a : A)
| Raise (e : PyExc).
Arguments Ok {A} a.
Arguments Raise {A} e.

Definition is_ok {A} (r : Res A) : bool :=
  match r with Ok _ => true | Raise _ => false end.

Definition raises_type {A} (r : Res A) (t : ExcType) : Prop :=
  match r with Ok _ => False | Raise e => exc_type e = t end.

(** JSON-like Python data, floats as IEEE binary64, plus opaque objects.
    [VObj oid truth] is an instance of a user class: [oid] stands for its
    identity and [truth] for what [bool(obj)] does ([None]: [__bool__]
    raises). Dictionaries keep insertion order, as Python's do. *)
Inductive PyValue : Type :=
| VNone
| VBool (b : bool)
| VInt (z : Z)
| VFloat (f : float)
| VStr (s : string)
| VList (l : list PyValue)
| VDict (d : list (string * PyValue))
| VObj (oid : nat) (truth : option bool).

Definition Dict : Type := list (string * PyValue).

(** [d.get(k)] / [k in d] *)
Fixpoint dict_get (d : Dict) (k : string) : option PyValue :=
  match d with
  | [] => None
  | (k', v) :: d' => if String.eqb k k' then Some v else dict_get d' k
  end.

(** [d[k] = v]: overwrite in place, or append a new key at the end. *)
Fixpoint dict_set (d : Dict) (k : string) (v : PyValue) : Dict :=
  match d with
  | [] => [(k, v)]
  | (k', v') :: d' =>
      if String.eqb k k' then (k', v) :: d' else (k', v') :: dict_set d' k v
  end.

Definition dict_keys (d : Dict) : list string := map fst d.

(** [bool(v)]; raises only for an object whose [__bool__] raises. *)
Definition py_bool (v : PyValue) : Res bool :=
  match v with
  | VNone => Ok false
  | VBool b => Ok b
  | VInt z => Ok (negb (Z.eqb z 0))
  | VFloat f => Ok (negb (PrimFloat.eqb f PrimFloat.zero))
  | VStr s => Ok (negb (String.eqb s EmptyString))
  | VList l => Ok (match l with [] => false | _ => true end)
  | VDict d => Ok (match d with [] => false | _ => true end)
  | VObj _ (Some b) => Ok b
  | VObj _ None => Raise (mkExc ValueError "truth value is ambiguous")
  end.

End Py.
Import Py.

(** ** core/message_bus/message_bus.py *)

Module MessageBus.

(** [class Message]. [obj_id] is the identity of the Python object (what
    the default [__eq__] compares); time is a reading of [time.time()]. *)
Record Message : Type := mkMessage {
  obj_id : nat;
  message_type : string;
  sender : string;
  receiver : option string;
  payload : PyValue;
  correlation_id : string;
  priority : Z;
  timestamp : Z;
  ttl : Z
}.

(** [Message.is_expired], with [now] the value of [time.time()]. *)
Definition is_expired (now : Z) (m : Message) : bool :=
  Z.ltb (ttl m) (now - timestamp m).

(** A queue entry is the tuple [(-message.priority, message)]. *)
Definition Entry : Type := (Z * Message)%type.

(** [a < b] on two such tuples. Python compares the first components; when
    they are equal it goes on to the messages: the same object makes the
    tuples equal, two different [Message] objects are compared with [<],
    which [Message] does not define. *)
Definition entry_lt (a b : Entry) : Res bool :=
  if Z.eqb (fst a) (fst b) then
    if Nat.eqb (obj_id (snd a)) (obj_id (snd b)) then Ok false
    else Raise (mkExc TypeError
           "'<' not supported between instances of 'Message' and 'Message'")
  else Ok (Z.ltb (fst a) (fst b)).

(** *** heapq, as used by [queue.PriorityQueue]

    The list is mutated in place, so each operation returns the list as it
    is left, also when a comparison raises. *)

Definition swap (heap : list Entry) (i j : nat) : list Entry :=
  match heap !! i, heap !! j with
  | Some x, Some y => <[i:=y]> (<[j:=x]> heap)
  | _, _ => heap
  end.

(** [_siftdown(heap, startpos, pos)]; [fuel] bounds the loop, [pos] itself
    is always enough as [parentpos < pos]. *)
Fixpoint siftdown (fuel : nat) (heap : list Entry) (startpos pos : nat)
  : list Entry * Res unit :=
  match fuel with
  | O => (heap, Ok tt)
  | S fuel' =>
      if Nat.ltb startpos pos then
        let parentpos := ((pos - 1) / 2)%nat in
        match heap !! pos, heap !! parentpos with
        | Some newitem, Some parent =>
            match entry_lt newitem parent with
            | Raise e => (heap, Raise e)
            | Ok false => (heap, Ok tt)
            | Ok true => siftdown fuel' (swap heap parentpos pos) startpos parentpos
            end
        | _, _ => (heap, Raise (mkExc IndexError "index out of range"))
        end
      else (heap, Ok tt)
  end.

(** [heapq.heappush(heap, item)] *)
Definition heappush (heap : list Entry) (item : Entry) : list Entry * Res unit :=
  let heap1 := heap ++ [item] in
  siftdown (length heap1) heap1 0%nat (length heap1 - 1)%nat.

(** [_siftup(heap, pos)]: bubble the smaller child up until a leaf, then
    sift the moved item down from there. *)
Fixpoint siftup_loop (fuel : nat) (heap : list Entry) (startpos pos : nat)
  : list Entry * Res unit :=
  let endpos := length heap in
  match fuel with
  | O => siftdown (S pos) heap startpos pos
  | S fuel' =>
      if Nat.ltb pos (endpos / 2)%nat then
        let childpos := (2 * pos + 1)%nat in
        let pick : Res nat :=
          if Nat.ltb (childpos + 1)%nat endpos then
            match heap !! childpos, heap !! (childpos + 1)%nat with
            | Some a, Some b =>
                match entry_lt a b with
                | Raise e => Raise e
                | Ok true => Ok childpos
                | Ok false => Ok (childpos + 1)%nat
                end
            | _, _ => Raise (mkExc IndexError "index out of range")
            end
          else Ok childpos in
        match pick with
        | Raise e => (heap, Raise e)
        | Ok c => siftup_loop fuel' (swap heap c pos) startpos c
        end
      else siftdown (S pos) heap startpos pos
  end.

Definition siftup (heap : list Entry) (pos : nat) : list Entry * Res unit :=
  siftup_loop (length heap) heap pos pos.

(** [heapq.heappop(heap)] *)
Definition heappop (heap : list Entry) : list Entry * Res Entry :=
  match last heap with
  | None => (heap, Raise (mkExc IndexError "index out of range"))
  | Some lastelt =>
      let heap1 := removelast heap in
      match heap1 with
      | [] => (heap1, Ok lastelt)
      | returnitem :: _ =>
          let '(heap2, r) := siftup (<[0%nat:=lastelt]> heap1) 0%nat in
          match r with
          | Ok _ => (heap2, Ok returnitem)
          | Raise e => (heap2, Raise e)
          end
      end
  end.

(** *** The bus *)

(** A subscriber callback is opaque to the bus: applied to a message it
    returns ([None]) or raises ([Some text], the text of the exception). *)
Definition Callback : Type := Message -> option string.

(** [self.stats] *)
Record Stats : Type := mkStats {
  messages_sent : Z;
  messages_received : Z;
  messages_expired : Z;
  subscribers_count : Z
}.

(** [class MessageBus]. [message_queue] is the heap list inside the
    [PriorityQueue]; [response_futures] maps a correlation id to a future
    object and [futures] holds these objects ([Some v]: done, result [v]). *)
Record Bus : Type := mkBus {
  subscribers : gmap string (list (string * Callback));
  message_queue : list Entry;
  response_futures : gmap string nat;
  futures : gmap nat (option PyValue);
  running : bool;
  stats : Stats
}.

Definition new_bus : Bus :=
  mkBus ∅ [] ∅ ∅ false (mkStats 0 0 0 0).

Definition set_queue (bus : Bus) (q : list Entry) : Bus :=
  mkBus (subscribers bus) q (response_futures bus) (futures bus)
        (running bus) (stats bus).

Definition set_stats (bus : Bus) (st : Stats) : Bus :=
  mkBus (subscribers bus) (message_queue bus) (response_futures bus)
        (futures bus) (running bus) st.

Definition set_subscribers (bus : Bus)
    (subs : gmap string (list (string * Callback))) : Bus :=
  mkBus subs (message_queue bus) (response_futures bus) (futures bus)
        (running bus) (stats bus).

Definition incr_sent (st : Stats) : Stats :=
  mkStats (messages_sent st + 1) (messages_received st)
          (messages_expired st) (subscribers_count st).

Definition incr_received (st : Stats) : Stats :=
  mkStats (messages_sent st) (messages_received st + 1)
          (messages_expired st) (subscribers_count st).

Definition incr_expired (st : Stats) : Stats :=
  mkStats (messages_sent st) (messages_received st)
          (messages_expired st + 1) (subscribers_count st).

(** [MessageBus.publish]; [now] is the clock read by [is_expired]. *)
Definition publish (now : Z) (message : Message) (bus : Bus) : Bus * Res unit :=
  if is_expired now message then
    (set_stats bus (incr_expired (stats bus)), Ok tt)
  else
    let '(q, r) := heappush (message_queue bus) (- priority message, message) in
    match r with
    | Raise e => (set_queue bus q, Raise e)
    | Ok _ =>
        let bus1 := set_queue bus q in
        (set_stats bus1 (incr_sent (stats bus1)), Ok tt)
    end.

(** What the dispatch worker does that can be observed from outside. *)
Inductive Event : Type :=
| Called (subscription_id : string) (m : Message)
| Printed (text : string).

(** [self.subscribers[topic]] on a [defaultdict(list)]: a missing topic is
    created with an empty list. *)
Definition subscribers_getitem (topic : string) (bus : Bus)
  : Bus * list (string * Callback) :=
  match subscribers bus !! topic with
  | Some l => (bus, l)
  | None => (set_subscribers bus (<[topic := []]> (subscribers bus)), [])
  end.

(** The [for subscription_id, callback in ...] loops: every callback is
    called, an exception is printed and the loop goes on. *)
Fixpoint run_callbacks (label : string) (subs : list (string * Callback))
    (message : Message) : list Event :=
  match subs with
  | [] => []
  | (subscription_id, callback) :: rest =>
      Called subscription_id message ::
      match callback message with
      | None => run_callbacks label rest message
      | Some err =>
          Printed (label +:+ subscription_id +:+ ": " +:+ err)
          :: run_callbacks label rest message
      end
  end.

(** [MessageBus._handle_broadcast] *)
Definition handle_broadcast (message : Message) (bus : Bus) : Bus * list Event :=
  let topic := "broadcast." +:+ message_type message in
  let '(bus1, subs) := subscribers_getitem topic bus in
  (bus1, run_callbacks "Error in broadcast callback " subs message).

(** [MessageBus._handle_response] *)
Definition handle_response (message : Message) (bus : Bus) : Bus :=
  match response_futures bus !! correlation_id message with
  | None => bus
  | Some fut =>
      let futs :=
        match futures bus !! fut with
        | Some (Some _) => futures bus
        | _ => <[fut := Some (payload message)]> (futures bus)
        end in
      mkBus (subscribers bus) (message_queue bus)
            (delete (correlation_id message) (response_futures bus))
            futs (running bus) (stats bus)
  end.

(** [MessageBus._handle_direct_message]; an empty receiver is falsy. *)
Definition handle_direct_message (message : Message) (bus : Bus)
  : Bus * list Event :=
  match receiver message with
  | Some r =>
      if String.eqb r EmptyString then handle_broadcast message bus
      else
        let topic := "agent." +:+ r in
        let '(bus1, subs) := subscribers_getitem topic bus in
        (bus1, run_callbacks "Error in direct message callback " subs message)
  | None => handle_broadcast message bus
  end.

(** One turn of the [while self.running] loop of
    [MessageBus._process_messages], with [now] the clock at the expiry
    test. An empty queue makes [get] time out ([queue.Empty]); any other
    exception is printed. *)
Definition process_one (now : Z) (bus : Bus) : Bus * list Event :=
  match message_queue bus with
  | [] => (bus, [])
  | _ :: _ =>
      let '(q, r) := heappop (message_queue bus) in
      let bus1 := set_queue bus q in
      match r with
      | Raise e => (bus1, [Printed ("Error processing message: " +:+ exc_str e)])
      | Ok (_, message) =>
          if is_expired now message then
            (set_stats bus1 (incr_expired (stats bus1)), [])
          else
            let bus2 := set_stats bus1 (incr_received (stats bus1)) in
            if String.eqb (message_type message) "broadcast" then
              handle_broadcast message bus2
            else if String.eqb (message_type message) "response" then
              (handle_response message bus2, [])
            else handle_direct_message message bus2
      end
  end.

(** The worker loop over the successive clock readings [nows]. *)
Fixpoint process_messages (nows : list Z) (bus : Bus) : Bus * list Event :=
  match nows with
  | [] => (bus, [])
  | now :: rest =>
      if running bus then
        let '(bus1, ev1) := process_one now bus in
        let '(bus2, ev2) := process_messages rest bus1 in
        (bus2, ev1 ++ ev2)
      else (bus, [])
  end.

(** [Message(message_type, sender, receiver, correlation_id=cid)] built at
    clock [now] with the constructor's defaults: empty payload,
    [priority=1], [ttl=300]. *)
Definition new_message (oid : nat) (now : Z) (mtype sndr : string)
    (rcv : option string) (cid : string) : Message :=
  mkMessage oid mtype sndr rcv (VDict []) cid 1 now 300.

(** [Message.__init__] at clock [now] for a new object [oid]. An argument
    left out is [None]. [payload or {}] tests the payload; an empty
    [correlation_id] leads to [_generate_id], which reads [self.timestamp]
    before the constructor has set it. *)
Definition Message_init (oid : nat) (now : Z) (mtype sndr : string)
    (rcv : option string) (pl : option PyValue) (cid : option string)
    (prio : Z) : Res Message :=
  let checked : Res PyValue :=
    match pl with
    | None => Ok (VDict [])
    | Some v =>
        match py_bool v with
        | Ok true => Ok v
        | Ok false => Ok (VDict [])
        | Raise e => Raise e
        end
    end in
  match checked with
  | Raise e => Raise e
  | Ok pl' =>
      let given := match cid with Some c => c | None => EmptyString end in
      if String.eqb given EmptyString then
        Raise (mkExc (OtherException "AttributeError")
                 "'Message' object has no attribute 'timestamp'")
      else Ok (mkMessage oid mtype sndr rcv pl' given prio now 300)
  end.

(** [sum(len(callbacks) for callbacks in self.subscribers.values())] *)
Definition count_subscribers (subs : gmap string (list (string * Callback))) : Z :=
  map_fold (fun _ l n => n + Z.of_nat (length l)) 0 subs.

Definition set_subscribers_count (bus : Bus) : Bus :=
  set_stats bus
    (mkStats (messages_sent (stats bus)) (messages_received (stats bus))
             (messages_expired (stats bus)) (count_subscribers (subscribers bus))).

(** [MessageBus.subscribe]; [cb_id] is [id(callback)]. *)
Definition subscribe (topic : string) (cb_id : nat) (callback : Callback)
    (bus : Bus) : Bus * string :=
  let subscription_id := topic +:+ "_" +:+ pretty cb_id in
  let '(bus1, l) := subscribers_getitem topic bus in
  let bus2 :=
    set_subscribers bus1
      (<[topic := l ++ [(subscription_id, callback)]]> (subscribers bus1)) in
  (set_subscribers_count bus2, subscription_id).

(** [MessageBus.unsubscribe]: every topic keeps the entries with another
    subscription id. *)
Definition unsubscribe (subscription_id : string) (bus : Bus) : Bus :=
  set_subscribers_count
    (set_subscribers bus
       (List.filter (fun p => negb (String.eqb (fst p) subscription_id))
          <$> subscribers bus)).

(** The subscription ids called in a list of events, in order. *)
Definition called_ids (events : list Event) : list string :=
  flat_map (fun ev => match ev with
                      | Called sid _ => [sid]
                      | Printed _ => []
                      end) events.

(** The heap invariant of [heapq]: every entry is smaller than its children,
    the parent of index [i] being [(i - 1) >> 1]. *)
Definition heap_ordered (heap : list Entry) : Prop :=
  forall i (e p : Entry), (0 < i)%nat ->
    heap !! i = Some e -> heap !! ((i - 1) / 2)%nat = Some p -> fst p < fst e.

(** Ordered everywhere except between [pos] and its parent: the state of
    the heap while [_siftdown] moves the entry at [pos] up. *)
Definition almost_ordered (heap : list Entry) (pos : nat) : Prop :=
  (forall i (e p : Entry), (0 < i)%nat -> i <> pos ->
     heap !! i = Some e -> heap !! ((i - 1) / 2)%nat = Some p -> fst p < fst e) /\
  (forall c (e g : Entry), (0 < pos)%nat -> (0 < c)%nat -> ((c - 1) / 2)%nat = pos ->
     heap !! c = Some e -> heap !! ((pos - 1) / 2)%nat = Some g -> fst g < fst e).


(** No two entries have the same first component, that is, no two queued
    messages have the same priority. *)
Definition distinct_priorities (heap : list Entry) : Prop :=
  forall i j (a b : Entry), i <> j ->
    heap !! i = Some a -> heap !! j = Some b -> fst a <> fst b.

(** No topic lists the subscription id [sid]. *)
Definition unsubscribed (sid : string) (bus : Bus) : Prop :=
  forall topic l, subscribers bus !! topic = Some l -> ~ In sid (map fst l).

End MessageBus.

(** ** core/workflow_safety.py *)

Module WorkflowSafety.

(** [@dataclass class StepExecution] *)
Record StepExecution : Type := mkStepExecution {
  step_id : string;
  dedupe_key : string;
  inputs : Dict;
  outputs : Dict;
  executed_at : Z;
  status : string;
  job_token : string
}.

(** An outbox entry, the dict built in [execute_step]. *)
Record OutboxEntry : Type := mkOutboxEntry {
  ob_step_id : string;
  ob_dedupe_key : string;
  ob_inputs : Dict;
  ob_job_token : string
}.

(** [class WorkflowSafety] *)
Record Safety : Type := mkSafety {
  workflow_id : string;
  journal : list StepExecution;
  outbox : gmap string OutboxEntry;
  seed : Z;
  clock_injected : string
}.

(** [WorkflowSafety(workflow_id)] with the seed and clock read at
    construction. *)
Definition new_safety (wid : string) (seed0 : Z) (clock0 : string) : Safety :=
  mkSafety wid [] ∅ seed0 clock0.

(** What a caller gets back from a call: the tuple that the body returns, or
    the [_GeneratorContextManager] object that [contextlib.contextmanager]
    builds around it (its [gen] attribute holds what the body returned). *)
Inductive Returned : Type :=
| ReturnedTuple (is_replay : bool) (outs : Dict)
| ReturnedContextManager (gen : bool * Dict).

(** [is_replay, outputs = value]: only a tuple can be unpacked. *)
Definition unpack_pair (value : Returned) : Res (bool * Dict) :=
  match value with
  | ReturnedTuple r o => Ok (r, o)
  | ReturnedContextManager _ =>
      Raise (mkExc TypeError
        "cannot unpack non-iterable _GeneratorContextManager object")
  end.

(** [with value as x]: [__enter__] runs [next(self.gen)], and the stored
    tuple is not an iterator; a plain tuple has no [__enter__]. *)
Definition enter (value : Returned) : Res (bool * Dict) :=
  match value with
  | ReturnedTuple _ _ =>
      Raise (mkExc TypeError
        "'tuple' object does not support the context manager protocol")
  | ReturnedContextManager _ =>
      Raise (mkExc TypeError "'tuple' object is not an iterator")
  end.

Section Collaborators.

(** The collaborators the guard is given: the memory store and the rate
    limiter (module-level objects with a state of their own, [Ext]), the
    content hash [sha256(json.dumps(inputs, sort_keys=True))] and the
    generator [random.seed(seed); random.randint(1, 100)]. *)
Variable Ext : Type.
Variable memory_read : Ext -> string -> string -> Ext * option StepExecution.
Variable memory_write : Ext -> string -> string -> StepExecution -> Ext.
Variable limiter_acquire : Ext -> string -> string -> Dict -> Ext.
Variable content_address : Dict -> string.
Variable randint_seeded : Z -> Z.

Definition journal_namespace (st : Safety) : string :=
  "workflow_" +:+ workflow_id st +:+ "_journal".

(** [WorkflowSafety._find_step] *)
Definition find_step (st : Safety) (ext : Ext) (key : string)
  : Ext * option StepExecution :=
  match List.find (fun e => String.eqb (dedupe_key e) key) (journal st) with
  | Some e => (ext, Some e)
  | None => memory_read ext (journal_namespace st) key
  end.

(** [WorkflowSafety._simulate_step] *)
Definition simulate_step (st : Safety) (ext : Ext) (sid : string)
    (ins : Dict) : Ext * Dict :=
  let simulated_output :=
    [("result", VInt (randint_seeded (seed st)));
     ("processed_at", VStr (clock_injected st))] in
  (limiter_acquire ext (workflow_id st) "step_exec" ins, simulated_output).

(** The body of [WorkflowSafety.execute_step], as written under the
    decorator. [token] is the fresh [uuid.uuid4()] and [now] the clock of
    [datetime.now()]. A missing or empty [dedupe_key] is computed from the
    inputs. *)
Definition execute_step_body (st : Safety) (ext : Ext) (sid : string)
    (ins : Dict) (key : option string) (token : string) (now : Z)
  : Safety * Ext * (bool * Dict) :=
  let dkey :=
    match key with
    | Some k => if String.eqb k EmptyString then content_address ins else k
    | None => content_address ins
    end in
  let '(ext1, existing) := find_step st ext dkey in
  match existing with
  | Some e => (st, ext1, (true, outputs e))
  | None =>
      let outbox1 := <[token := mkOutboxEntry sid dkey ins token]> (outbox st) in
      let deterministic_inputs :=
        dict_set (dict_set ins "__seed" (VInt (seed st)))
                 "__clock" (VStr (clock_injected st)) in
      let '(ext2, outs) := simulate_step st ext1 sid deterministic_inputs in
      let execution := mkStepExecution sid dkey ins outs now "success" token in
      let journal1 := journal st ++ [execution] in
      let ext3 := memory_write ext2 (journal_namespace st)
                    ("step_" +:+ pretty (length journal1)) execution in
      (mkSafety (workflow_id st) journal1 (delete token outbox1)
                (seed st) (clock_injected st),
       ext3, (false, outs))
  end.

(** [WorkflowSafety.execute_step] as callers see it: the method is wrapped
    by [@contextmanager], whose helper builds
    [_GeneratorContextManager(func, args, kwds)]; the constructor calls
    the wrapped function at once and keeps the result as [gen]. The body
    has no [yield], so [gen] is the tuple and the caller holds the manager. *)
Definition execute_step (st : Safety) (ext : Ext) (sid : string)
    (ins : Dict) (key : option string) (token : string) (now : Z)
  : Safety * Ext * Returned :=
  let '(st1, ext1, t) := execute_step_body st ext sid ins key token now in
  (st1, ext1, ReturnedContextManager t).

(** The key under which a call looks: the one given, unless it is missing
    or empty. *)
Definition key_used (ins : Dict) (key : option string) : string :=
  match key with
  | Some k => if String.eqb k EmptyString then content_address ins else k
  | None => content_address ins
  end.

(** Number of journal records with a given dedupe key. *)
Definition journal_count (st : Safety) (key : string) : nat :=
  length (List.filter (fun e => String.eqb (dedupe_key e) key) (journal st)).

End Collaborators.

(** [WorkflowSafety.replay_journal]: [from_step or 0], then the slice
    [journal[start:]], where a negative start counts from the end. *)
Definition replay_journal (st : Safety) (from_step : option Z)
  : list StepExecution :=
  let start := match from_step with Some n => n | None => 0 end in
  let n := Z.of_nat (length (journal st)) in
  let i := if Z.ltb start 0 then Z.max (n + start) 0 else Z.min start n in
  drop (Z.to_nat i) (journal st).

(** [WorkflowSafety.get_outbox] *)
Definition get_outbox (st : Safety) : gmap string OutboxEntry := outbox st.

(** [get_workflow_safety] over the module-level registry; the seed and the
    clock are read only when a new guard is built. *)
Definition get_workflow_safety (registry : gmap string Safety) (wid : string)
    (seed0 : Z) (clock0 : string) : gmap string Safety * Safety :=
  match registry !! wid with
  | Some st => (registry, st)
  | None =>
      let st := new_safety wid seed0 clock0 in
      (<[wid := st]> registry, st)
  end.

End WorkflowSafety.

(** ** memory/episodic_memory/episodic_memory.py (the record only) *)

Module EpisodicMemory.

(** [@dataclass class Experience]: eight fields, none with a default. *)
Record Experience : Type := mkExperience {
  task : string;
  success : bool;
  timestamp : Z;
  context : Dict;
  lessons_learned : list string;
  performance_metrics : Dict;
  agent_name : string;
  task_type : string
}.

(** The [__init__] that [@dataclass] generates, called with keyword
    arguments: an argument is [Some v] when the call site passes that
    keyword and [None] when it leaves it out. Every field is required. *)
Definition Experience_init (task : option string) (success : option bool)
    (timestamp : option Z) (context : option Dict)
    (lessons_learned : option (list string))
    (performance_metrics : option Dict) (agent_name : option string)
    (task_type : option string) : Res Experience :=
  match task, success, timestamp, context, lessons_learned,
        performance_metrics, agent_name, task_type with
  | Some t, Some s, Some ts, Some c, Some l, Some p, Some a, Some ty =>
      Ok (mkExperience t s ts c l p a ty)
  | Some _, Some _, None, Some _, Some _, Some _, Some _, Some _ =>
      Raise (mkExc TypeError
        "Experience.__init__() missing 1 required positional argument: 'timestamp'")
  | _, _, _, _, _, _, _, _ =>
      Raise (mkExc TypeError
        "Experience.__init__() missing required positional arguments")
  end.

End EpisodicMemory.

(** ** core/agent_communication/agent_communication.py (sessions) *)

Module AgentCommunication.

(** [class CollaborationContext] *)
Record CollaborationContext : Type := mkCollaboration {
  collaboration_id : string;
  initiator : string;
  participants : list string;
  collaboration_type : string;
  shared_context : Dict;
  start_time : Z;
  status : string;
  results : list (string * (PyValue * Z))
}.

(** [CollaborationContext.__init__]: the list it is given becomes the
    participant list as it is. *)
Definition CollaborationContext_init (cid ini : string) (parts : list string)
    (ctype : string) (ctx : Dict) (now : Z) : CollaborationContext :=
  mkCollaboration cid ini parts ctype ctx now "active" [].

(** [agent_name in self.participants] *)
Definition mem_string (x : string) (l : list string) : bool :=
  existsb (String.eqb x) l.

(** [CollaborationContext.add_participant]: appends only a new name. *)
Definition add_participant (c : CollaborationContext) (agent : string)
  : CollaborationContext :=
  if mem_string agent (participants c) then c
  else mkCollaboration (collaboration_id c) (initiator c)
         (participants c ++ [agent]) (collaboration_type c)
         (shared_context c) (start_time c) (status c) (results c).

(** [@dataclass class AgentMessage]. The payload, the response flag and the
    collaboration context are whatever values the sender gave. *)
Record AgentMessage : Type := mkAgentMessage {
  sender : string;
  receiver : string;
  message_type : string;
  payload : PyValue;
  correlation_id : string;
  priority : Z;
  requires_response : PyValue;
  collaboration_context : PyValue
}.

(** [AgentMessage.to_message], building a new [Message] object [oid] at
    clock [now]. *)
Definition to_message (am : AgentMessage) (oid : nat) (now : Z)
  : Res MessageBus.Message :=
  MessageBus.Message_init oid now (message_type am) (sender am)
    (Some (receiver am))
    (Some (VDict [("data", payload am);
                  ("collaboration_context", collaboration_context am);
                  ("requires_response", requires_response am)]))
    (Some (correlation_id am)) (priority am).

(** [AgentMessage.from_message]; [payload.get] needs the payload to be a
    dict. *)
Definition from_message (m : MessageBus.Message) : Res AgentMessage :=
  match MessageBus.payload m with
  | VDict d =>
      Ok (mkAgentMessage
            (MessageBus.sender m)
            (match MessageBus.receiver m with
             | Some r => r
             | None => EmptyString
             end)
            (MessageBus.message_type m)
            (match dict_get d "data" with Some v => v | None => VDict [] end)
            (MessageBus.correlation_id m)
            (MessageBus.priority m)
            (match dict_get d "requires_response" with
             | Some v => v
             | None => VBool false
             end)
            (match dict_get d "collaboration_context" with
             | Some v => v
             | None => VNone
             end))
  | _ => Raise (mkExc (OtherException "AttributeError")
                  "object has no attribute 'get'")
  end.

End AgentCommunication.

(** ** core/agent_orchestrator/agent_orchestrator.py *)

Module Orchestrator.
Import EpisodicMemory AgentCommunication.

Inductive AgentStatus : Type := IDLE | BUSY | ERROR | OFFLINE.

Definition AgentStatus_eqb (a b : AgentStatus) : bool :=
  match a, b with
  | IDLE, IDLE | BUSY, BUSY | ERROR, ERROR | OFFLINE, OFFLINE => true
  | _, _ => false
  end.

(** [@dataclass class AgentInfo]; the communicator is reached through the
    calls below. *)
Record AgentInfo : Type := mkAgentInfo {
  name : string;
  role : string;
  capabilities : list string;
  agent_status : AgentStatus;
  last_seen : Z;
  metadata : Dict
}.

(** [self.stats] *)
Record Stats : Type := mkStats {
  total_tasks : Z;
  successful_tasks : Z;
  failed_tasks : Z;
  active_collaborations : Z;
  total_collaborations : Z
}.

Section Collaborators.

(** The memory systems the orchestrator writes to (state [Mem]) and the
    communicator calls of a registered agent. [send_task_request] and
    [offer_collaboration] return or raise. *)
Variable Mem : Type.
Variable store_experience : Mem -> Experience -> Res Mem.
Variable add_item : Mem -> Dict -> string -> list string -> Res Mem.
Variable send_task_request : string -> Dict -> Res PyValue.
Variable offer_collaboration : string -> string -> Dict -> Res PyValue.
(** [str(v)] as used inside the f-strings. *)
Variable py_str : PyValue -> string.

(** [class AgentOrchestrator] *)
Record State : Type := mkState {
  agents : gmap string AgentInfo;
  collaborations : gmap string CollaborationContext;
  stats : Stats;
  memory : Mem
}.

(** [agent_info.status = s] on the record stored under [agent]. *)
Definition set_agent_status (o : State) (agent : string) (s : AgentStatus)
  : State :=
  mkState
    (alter (fun a => mkAgentInfo (name a) (role a) (capabilities a) s
                                 (last_seen a) (metadata a)) agent (agents o))
    (collaborations o) (stats o) (memory o).

Definition set_stats (o : State) (st : Stats) : State :=
  mkState (agents o) (collaborations o) st (memory o).

Definition set_memory (o : State) (m : Mem) : State :=
  mkState (agents o) (collaborations o) (stats o) m.

Definition count_success (st : Stats) : Stats :=
  mkStats (total_tasks st + 1) (successful_tasks st + 1) (failed_tasks st)
          (active_collaborations st) (total_collaborations st).

Definition count_failure (st : Stats) : Stats :=
  mkStats (total_tasks st + 1) (successful_tasks st) (failed_tasks st + 1)
          (active_collaborations st) (total_collaborations st).

(** [task.get('action', 'unknown')] *)
Definition task_action (task : Dict) : PyValue :=
  match dict_get task "action" with Some v => v | None => VStr "unknown" end.

(** The [except Exception as e] block of [execute_task]: mark the agent,
    count the failure, record it, and end with a bare [raise]. An exception
    raised inside the block replaces [e]. *)
Definition execute_task_except (o : State) (agent : string) (task : Dict)
    (elapsed : PyValue) (e : PyExc) : State * Res PyValue :=
  let o1 := set_agent_status o agent ERROR in
  let o2 := set_stats o1 (count_failure (stats o1)) in
  match Experience_init
          (Some (py_str (task_action task) +:+ " on " +:+ agent))
          (Some false)
          None
          (Some [("agent", VStr agent); ("task", VDict task);
                 ("error", VStr (exc_str e))])
          (Some ["Task failed: " +:+ exc_str e])
          (Some [("execution_time", elapsed)])
          (Some agent)
          (Some (py_str (task_action task))) with
  | Raise e' => (o2, Raise e')
  | Ok experience =>
      match store_experience (memory o2) experience with
      | Raise e' => (o2, Raise e')
      | Ok m1 =>
          match add_item m1 [("task", VDict task); ("error", VStr (exc_str e));
                             ("agent", VStr agent)]
                         "HIGH" ["task"; "error"; agent] with
          | Raise e' => (set_memory o2 m1, Raise e')
          | Ok m2 => (set_memory o2 m2, Raise e)
          end
      end
  end.

(** [AgentOrchestrator.execute_task]; [elapsed] is the measured
    [time.time() - start_time]. *)
Definition execute_task (o : State) (agent : string) (task : Dict)
    (elapsed : PyValue) : State * Res PyValue :=
  match agents o !! agent with
  | None =>
      (o, Raise (mkExc ValueError ("Agent '" +:+ agent +:+ "' not registered")))
  | Some agent_info =>
      if negb (AgentStatus_eqb (agent_status agent_info) IDLE) then
        (o, Raise (mkExc RuntimeError
                     ("Agent '" +:+ agent +:+ "' is not available")))
      else
        let o1 := set_agent_status o agent BUSY in
        match send_task_request agent task with
        | Raise e => execute_task_except o1 agent task elapsed e
        | Ok result =>
            let o2 := set_agent_status o1 agent IDLE in
            let o3 := set_stats o2 (count_success (stats o2)) in
            match Experience_init
                    (Some (py_str (task_action task) +:+ " on " +:+ agent))
                    (Some true)
                    None
                    (Some [("agent", VStr agent); ("task", VDict task)])
                    (Some [])
                    (Some [("execution_time", elapsed)])
                    (Some agent)
                    (Some (py_str (task_action task))) with
            | Raise e => execute_task_except o3 agent task elapsed e
            | Ok experience =>
                match store_experience (memory o3) experience with
                | Raise e => execute_task_except o3 agent task elapsed e
                | Ok m1 =>
                    match add_item m1 [("task", VDict task); ("result", result);
                                       ("agent", VStr agent)]
                                   "MEDIUM" ["task"; "success"; agent] with
                    | Raise e =>
                        execute_task_except (set_memory o3 m1) agent task elapsed e
                    | Ok m2 => (set_memory o3 m2, Ok result)
                    end
                end
            end
        end
  end.

(** The [for participant in participants] loop of [start_collaboration]:
    an offer to each registered participant; the first exception ends it. *)
Fixpoint notify_participants (o : State) (parts : list string)
    (ctype : string) (ctx : Dict) : Res unit :=
  match parts with
  | [] => Ok tt
  | participant :: rest =>
      match agents o !! participant with
      | None => notify_participants o rest ctype ctx
      | Some _ =>
          match offer_collaboration participant ctype ctx with
          | Raise e => Raise e
          | Ok _ => notify_participants o rest ctype ctx
          end
      end
  end.

(** [AgentOrchestrator.start_collaboration]; [now_ms] is
    [int(time.time() * 1000)] and [now] the clock of the session. *)
Definition start_collaboration (o : State) (ini : string)
    (parts : list string) (ctype : string) (ctx : Dict) (now_ms now : Z)
  : State * Res string :=
  let cid := "collab_" +:+ pretty now_ms in
  let collaboration :=
    CollaborationContext_init cid ini (ini :: parts) ctype ctx now in
  let st := stats o in
  let o1 :=
    mkState (agents o) (<[cid := collaboration]> (collaborations o))
            (mkStats (total_tasks st) (successful_tasks st) (failed_tasks st)
                     (active_collaborations st + 1)
                     (total_collaborations st + 1))
            (memory o) in
  match notify_participants o1 parts ctype ctx with
  | Raise e => (o1, Raise e)
  | Ok _ => (o1, Ok cid)
  end.

End Collaborators.

Section Registry.

(** The knowledge graph lives with the other memories in [Mem];
    [add_triple subject predicate object] returns or raises. *)
Variable Mem : Type.
Variable add_triple : Mem -> string -> string -> string -> Res Mem.

(** The [for capability in capabilities] loop of [register_agent]. *)
Fixpoint add_capabilities (m : Mem) (agent : string) (caps : list string)
  : Mem * Res unit :=
  match caps with
  | [] => (m, Ok tt)
  | capability :: rest =>
      match add_triple m agent "can_do" capability with
      | Raise e => (m, Raise e)
      | Ok m1 => add_capabilities m1 agent rest
      end
  end.

(** [AgentOrchestrator.register_agent] at clock [now]. Building the
    [AgentCommunicator] subscribes its [_handle_message] ([handler], object
    identity [cb_id]) to the topic of the agent on the bus; the answer
    stands for the communicator by its subscription id. *)
Definition register_agent (o : State Mem) (bus : MessageBus.Bus)
    (agent role : string) (caps : list string) (meta : option Dict) (now : Z)
    (cb_id : nat) (handler : MessageBus.Callback)
  : State Mem * MessageBus.Bus * Res string :=
  match agents Mem o !! agent with
  | Some _ =>
      (o, bus, Raise (mkExc ValueError
                        ("Agent '" +:+ agent +:+ "' already registered")))
  | None =>
      let '(bus1, sid) :=
        MessageBus.subscribe ("agent." +:+ agent) cb_id handler bus in
      let agent_info :=
        mkAgentInfo agent role caps IDLE now
                    (match meta with Some d => d | None => [] end) in
      let o1 := mkState Mem (<[agent := agent_info]> (agents Mem o))
                        (collaborations Mem o) (stats Mem o) (memory Mem o) in
      match add_triple (memory Mem o1) agent "is_a" role with
      | Raise e => (o1, bus1, Raise e)
      | Ok m1 =>
          match add_capabilities m1 agent caps with
          | (m2, Raise e) => (set_memory Mem o1 m2, bus1, Raise e)
          | (m2, Ok _) => (set_memory Mem o1 m2, bus1, Ok sid)
          end
      end
  end.

(** [AgentOrchestrator.unregister_agent]: the communicator is told to shut
    its executor down and the record is deleted; the bus is not touched. *)
Definition unregister_agent (o : State Mem) (agent : string) : State Mem :=
  match agents Mem o !! agent with
  | None => o
  | Some _ =>
      mkState Mem (delete agent (agents Mem o)) (collaborations Mem o)
              (stats Mem o) (memory Mem o)
  end.

Definition AgentStatus_value (s : AgentStatus) : string :=
  match s with
  | IDLE => "idle" | BUSY => "busy" | ERROR => "error" | OFFLINE => "offline"
  end.

(** [AgentOrchestrator.get_agent_status] *)
Definition get_agent_status (o : State Mem) (agent : string) : option Dict :=
  match agents Mem o !! agent with
  | None => None
  | Some a =>
      Some [("name", VStr (name a)); ("role", VStr (role a));
            ("capabilities", VList (map VStr (capabilities a)));
            ("status", VStr (AgentStatus_value (agent_status a)));
            ("last_seen", VInt (last_seen a));
            ("metadata", VDict (metadata a))]
  end.

End Registry.

End Orchestrator.

(** ** Python string methods used by the template grammar *)

Module PyStr.

(** [s.startswith(p)] *)
Definition startswith (p s : string) : bool := String.prefix p s.

(** [s.endswith(p)] *)
Definition endswith (p s : string) : bool :=
  let n := String.length s in
  let m := String.length p in
  if Nat.leb m n then String.eqb (String.substring (n - m) m s) p else false.

(** One bound of a slice: a negative index counts from the end, and the
    result is clamped to [0, n]. *)
Definition slice_bound (n : nat) (i : Z) : nat :=
  let j := if Z.ltb i 0 then Z.of_nat n + i else i in
  Z.to_nat (Z.min (Z.max j 0) (Z.of_nat n)).

(** [s[start:stop]] *)
Definition slice (s : string) (start stop : Z) : string :=
  let n := String.length s in
  let a := slice_bound n start in
  let b := slice_bound n stop in
  String.substring a (b - a) s.

(** [c.isspace()] for a character below 256. *)
Definition isspace (c : ascii) : bool :=
  let n := nat_of_ascii c in
  (Nat.leb 9 n && Nat.leb n 13) || (Nat.leb 28 n && Nat.leb n 32)
  || Nat.eqb n 133 || Nat.eqb n 160.

(** [s.lstrip()] *)
Fixpoint lstrip (s : string) : string :=
  match s with
  | EmptyString => EmptyString
  | String c s' => if isspace c then lstrip s' else s
  end.

(** [s.rstrip()] *)
Fixpoint rstrip (s : string) : string :=
  match s with
  | EmptyString => EmptyString
  | String c s' =>
      match rstrip s' with
      | EmptyString => if isspace c then EmptyString else String c EmptyString
      | r => String c r
      end
  end.

(** [s.strip()] *)
Definition strip (s : string) : string := rstrip (lstrip s).

(** [s.split(sep)] for a one-character separator: the pieces between the
    occurrences, empty pieces included. *)
Fixpoint split_char (sep : ascii) (s : string) : list string :=
  match s with
  | EmptyString => [EmptyString]
  | String c s' =>
      if Ascii.eqb c sep then EmptyString :: split_char sep s'
      else match split_char sep s' with
           | [] => [String c EmptyString]
           | piece :: rest => String c piece :: rest
           end
  end.

(** [s.split(sep, 1)] when [sep in s]: the text before and after the first
    occurrence; [None] when [sep] does not occur. *)
Fixpoint split_first (sep s : string) : option (string * string) :=
  if String.prefix sep s then
    Some (EmptyString, String.substring (String.length sep)
                         (String.length s - String.length sep) s)
  else
    match s with
    | EmptyString => None
    | String c s' =>
        match split_first sep s' with
        | Some (before, after) => Some (String c before, after)
        | None => None
        end
    end.

Definition lower_char (c : ascii) : ascii :=
  let n := nat_of_ascii c in
  if Nat.leb 65 n && Nat.leb n 90 then ascii_of_nat (n + 32) else c.

(** [s.lower()] on characters below 128. *)
Fixpoint lower (s : string) : string :=
  match s with
  | EmptyString => EmptyString
  | String c s' => String (lower_char c) (lower s')
  end.

End PyStr.

(** ** core/workflow_engine/workflow_engine.py *)

Module WorkflowEngine.

Inductive WorkflowStatus : Type :=
| PENDING | RUNNING | COMPLETED | FAILED | CANCELLED.

Inductive StepType : Type := TASK | PARALLEL | CONDITIONAL | LOOP.

(** The [loop] entry of a step: the loop variable and the items, when the
    configuration gives them. *)
Record LoopConfig : Type := mkLoopConfig {
  variable : option string;
  items : option PyValue
}.

(** [@dataclass class WorkflowStep] *)
Inductive WorkflowStep : Type :=
| mkStep (name : string) (step_type : StepType) (agent : option string)
         (action : option string) (parameters : Dict)
         (dependencies : list string) (condition : option string)
         (parallel_steps : list WorkflowStep) (loop_config : option LoopConfig).

Definition name (s : WorkflowStep) : string :=
  match s with mkStep n _ _ _ _ _ _ _ _ => n end.
Definition step_type (s : WorkflowStep) : StepType :=
  match s with mkStep _ t _ _ _ _ _ _ _ => t end.
Definition agent (s : WorkflowStep) : option string :=
  match s with mkStep _ _ a _ _ _ _ _ _ => a end.
Definition action (s : WorkflowStep) : option string :=
  match s with mkStep _ _ _ a _ _ _ _ _ => a end.
Definition parameters (s : WorkflowStep) : Dict :=
  match s with mkStep _ _ _ _ p _ _ _ _ => p end.
Definition dependencies (s : WorkflowStep) : list string :=
  match s with mkStep _ _ _ _ _ d _ _ _ => d end.
Definition condition (s : WorkflowStep) : option string :=
  match s with mkStep _ _ _ _ _ _ c _ _ => c end.
Definition parallel_steps (s : WorkflowStep) : list WorkflowStep :=
  match s with mkStep _ _ _ _ _ _ _ p _ => p end.
Definition loop_config (s : WorkflowStep) : option LoopConfig :=
  match s with mkStep _ _ _ _ _ _ _ _ l => l end.

(** [@dataclass class WorkflowExecution]; the definition is kept as the
    list of steps that [_parse_step_config] yields. *)
Record WorkflowExecution : Type := mkExecution {
  workflow_id : string;
  workflow_config : list WorkflowStep;
  status : WorkflowStatus;
  start_time : option Z;
  end_time : option Z;
  current_step : option string;
  results : Dict;
  errors : list string;
  context : Dict
}.

(** *** Templates *)

(** [context.get(name)], [None] when missing *)
Definition context_get (ctx : Dict) (k : string) : PyValue :=
  match dict_get ctx k with Some v => v | None => VNone end.

(** [WorkflowEngine._get_nested_value] *)
Fixpoint get_nested_value (current : PyValue) (path : list string) : PyValue :=
  match path with
  | [] => current
  | key :: rest =>
      match current with
      | VDict d =>
          match dict_get d key with
          | Some v => get_nested_value v rest
          | None => VNone
          end
      | _ => VNone
      end
  end.

(** A path has a missing segment: at some point the current value is not a
    dict, or it is a dict without the next key. *)
Fixpoint path_breaks (current : PyValue) (path : list string) : Prop :=
  match path with
  | [] => False
  | key :: rest =>
      match current with
      | VDict d =>
          match dict_get d key with
          | Some v => path_breaks v rest
          | None => True
          end
      | _ => True
      end
  end.

(** ["{{...}}"]: the value starts with two opening and ends with two
    closing braces. *)
Definition is_template (value : string) : bool :=
  PyStr.startswith "{{" value && PyStr.endswith "}}" value.

(** ["${...}"] *)
Definition is_path (value : string) : bool :=
  PyStr.startswith "${" value && PyStr.endswith "}" value.

(** The three branches of the loop body of [_resolve_parameters]. *)
Definition resolve_value (value : PyValue) (ctx : Dict) : PyValue :=
  match value with
  | VStr v =>
      if is_template v then
        let var_name := PyStr.strip (PyStr.slice v 2 (-2)) in
        match dict_get ctx var_name with Some x => x | None => value end
      else if is_path v then
        let var_path := PyStr.strip (PyStr.slice v 2 (-1)) in
        get_nested_value (VDict ctx) (PyStr.split_char "."%char var_path)
      else value
  | _ => value
  end.

(** [WorkflowEngine._resolve_parameters]: a new dict filled key by key. *)
Definition resolve_parameters (params ctx : Dict) : Dict :=
  fold_left (fun resolved kv => dict_set resolved (fst kv) (resolve_value (snd kv) ctx))
            params [].

Section Builtins.

(** [int(s)] and [float(s)] on a string ([None]: [ValueError]) and [a == b]. *)
Variable py_int : string -> option Z.
Variable py_float : string -> option float.
Variable py_eq : PyValue -> PyValue -> Res bool.

(** [WorkflowEngine._resolve_condition_value] *)
Definition resolve_condition_value (value : string) (ctx : Dict) : PyValue :=
  if is_template value then
    context_get ctx (PyStr.strip (PyStr.slice value 2 (-2)))
  else if is_path value then
    get_nested_value (VDict ctx)
      (PyStr.split_char "."%char (PyStr.strip (PyStr.slice value 2 (-1))))
  else
    match py_int value with
    | Some z => VInt z
    | None =>
        match py_float value with
        | Some f => VFloat f
        | None =>
            let l := PyStr.lower value in
            if String.eqb l "true" || String.eqb l "false"
            then VBool (String.eqb l "true")
            else VStr value
        end
    end.

(** The [try] block of [_evaluate_condition]. *)
Definition evaluate_condition_try (cond : string) (ctx : Dict) : Res bool :=
  if is_template cond then
    py_bool (context_get ctx (PyStr.strip (PyStr.slice cond 2 (-2))))
  else
    match PyStr.split_first "==" cond with
    | Some (lhs, rhs) =>
        py_eq (resolve_condition_value (PyStr.strip lhs) ctx)
              (resolve_condition_value (PyStr.strip rhs) ctx)
    | None =>
        match PyStr.split_first "!=" cond with
        | Some (lhs, rhs) =>
            match py_eq (resolve_condition_value (PyStr.strip lhs) ctx)
                        (resolve_condition_value (PyStr.strip rhs) ctx) with
            | Ok b => Ok (negb b)
            | Raise e => Raise e
            end
        | None =>
            py_bool (match dict_get ctx cond with
                     | Some v => v
                     | None => VBool false
                     end)
        end
    end.

(** [WorkflowEngine._evaluate_condition]: [except Exception: return False]
    around the whole evaluation. *)
Definition evaluate_condition (cond : string) (ctx : Dict) : bool :=
  match evaluate_condition_try cond ctx with
  | Ok b => b
  | Raise _ => false
  end.

(** *** Steps *)

(** The dispatcher [self.orchestrator] (state [D], [None] when the engine
    was built without one) and, for the record, the calls made to its
    [execute_task]. *)
Variable D : Type.
Variable dispatch : D -> string -> Dict -> D * Res PyValue.

Record Disp : Type := mkDisp {
  orchestrator : option D;
  calls : list (string * Dict)
}.

Definition opt_str (o : option string) : PyValue :=
  match o with Some s => VStr s | None => VNone end.

(** [WorkflowEngine._execute_task_step] *)
Definition execute_task_step (step : WorkflowStep) (ctx : Dict) (disp : Disp)
  : Disp * Res PyValue :=
  match orchestrator disp with
  | None => (disp, Raise (mkExc RuntimeError "No agent orchestrator configured"))
  | Some d =>
      match agent step with
      | Some a =>
          if String.eqb a EmptyString then
            (disp, Raise (mkExc ValueError
                     ("Step '" +:+ name step +:+ "' has no agent specified")))
          else
            let task_params := resolve_parameters (parameters step) ctx in
            let task := [("action", opt_str (action step));
                         ("parameters", VDict task_params);
                         ("context", VDict ctx)] in
            let '(d', r) := dispatch d a task in
            (mkDisp (Some d') (calls disp ++ [(a, task)]), r)
      | None =>
          (disp, Raise (mkExc ValueError
                   ("Step '" +:+ name step +:+ "' has no agent specified")))
      end
  end.

(** The context of iteration [i] of a loop and the task it sends. *)
Definition loop_context (ctx : Dict) (loop_var : string) (i : Z)
    (item : PyValue) : Dict :=
  dict_set (dict_set ctx loop_var item) "loop_index" (VInt i).

Definition task_of (step : WorkflowStep) (ctx : Dict) : Dict :=
  [("action", opt_str (action step));
   ("parameters", VDict (resolve_parameters (parameters step) ctx));
   ("context", VDict ctx)].

Definition skipped : PyValue :=
  VDict [("skipped", VBool true); ("reason", VStr "condition_not_met")].

Definition no_condition (step : WorkflowStep) : PyExc :=
  mkExc ValueError ("Conditional step '" +:+ name step +:+ "' has no condition").

(** [WorkflowEngine._execute_conditional_step]: the evaluation and the task
    step are both inside the [try], whose handler wraps what it catches. *)
Definition execute_conditional_step (step : WorkflowStep) (ctx : Dict)
    (disp : Disp) : Disp * Res PyValue :=
  match condition step with
  | None => (disp, Raise (no_condition step))
  | Some c =>
      if String.eqb c EmptyString then (disp, Raise (no_condition step))
      else if evaluate_condition c ctx then
        match execute_task_step step ctx disp with
        | (disp', Ok v) => (disp', Ok v)
        | (disp', Raise e) =>
            (disp', Raise (mkExc RuntimeError
               ("Failed to evaluate condition '" +:+ c +:+ "': " +:+ exc_str e)))
        end
      else (disp, Ok skipped)
  end.

(** What [for i, item in enumerate(v)] goes through. *)
Definition iterate (v : PyValue) : Res (list PyValue) :=
  match v with
  | VList l => Ok l
  | VStr s => Ok (map (fun c => VStr (String c EmptyString))
                      (String.list_ascii_of_string s))
  | VDict d => Ok (map (fun kv => VStr (fst kv)) d)
  | _ => Raise (mkExc TypeError "object is not iterable")
  end.

(** The body of the loop of [_execute_loop_step], from item number [i]. *)
Fixpoint loop_items (step : WorkflowStep) (ctx : Dict) (loop_var : string)
    (l : list PyValue) (i : Z) (disp : Disp) : Disp * list PyValue :=
  match l with
  | [] => (disp, [])
  | item :: rest =>
      let loop_context :=
        dict_set (dict_set ctx loop_var item) "loop_index" (VInt i) in
      let '(disp1, r) := execute_task_step step loop_context disp in
      let slot :=
        match r with
        | Ok v => v
        | Raise e => VDict [("error", VStr (exc_str e)); ("item", item);
                            ("index", VInt i)]
        end in
      let '(disp2, slots) := loop_items step ctx loop_var rest (i + 1) disp1 in
      (disp2, slot :: slots)
  end.

(** [WorkflowEngine._execute_loop_step] *)
Definition execute_loop_step (step : WorkflowStep) (ctx : Dict) (disp : Disp)
  : Disp * Res PyValue :=
  match loop_config step with
  | None =>
      (disp, Raise (mkExc ValueError
               ("Loop step '" +:+ name step +:+ "' has no loop configuration")))
  | Some cfg =>
      let loop_var := match variable cfg with Some v => v | None => "item" end in
      let given := match items cfg with Some v => v | None => VList [] end in
      let resolved : Res PyValue :=
        match given with
        | VList _ => Ok given
        | VStr k => Ok (match dict_get ctx k with
                        | Some v => v
                        | None => VList []
                        end)
        | VDict _ => Raise (mkExc TypeError "unhashable type: 'dict'")
        | _ => Ok (VList [])
        end in
      match resolved with
      | Raise e => (disp, Raise e)
      | Ok v =>
          match iterate v with
          | Raise e => (disp, Raise e)
          | Ok l =>
              let '(disp', slots) := loop_items step ctx loop_var l 0 disp in
              (disp', Ok (VList slots))
          end
      end
  end.

(** What is stored for a branch: [result], or [{'error': str(e)}] from the
    [except Exception as e] around [future.result]. *)
Definition branch_slot (r : Res PyValue) : PyValue :=
  match r with
  | Ok v => v
  | Raise e => VDict [("error", VStr (exc_str e))]
  end.

Section Parallel.

(** How a nested step is executed: [self._execute_step]. *)
Variable run : WorkflowStep -> Dict -> Disp -> Disp * Res PyValue.

(** The two loops of [_execute_parallel_step]: each branch is submitted
    with a copy of the context and its outcome is collected under its name,
    an exception as [{'error': str(e)}]. The branches are run in the order
    of submission, the outcome of [future.result] being that of the call. *)
Fixpoint parallel_branches (branches : list WorkflowStep) (ctx : Dict)
    (results : Dict) (disp : Disp) : Disp * Dict :=
  match branches with
  | [] => (disp, results)
  | parallel_step :: rest =>
      let '(disp1, r) := run parallel_step ctx disp in
      parallel_branches rest ctx
        (dict_set results (name parallel_step) (branch_slot r)) disp1
  end.

(** The dispatcher as branch number [k] finds it: after the branches
    submitted before it. *)
Definition branch_start (branches : list WorkflowStep) (ctx : Dict)
    (disp : Disp) (k : nat) : Disp :=
  fst (parallel_branches (take k branches) ctx [] disp).

(** [WorkflowEngine._execute_parallel_step] *)
Definition execute_parallel_step (step : WorkflowStep) (ctx : Dict)
    (disp : Disp) : Disp * Res PyValue :=
  match parallel_steps step with
  | [] => (disp, Ok (VList []))
  | _ :: _ =>
      let '(disp', results) :=
        parallel_branches (parallel_steps step) ctx [] disp in
      (disp', Ok (VDict results))
  end.

End Parallel.

(** [WorkflowEngine._execute_step] *)
Fixpoint execute_step (step : WorkflowStep) (ctx : Dict) (disp : Disp)
  {struct step} : Disp * Res PyValue :=
  match step_type step with
  | TASK => execute_task_step step ctx disp
  | PARALLEL => execute_parallel_step execute_step step ctx disp
  | CONDITIONAL => execute_conditional_step step ctx disp
  | LOOP => execute_loop_step step ctx disp
  end.

(** *** Executions *)

(** [d.update(other)] *)
Definition dict_update (d other : Dict) : Dict :=
  fold_left (fun acc kv => dict_set acc (fst kv) (snd kv)) other d.

Definition set_progress (e : WorkflowExecution) (cur : option string)
    (res : Dict) (errs : list string) : WorkflowExecution :=
  mkExecution (workflow_id e) (workflow_config e) (status e) (start_time e)
              (end_time e) cur res errs (context e).

(** The [for step in steps] loop of [_execute_workflow_sync]: the first
    step that raises ends it, after its error is noted. *)
Fixpoint run_steps (steps : list WorkflowStep) (ctx : Dict)
    (e : WorkflowExecution) (disp : Disp)
  : WorkflowExecution * Disp * Res Dict :=
  match steps with
  | [] => (e, disp, Ok ctx)
  | step :: rest =>
      let e1 := set_progress e (Some (name step)) (results e) (errors e) in
      match execute_step step ctx disp with
      | (disp1, Ok result) =>
          run_steps rest (dict_set ctx (name step +:+ "_result") result)
            (set_progress e1 (current_step e1)
               (dict_set (results e1) (name step) result) (errors e1))
            disp1
      | (disp1, Raise err) =>
          (set_progress e1 (current_step e1) (results e1)
             (errors e1 ++ ["Step '" +:+ name step +:+ "' failed: " +:+ exc_str err]),
           disp1, Raise err)
      end
  end.

(** [WorkflowEngine._execute_workflow_sync] *)
Definition execute_workflow_sync (e : WorkflowExecution) (input_data : Dict)
    (disp : Disp) : WorkflowExecution * Disp * Res PyValue :=
  let ctx := dict_update [] input_data in
  let e0 := mkExecution (workflow_id e) (workflow_config e) (status e)
              (start_time e) (end_time e) (current_step e) (results e)
              (errors e) (dict_update (context e) ctx) in
  match run_steps (workflow_config e0) ctx e0 disp with
  | (e1, disp1, Ok ctx1) =>
      (e1, disp1,
       Ok (match dict_get ctx1 "final_result" with
           | Some v => v
           | None => VDict ctx1
           end))
  | (e1, disp1, Raise err) => (e1, disp1, Raise err)
  end.

(** [class WorkflowEngine]: the registered definitions and the executions
    that are under way. *)
Record Engine : Type := mkEngine {
  active_workflows : gmap string WorkflowExecution;
  workflow_definitions : gmap string (list WorkflowStep)
}.

(** [WorkflowEngine.execute_workflow] for the id [wid] (the one given, or
    the one generated from the name and the clock); [t0] and [t1] are the
    clock at the start and at the end. The execution is registered, run,
    and removed again in the [finally] block; it is returned here next to
    the result so that its final fields can be read. *)
Definition execute_workflow (eng : Engine) (workflow_name : string)
    (input_data : Dict) (wid : string) (t0 t1 : Z) (disp : Disp)
  : Engine * Disp * option WorkflowExecution * Res PyValue :=
  match workflow_definitions eng !! workflow_name with
  | None =>
      (eng, disp, None,
       Raise (mkExc ValueError ("Workflow '" +:+ workflow_name +:+ "' not found")))
  | Some config =>
      let e0 := mkExecution wid config RUNNING (Some t0) None None [] [] [] in
      let cleaned :=
        mkEngine (delete wid (active_workflows eng)) (workflow_definitions eng) in
      match execute_workflow_sync e0 input_data disp with
      | (e1, disp1, Ok result) =>
          let e2 := mkExecution wid config COMPLETED (Some t0) (Some t1)
                      (current_step e1)
                      (dict_set (results e1) "final_result" result)
                      (errors e1) (context e1) in
          (cleaned, disp1, Some e2,
           Ok (VDict [("success", VBool true); ("workflow_id", VStr wid);
                      ("result", result); ("execution_time", VInt (t1 - t0))]))
      | (e1, disp1, Raise err) =>
          let e2 := mkExecution wid config FAILED (Some t0) (Some t1)
                      (current_step e1) (results e1)
                      (errors e1 ++ [exc_str err]) (context e1) in
          (cleaned, disp1, Some e2,
           Ok (VDict [("success", VBool false); ("workflow_id", VStr wid);
                      ("error", VStr (exc_str err));
                      ("execution_time",
                       VInt (if Z.eqb t1 0 then 0 else t1 - t0))]))
      end
  end.

End Builtins.

Definition WorkflowStatus_eqb (a b : WorkflowStatus) : bool :=
  match a, b with
  | PENDING, PENDING | RUNNING, RUNNING | COMPLETED, COMPLETED
  | FAILED, FAILED | CANCELLED, CANCELLED => true
  | _, _ => false
  end.

(** [WorkflowEngine.load_workflow_definition] *)
Definition load_workflow_definition (eng : Engine) (wname : string)
    (definition : list WorkflowStep) : Engine :=
  mkEngine (active_workflows eng) (<[wname := definition]> (workflow_definitions eng)).

(** [WorkflowEngine.get_workflow_status]: the stored execution, to be
    rendered by [to_dict]. *)
Definition get_workflow_status (eng : Engine) (wid : string)
  : option WorkflowExecution :=
  active_workflows eng !! wid.

(** [WorkflowEngine.cancel_workflow]; [now] is [time.time()]. *)
Definition cancel_workflow (eng : Engine) (wid : string) (now : Z)
  : Engine * bool :=
  match active_workflows eng !! wid with
  | Some execution =>
      if WorkflowStatus_eqb (status execution) RUNNING then
        let cancelled :=
          mkExecution (workflow_id execution) (workflow_config execution)
                      CANCELLED (start_time execution) (Some now)
                      (current_step execution) (results execution)
                      (errors execution) (context execution) in
        (mkEngine (<[wid := cancelled]> (active_workflows eng))
                  (workflow_definitions eng), true)
      else (eng, false)
  | None => (eng, false)
  end.

End WorkflowEngine.

(** ** core/rate_limiter.py *)

Module RateLimiter.

(** [@dataclass class Quota]. Amounts are counted in whole units; the
    alert threshold is kept in percent, the code comparing the usage with
    [budget_alert_threshold * 100]. *)
Record Quota : Type := mkQuota {
  rps : Z;
  tokens_per_min : Z;
  cpu_time_per_min : Z;
  outbound_calls_per_min : Z;
  budget_alert_threshold : Z
}.

(** [Quota()] *)
Definition default_quota : Quota := mkQuota 10 10000 60 50 80.

(** A value of [self._usage[entity][metric]]: the [0.0] that
    [defaultdict(float)] makes for a metric it has not seen, or the dict
    [{"minute": ..., "total": ...}] that [acquire] stores. *)
Inductive Cell : Type :=
| CFloat
| CDict (minute : Z) (total : Z).

(** [class RateLimiter]; the inner dicts keep the order of insertion. *)
Record Limiter : Type := mkLimiter {
  quotas : gmap string Quota;
  windows : gmap string (list Z);
  usage : gmap string (list (string * Cell));
  alerts : list (string * Z)
}.

(** [RateLimiter()] *)
Definition new_limiter : Limiter := mkLimiter ∅ ∅ ∅ [].

(** [RateLimiter.set_quota] *)
Definition set_quota (lim : Limiter) (entity : string) (quota : Quota) : Limiter :=
  mkLimiter (<[entity := quota]> (quotas lim)) (windows lim) (usage lim)
            (alerts lim).

(** Why a request was refused: the text of the second component. *)
Inductive Refusal : Type :=
| RpsExceeded (current limit : Z)
| QuotaExceeded (metric : string) (total limit : Z).

(** A lookup in an inner [defaultdict] of cells. *)
Fixpoint cell_get (cells : list (string * Cell)) (metric : string) : option Cell :=
  match cells with
  | [] => None
  | (k, c) :: rest => if String.eqb metric k then Some c else cell_get rest metric
  end.

Fixpoint cell_set (cells : list (string * Cell)) (metric : string) (c : Cell)
  : list (string * Cell) :=
  match cells with
  | [] => [(metric, c)]
  | (k, c') :: rest =>
      if String.eqb metric k then (k, c) :: rest
      else (k, c') :: cell_set rest metric c
  end.

(** The cells of an entity, [[]] for an entity not seen yet. *)
Definition cells_of (lim : Limiter) (entity : string) : list (string * Cell) :=
  match usage lim !! entity with Some cells => cells | None => [] end.

Definition set_cell (lim : Limiter) (entity metric : string) (c : Cell) : Limiter :=
  mkLimiter (quotas lim) (windows lim)
            (<[entity := cell_set (cells_of lim entity) metric c]> (usage lim))
            (alerts lim).

(** The limit of a metric, [None] for a metric the loop skips. *)
Definition limit_of (quota : Quota) (metric : string) : option Z :=
  if String.eqb metric "tokens" then Some (tokens_per_min quota)
  else if String.eqb metric "cpu" then Some (cpu_time_per_min quota)
  else if String.eqb metric "outbound" then Some (outbound_calls_per_min quota)
  else None.

(** The [for metric, value in cost.items()] loop of [acquire]: [None] when
    it runs to its end, [Some refusal] when it returns early. Reading
    [self._usage[entity][metric]] makes the float for a new metric, and
    [.get] on that float raises. *)
Fixpoint charge (lim : Limiter) (entity : string) (quota : Quota) (now : Z)
    (cost : list (string * Z)) : Limiter * Res (option Refusal) :=
  match cost with
  | [] => (lim, Ok None)
  | (metric, value) :: rest =>
      match limit_of quota metric with
      | None => charge lim entity quota now rest
      | Some limit =>
          let minute_key := now / 60 in
          match cell_get (cells_of lim entity) metric with
          | None | Some CFloat =>
              (set_cell lim entity metric CFloat,
               Raise (mkExc (OtherException "AttributeError")
                        "'float' object has no attribute 'get'"))
          | Some (CDict minute total) =>
              let total0 := if Z.eqb minute_key minute then total else 0 in
              let lim1 := set_cell lim entity metric (CDict minute_key (total0 + value)) in
              if Z.ltb limit (total0 + value) then
                (lim1, Ok (Some (QuotaExceeded metric (total0 + value) limit)))
              else charge lim1 entity quota now rest
          end
      end
  end.

(** [sum(self._usage[entity][m]["total"] for m in self._usage[entity])] *)
Fixpoint total_usage (cells : list (string * Cell)) : Res Z :=
  match cells with
  | [] => Ok 0
  | (_, CFloat) :: _ =>
      Raise (mkExc TypeError "'float' object is not subscriptable")
  | (_, CDict _ total) :: rest =>
      match total_usage rest with
      | Ok t => Ok (total + t)
      | Raise e => Raise e
      end
  end.

(** The [while] loop that drops the timestamps older than the window. *)
Fixpoint trim (window : list Z) (now : Z) : list Z :=
  match window with
  | [] => []
  | t :: rest => if Z.ltb t (now - 60) then trim rest now else window
  end.

(** The body of [RateLimiter.acquire] at clock [now]; a missing [cost] is
    [None]. The method is wrapped by [@contextmanager] and has no [yield]:
    the body runs when the method is called, an exception of the body is
    raised by the call, and a returned pair ends up inside the context
    manager that the caller gets. *)
Definition acquire (lim : Limiter) (entity : string) (cost : option (list (string * Z)))
    (now : Z) : Limiter * Res (bool * option Refusal) :=
  let cost := match cost with
              | Some c => c
              | None => [("tokens", 0); ("cpu", 0); ("outbound", 0)]
              end in
  let quota := match quotas lim !! entity with
               | Some q => q
               | None => default_quota
               end in
  let window :=
    trim (match windows lim !! entity with Some w => w | None => [] end ++ [now])
         now in
  let lim1 := mkLimiter (<[entity := quota]> (quotas lim))
                        (<[entity := window]> (windows lim))
                        (usage lim) (alerts lim) in
  let rps_current := Z.of_nat (length window) in
  if Z.leb (rps quota) rps_current then
    (lim1, Ok (false, Some (RpsExceeded rps_current (rps quota))))
  else
    match charge lim1 entity quota now cost with
    | (lim2, Raise e) => (lim2, Raise e)
    | (lim2, Ok (Some refusal)) => (lim2, Ok (false, Some refusal))
    | (lim2, Ok None) =>
        let lim3 := mkLimiter (quotas lim2) (windows lim2)
                      (<[entity := cells_of lim2 entity]> (usage lim2))
                      (alerts lim2) in
        match total_usage (cells_of lim2 entity) with
        | Raise e => (lim3, Raise e)
        | Ok total =>
            if Z.ltb (budget_alert_threshold quota) total then
              (mkLimiter (quotas lim3) (windows lim3) (usage lim3)
                         (alerts lim3 ++ [(entity, total)]),
               Ok (true, None))
            else (lim3, Ok (true, None))
        end
    end.

(** A cost names a metric that has a limit. *)
Definition names_limited_metric (cost : list (string * Z)) : Prop :=
  exists metric value, In (metric, value) cost /\
    (metric = "tokens" \/ metric = "cpu" \/ metric = "outbound").

(** The limiters that can be met: a new one, and what [set_quota] and
    [acquire] make of one. *)
Inductive reachable : Limiter -> Prop :=
| reach_new : reachable new_limiter
| reach_set_quota lim entity quota :
    reachable lim -> reachable (set_quota lim entity quota)
| reach_acquire lim entity cost now :
    reachable lim -> reachable (fst (acquire lim entity cost now)).

(** Every usage cell is a float. *)
Definition only_floats (lim : Limiter) : Prop :=
  forall entity cells metric c,
    usage lim !! entity = Some cells -> cell_get cells metric = Some c -> c = CFloat.

End RateLimiter.

(** ** core/workflow_safety.py with the objects it imports *)

(** The guard of [WorkflowSafety] above takes the memory store and the
    limiter as collaborators whose calls return. Here the same methods are
    written over the module-level objects they import: [limiter] of
    core/rate_limiter.py, [memory] of core/memory.py and the spans of
    core/tracing.py. What belongs to third-party packages (OpenTelemetry,
    the cipher) stays a parameter. *)
Module Wired.

(** A context manager as a [with] statement uses it: what [__enter__]
    does, what [__exit__] makes of an exception of the block ([None]: it is
    swallowed) and what it does after a normal end. *)
Record Manager : Type := mkManager {
  on_enter : Res unit;
  on_exception : PyExc -> option PyExc;
  on_exit : Res unit
}.

(** The value a [with] statement is given. *)
Inductive WithTarget : Type :=
| WNone
| WManager (m : Manager).

(** How a block ends when it does not raise: it runs off its end, or it
    executes a [return]. *)
Inductive Flow (A : Type) : Type :=
| Fell
| Returns (a : A).
Arguments Fell {A}.
Arguments Returns {A} a.

(** [with None:] (a [TypeError] since Python 3.11, an [AttributeError]
    before). *)
Definition with_none_error : PyExc :=
  mkExc TypeError "'NoneType' object does not support the context manager protocol".

(** [with target: block], the block working on a state [S]. *)
Definition py_with {S A : Type} (target : WithTarget)
    (block : S -> S * Res (Flow A)) (s : S) : S * Res (Flow A) :=
  match target with
  | WNone => (s, Raise with_none_error)
  | WManager m =>
      match on_enter m with
      | Raise e => (s, Raise e)
      | Ok _ =>
          match block s with
          | (s1, Ok flow) =>
              match on_exit m with
              | Ok _ => (s1, Ok flow)
              | Raise e => (s1, Raise e)
              end
          | (s1, Raise e) =>
              match on_exception m e with
              | None => (s1, Ok Fell)
              | Some e' => (s1, Raise e')
              end
          end
      end
  end.

Section Objects.

(** [tracing.start_span(name, ...)]: a generator under [@contextmanager],
    so the call gives a manager; OpenTelemetry decides what entering and
    leaving it do. [set_attribute] is
    [trace.get_current_span().set_attribute(...)] and [record_success] the
    counter of the same module. *)
Variable start_span : string -> Manager.
Variable set_attribute : Res unit.
Variable record_success : Res unit.

(** The state of the memory store, and the blocks that
    [MemoryStore.read] and [MemoryStore.write] hold under their [with]
    (cipher, metrics, access log; [write] also calls the limiter). *)
Variable Store : Type.
Variable read_block : Store -> string -> string -> Store * Res (Flow PyValue).
Variable write_block :
  Store * RateLimiter.Limiter -> string -> string -> WorkflowSafety.StepExecution ->
  Store * RateLimiter.Limiter * Res (Flow PyValue).

(** The [StepExecution] built from a persisted dict,
    [sha256(json.dumps(inputs, ...))],
    [random.seed(seed); random.randint(1, 100)] and [len(str(inputs))]. *)
Variable from_persisted : PyValue -> Res WorkflowSafety.StepExecution.
Variable content_address : Dict -> string.
Variable randint_seeded : Z -> Z.
Variable str_len : Dict -> Z.

(** [tracing.instrument_memory_operation]: a plain function whose body is
    a [with start_span(...)] block and which has no [return]: when it
    returns, it returns [None]. *)
Definition instrument_memory_operation : Res WithTarget :=
  match snd (py_with (WManager (start_span "memory_operation"))
               (fun s : unit =>
                  (s, match set_attribute with
                      | Ok _ => Ok (@Fell unit)
                      | Raise e => Raise e
                      end)) tt) with
  | Raise e => Raise e
  | Ok _ => Ok WNone
  end.

(** [MemoryStore.read]: [with instrument_memory_operation(...): block] *)
Definition read (store : Store) (ns key : string) : Store * Res PyValue :=
  match instrument_memory_operation with
  | Raise e => (store, Raise e)
  | Ok target =>
      match py_with target (fun s => read_block s ns key) store with
      | (s, Raise e) => (s, Raise e)
      | (s, Ok Fell) => (s, Ok VNone)
      | (s, Ok (Returns v)) => (s, Ok v)
      end
  end.

(** [MemoryStore.write]: [with instrument_memory_operation(...): block] *)
Definition write (w : Store * RateLimiter.Limiter) (ns key : string)
    (data : WorkflowSafety.StepExecution)
  : Store * RateLimiter.Limiter * Res PyValue :=
  match instrument_memory_operation with
  | Raise e => (w, Raise e)
  | Ok target =>
      match py_with target (fun s => write_block s ns key data) w with
      | (s, Raise e) => (s, Raise e)
      | (s, Ok Fell) => (s, Ok VNone)
      | (s, Ok (Returns v)) => (s, Ok v)
      end
  end.

(** [WorkflowSafety._find_step] *)
Definition find_step (st : WorkflowSafety.Safety) (store : Store) (key : string)
  : Store * Res (option WorkflowSafety.StepExecution) :=
  match List.find (fun e => String.eqb (WorkflowSafety.dedupe_key e) key)
                  (WorkflowSafety.journal st) with
  | Some e => (store, Ok (Some e))
  | None =>
      match read store (WorkflowSafety.journal_namespace st) key with
      | (s, Raise e) => (s, Raise e)
      | (s, Ok persisted) =>
          match py_bool persisted with
          | Raise e => (s, Raise e)
          | Ok false => (s, Ok None)
          | Ok true =>
              match from_persisted persisted with
              | Ok e => (s, Ok (Some e))
              | Raise e => (s, Raise e)
              end
          end
      end
  end.

(** [WorkflowSafety._simulate_step] at limiter clock [clock]: what
    [limiter.acquire] returns is dropped. *)
Definition simulate_step (st : WorkflowSafety.Safety) (lim : RateLimiter.Limiter)
    (sid : string) (ins : Dict) (clock : Z) : RateLimiter.Limiter * Res Dict :=
  let simulated_output :=
    [("result", VInt (randint_seeded (WorkflowSafety.seed st)));
     ("processed_at", VStr (WorkflowSafety.clock_injected st))] in
  match RateLimiter.acquire lim (WorkflowSafety.workflow_id st)
          (Some [("tokens", str_len ins)]) clock with
  | (lim1, Raise e) => (lim1, Raise e)
  | (lim1, Ok _) => (lim1, Ok simulated_output)
  end.

(** The guard, the memory store and the limiter. *)
Definition World : Type := WorkflowSafety.Safety * Store * RateLimiter.Limiter.

(** The block under [with start_span(...)] in [execute_step]. [token] is
    the fresh [uuid.uuid4()], [now] the clock of [datetime.now()] and
    [clock] that of the limiter. *)
Definition execute_step_block (sid : string) (ins : Dict) (key : option string)
    (token : string) (now clock : Z) (w : World)
  : World * Res (Flow (bool * Dict)) :=
  let '(st, store, lim) := w in
  let dkey :=
    match key with
    | Some k => if String.eqb k EmptyString then content_address ins else k
    | None => content_address ins
    end in
  match find_step st store dkey with
  | (store1, Raise e) => ((st, store1, lim), Raise e)
  | (store1, Ok (Some e)) =>
      match record_success with
      | Raise x => ((st, store1, lim), Raise x)
      | Ok _ => ((st, store1, lim), Ok (Returns (true, WorkflowSafety.outputs e)))
      end
  | (store1, Ok None) =>
      let outbox1 :=
        <[token := WorkflowSafety.mkOutboxEntry sid dkey ins token]>
          (WorkflowSafety.outbox st) in
      let st1 := WorkflowSafety.mkSafety (WorkflowSafety.workflow_id st)
                   (WorkflowSafety.journal st) outbox1
                   (WorkflowSafety.seed st) (WorkflowSafety.clock_injected st) in
      let deterministic_inputs :=
        dict_set (dict_set ins "__seed" (VInt (WorkflowSafety.seed st)))
                 "__clock" (VStr (WorkflowSafety.clock_injected st)) in
      match simulate_step st1 lim sid deterministic_inputs clock with
      | (lim1, Raise e) => ((st1, store1, lim1), Raise e)
      | (lim1, Ok outs) =>
          let execution :=
            WorkflowSafety.mkStepExecution sid dkey ins outs now "success" token in
          let journal1 := WorkflowSafety.journal st ++ [execution] in
          let st2 := WorkflowSafety.mkSafety (WorkflowSafety.workflow_id st)
                       journal1 outbox1
                       (WorkflowSafety.seed st) (WorkflowSafety.clock_injected st) in
          match write (store1, lim1) (WorkflowSafety.journal_namespace st)
                  ("step_" +:+ pretty (length journal1)) execution with
          | (store2, lim2, Raise e) => ((st2, store2, lim2), Raise e)
          | (store2, lim2, Ok _) =>
              let st3 := WorkflowSafety.mkSafety (WorkflowSafety.workflow_id st)
                           journal1 (delete token outbox1)
                           (WorkflowSafety.seed st)
                           (WorkflowSafety.clock_injected st) in
              match record_success with
              | Raise x => ((st3, store2, lim2), Raise x)
              | Ok _ => ((st3, store2, lim2), Ok (Returns (false, outs)))
              end
          end
      end
  end.

(** The body of [WorkflowSafety.execute_step], as written under the
    decorator. *)
Definition execute_step_body (sid : string) (ins : Dict) (key : option string)
    (token : string) (now clock : Z) (w : World)
  : World * Res (Flow (bool * Dict)) :=
  py_with (WManager (start_span "workflow_step_execute"))
          (execute_step_block sid ins key token now clock) w.

End Objects.

End Wired.

(** ** Concrete scenarios *)

Module Scenario.
Import WorkflowEngine.

(** Stand-ins for the built-ins that the scenarios never reach: conditions
    of the form ["{{name}}"] call neither [int], [float] nor [==]. *)
Definition no_int (s : string) : option Z := None.
Definition no_float (s : string) : option float := None.
Definition same_object (a b : PyValue) : Res bool := Ok false.

(** A dispatcher that counts its calls, answers with the number of the
    call, and raises for the agent "bad". *)
Definition counting_dispatch (d : nat) (agent : string) (task : Dict)
  : nat * Res PyValue :=
  (S d, if String.eqb agent "bad"
        then Raise (mkExc RuntimeError "Agent 'bad' is not available")
        else Ok (VInt (Z.of_nat d))).

Definition run_step := execute_step no_int no_float same_object nat counting_dispatch.
Definition run_conditional :=
  execute_conditional_step no_int no_float same_object nat counting_dispatch.
Definition run_task_step := execute_task_step nat counting_dispatch.

Definition fresh_disp : Disp nat := mkDisp nat (Some 0%nat) [].

Definition task_step (n a : string) : WorkflowStep :=
  mkStep n TASK (Some a) (Some "noop") [] [] None [] None.

(** Three branches, the second of which raises. *)
Definition fan_out : WorkflowStep :=
  mkStep "fan" PARALLEL None None [] [] None
         [task_step "a" "writer"; task_step "b" "bad"; task_step "c" "writer"]
         None.

(** Two branches that share the name "a"; the second raises. *)
Definition fan_out_same_name : WorkflowStep :=
  mkStep "fan" PARALLEL None None [] [] None
         [task_step "a" "writer"; task_step "a" "bad"] None.

(** [condition = "{{flag}}"] on the agent "writer". *)
Definition guarded : WorkflowStep :=
  mkStep "guarded" CONDITIONAL (Some "writer") (Some "noop") [] [] (Some "{{flag}}")
         [] None.

(** The same step with no agent given. *)
Definition guarded_no_agent : WorkflowStep :=
  mkStep "guarded" CONDITIONAL None (Some "noop") [] [] (Some "{{flag}}") [] None.

(** A context value whose truth test raises. *)
Definition flaky : PyValue := VObj 7 None.

(** A message created at clock 0 with [ttl = 0], and a bus where it is the
    only entry of the queue. *)
Definition short_lived : MessageBus.Message :=
  MessageBus.mkMessage 1 "notification" "a" (Some "b") (VDict []) "a_0" 1 0 0.

Definition bus_holding_short_lived : MessageBus.Bus :=
  MessageBus.set_queue MessageBus.new_bus [(-1, short_lived)].

(** Collaborators of the idempotency guard that hold nothing: a store with
    no entries and a limiter without state; the key of a dict is built
    from its keys. *)
Definition empty_read (ext : unit) (ns key : string)
  : unit * option WorkflowSafety.StepExecution := (tt, None).
Definition drop_write (ext : unit) (ns key : string)
    (e : WorkflowSafety.StepExecution) : unit := tt.
Definition free_acquire (ext : unit) (entity act : string) (cost : Dict) : unit := tt.
Definition keys_digest (d : Dict) : string :=
  fold_right (fun k acc => k +:+ ";" +:+ acc) EmptyString (dict_keys d).
Definition fixed_randint (seed : Z) : Z := 1 + seed mod 100.

Definition run_guard :=
  WorkflowSafety.execute_step_body unit empty_read drop_write free_acquire
    keys_digest fixed_randint.

(** A guard whose journal holds one record, made by a first run. *)
Definition guard_after_one : WorkflowSafety.Safety :=
  fst (fst (run_guard (WorkflowSafety.new_safety "wf" 7 "t0") tt "s1"
              [("a", VInt 1)] None "token-1" 10)).

(** An orchestrator with the idle agent "writer", over memories that
    accept everything. *)
Definition writer_info : Orchestrator.AgentInfo :=
  Orchestrator.mkAgentInfo "writer" "author" ["write"] Orchestrator.IDLE 0 [].

Definition one_writer : Orchestrator.State unit :=
  Orchestrator.mkState unit {[ "writer" := writer_info ]} ∅
    (Orchestrator.mkStats 0 0 0 0 0) tt.

Definition accept_experience (m : unit) (e : EpisodicMemory.Experience)
  : Res unit := Ok m.
Definition accept_item (m : unit) (d : Dict) (prio : string) (tags : list string)
  : Res unit := Ok m.
Definition accept_triple (m : unit) (s p o : string) : Res unit := Ok m.
Definition answer_received (agent : string) (task : Dict) : Res PyValue :=
  Ok (VDict [("status", VStr "received")]).
Definition show (v : PyValue) : string :=
  match v with VStr s => s | _ => "?" end.
Definition quiet_callback (m : MessageBus.Message) : option string := None.

Definition run_task :=
  Orchestrator.execute_task unit accept_experience accept_item answer_received show.

(** An agent message with a correlation id. *)
Definition sample_offer : AgentCommunication.AgentMessage :=
  AgentCommunication.mkAgentMessage "a" "b" "collaboration_offer"
    (VDict [("collaboration_type", VStr "planning")]) "a_collab_1" 2
    (VBool true) VNone.

(** A loop over three literal items with the parameter ["{{item}}"]. *)
Definition each_item : WorkflowStep :=
  mkStep "each" LOOP (Some "writer") (Some "noop") [("x", VStr "{{item}}")] []
         None [] (Some (mkLoopConfig None (Some (VList [VInt 1; VInt 2; VInt 3])))).

(** A bus with the default-priority message [short_lived] queued, and a
    message of priority 5. *)
Definition urgent : MessageBus.Message :=
  MessageBus.mkMessage 2 "task_request" "a" (Some "writer") (VDict []) "a_1" 5 0 300.

(** Two task steps, the second taking the result of the first. *)
Definition chained : list WorkflowStep :=
  [task_step "task1" "writer";
   mkStep "task2" TASK (Some "writer") (Some "noop")
          [("x", VStr "{{task1_result}}")] [] None [] None].

Definition engine_with_chain : Engine :=
  load_workflow_definition (mkEngine ∅ ∅) "chain" chained.

(** Spans that enter and leave without an error of their own, a memory
    store that holds nothing, and inputs counted by their keys. *)
Definition quiet_span (name : string) : Wired.Manager :=
  Wired.mkManager (Ok tt) (fun e => Some e) (Ok tt).
Definition nothing_stored (s : unit) (ns key : string)
  : unit * Res (Wired.Flow PyValue) := (s, Ok (Wired.Returns VNone)).
Definition accept_write (w : unit * RateLimiter.Limiter) (ns key : string)
    (e : WorkflowSafety.StepExecution)
  : unit * RateLimiter.Limiter * Res (Wired.Flow PyValue) :=
  (w, Ok (Wired.Returns (VBool true))).
Definition no_record (v : PyValue) : Res WorkflowSafety.StepExecution :=
  Raise (mkExc TypeError "argument after ** must be a mapping").
Definition count_keys (d : Dict) : Z := Z.of_nat (length d).

Definition wired_step :=
  Wired.execute_step_body quiet_span (Ok tt) (Ok tt) unit nothing_stored
    accept_write no_record keys_digest fixed_randint count_keys.

End Scenario.

(** * Theorems *)

(** ** Message bus *)

Section MessageBusFacts.
Import MessageBus.

(** Publishing an expired message only bumps the expired counter. *)
Lemma publish_expired now m bus :
  is_expired now m = true ->
  publish now m bus = (set_stats bus (incr_expired (stats bus)), Ok tt).
Proof. intros H. unfold publish. now rewrite H. Qed.

(** [run_callbacks] calls exactly the subscribers it is given, with the
    message it is given. *)
Lemma run_callbacks_called label subs m sid m' :
  In (Called sid m') (run_callbacks label subs m) ->
  m' = m /\ In sid (map fst subs).
Proof.
  induction subs as [|[s cb] rest IH]; simpl; [tauto|].
  intros [H|H]; [inversion H; subst; auto|].
  destruct (cb m); simpl in H.
  - destruct H as [H|H]; [discriminate|]. destruct (IH H); auto.
  - destruct (IH H); auto.
Qed.

(** With one entry queued, pushing a second entry of the same priority
    for another message object compares the two messages and raises. *)
Lemma heappush_tie_raises (m1 m2 : Message) (p : Z) :
  obj_id m1 <> obj_id m2 ->
  exists q, heappush [(p, m1)] (p, m2) =
    (q, Raise (mkExc TypeError
       "'<' not supported between instances of 'Message' and 'Message'")).
Proof.
  intros Hne. unfold heappush. simpl. unfold entry_lt. simpl.
  rewrite Z.eqb_refl.
  destruct (Nat.eqb (obj_id m2) (obj_id m1)) eqn:E.
  - apply Nat.eqb_eq in E. congruence.
  - eexists. reflexivity.
Qed.

(** Two fresh messages of the same priority on an empty queue: the second
    [publish] raises and the message is not counted as sent. *)
Lemma publish_tie_raises now1 now2 (m1 m2 : Message) bus :
  message_queue bus = [] ->
  priority m1 = priority m2 -> obj_id m1 <> obj_id m2 ->
  is_expired now1 m1 = false -> is_expired now2 m2 = false ->
  let '(bus1, r1) := publish now1 m1 bus in
  let '(bus2, r2) := publish now2 m2 bus1 in
  r1 = Ok tt /\ raises_type r2 TypeError /\
  messages_sent (stats bus2) = messages_sent (stats bus) + 1.
Proof.
  intros Hq Hp Hid H1 H2. unfold publish. rewrite H1, Hq.
  change (heappush [] (- priority m1, m1)) with ([(- priority m1, m1)], Ok tt).
  cbn -[heappush]. rewrite H2, Hp.
  destruct (heappush_tie_raises m1 m2 (- priority m2) Hid) as [q Hpush].
  rewrite Hpush. cbn. auto.
Qed.

(** Expiry is permanent: the test stays true at any later clock. *)
Lemma is_expired_later now t m :
  is_expired now m = true -> now <= t -> is_expired t m = true.
Proof. unfold is_expired. rewrite !Z.ltb_lt. lia. Qed.

Lemma handle_broadcast_called message bus sid m :
  In (Called sid m) (snd (handle_broadcast message bus)) -> m = message.
Proof.
  unfold handle_broadcast.
  destruct (subscribers_getitem _ bus) as [bus1 subs]. cbn.
  intros H. now destruct (run_callbacks_called _ _ _ _ _ H).
Qed.

Lemma handle_direct_message_called message bus sid m :
  In (Called sid m) (snd (handle_direct_message message bus)) -> m = message.
Proof.
  unfold handle_direct_message.
  destruct (receiver message) as [r|]; [|apply handle_broadcast_called].
  destruct (String.eqb r EmptyString); [apply handle_broadcast_called|].
  destruct (subscribers_getitem _ bus) as [bus1 subs]. cbn.
  intros H. now destruct (run_callbacks_called _ _ _ _ _ H).
Qed.

(** A turn of the worker calls subscribers only with a message that passed
    the expiry test of that turn. *)
Lemma process_one_called now bus sid m :
  In (Called sid m) (snd (process_one now bus)) -> is_expired now m = false.
Proof.
  unfold process_one.
  destruct (message_queue bus) as [|e rest]; [intros []|].
  destruct (heappop (e :: rest)) as [q [[prio message]|err]]; cbn.
  - destruct (is_expired now message) eqn:Hexp; [intros []|].
    destruct (String.eqb (message_type message) "broadcast").
    + intros H. apply handle_broadcast_called in H. now subst.
    + destruct (String.eqb (message_type message) "response"); [intros []|].
      intros H. apply handle_direct_message_called in H. now subst.
  - intros [H|[]]. discriminate.
Qed.

Lemma process_messages_called nows bus sid m :
  In (Called sid m) (snd (process_messages nows bus)) ->
  exists t, t ∈ nows /\ is_expired t m = false.
Proof.
  revert bus. induction nows as [|t rest IH]; intros bus; cbn; [intros []|].
  destruct (running bus); [|intros []].
  destruct (process_one t bus) as [bus1 ev1] eqn:E1.
  destruct (process_messages rest bus1) as [bus2 ev2] eqn:E2. cbn.
  intros H. apply in_app_or in H. destruct H as [H|H].
  - exists t. split; [left|].
    apply (process_one_called t bus sid m). now rewrite E1.
  - destruct (IH bus1) as (t' & Ht' & Hf); [now rewrite E2|].
    exists t'. split; [now right|exact Hf].
Qed.

End MessageBusFacts.

(** C1 (code defect): two messages of the default priority 1, both fresh
  (not expired), are published on a new bus. The first is queued; the
  second makes the heap compare the two [Message] objects, so [publish]
  raises [TypeError] and does not count the message as sent. The entry is
  the pair [(-priority, message)]: it carries no sequence number. *)
Theorem C1_publish_equal_priority_raises :
let m1 := MessageBus.new_message 1 0 "notification" "a" (Some "b") "a_0" in
let m2 := MessageBus.new_message 2 0 "notification" "a" (Some "b") "a_1" in
let '(bus1, r1) := MessageBus.publish 0 m1 MessageBus.new_bus in
let '(bus2, r2) := MessageBus.publish 0 m2 bus1 in
r1 = Ok tt /\
MessageBus.message_queue bus1 = [(-1, m1)] /\
raises_type r2 TypeError /\
MessageBus.messages_sent (MessageBus.stats bus2) = 1.
Proof. vm_compute. repeat split; reflexivity. Qed.

(** C3: a message that is expired when [publish] tests it is not queued and
    no callback runs, only the expired counter grows; a message that is
    expired when the worker dequeues it is dropped the same way: the turn of
    the loop calls no subscriber at all and the expired counter grows; and
    from the moment a message is expired on, whatever the bus holds, no turn
    of the worker ever calls a subscriber with it. *)
Theorem C3_expired_never_delivered (now : Z) (m : MessageBus.Message)
    (bus : MessageBus.Bus) :
  MessageBus.is_expired now m = true ->
  (let '(bus', r) := MessageBus.publish now m bus in
   r = Ok tt /\
   MessageBus.message_queue bus' = MessageBus.message_queue bus /\
   MessageBus.subscribers bus' = MessageBus.subscribers bus /\
   MessageBus.messages_expired (MessageBus.stats bus') =
     MessageBus.messages_expired (MessageBus.stats bus) + 1 /\
   MessageBus.messages_sent (MessageBus.stats bus') =
     MessageBus.messages_sent (MessageBus.stats bus)) /\
  (forall q prio,
     MessageBus.message_queue bus <> [] ->
     MessageBus.heappop (MessageBus.message_queue bus) = (q, Ok (prio, m)) ->
     let '(bus', events) := MessageBus.process_one now bus in
     events = [] /\
     MessageBus.message_queue bus' = q /\
     MessageBus.messages_expired (MessageBus.stats bus') =
       MessageBus.messages_expired (MessageBus.stats bus) + 1 /\
     MessageBus.messages_received (MessageBus.stats bus') =
       MessageBus.messages_received (MessageBus.stats bus)) /\
  (forall nows sid,
     Forall (fun t => now <= t) nows ->
     ~ In (MessageBus.Called sid m) (snd (MessageBus.process_messages nows bus))).
Proof.
  intros Hexp. split; [|split].
  - rewrite (publish_expired _ _ _ Hexp). simpl. auto.
  - intros q prio Hne Hpop. unfold MessageBus.process_one.
    destruct (MessageBus.message_queue bus) as [|e rest] eqn:Hq; [congruence|].
    rewrite Hpop, Hexp. simpl. auto.
  - intros nows sid Hlater Hin.
    destruct (process_messages_called _ _ _ _ Hin) as (t & Ht & Hfresh).
    rewrite Forall_forall in Hlater. specialize (Hlater t Ht).
    rewrite (is_expired_later now t m Hexp Hlater) in Hfresh. discriminate.
Qed.

(** ** Idempotency guard *)

Section WorkflowSafetyFacts.
Import WorkflowSafety.

Variable Ext : Type.
Variable memory_read : Ext -> string -> string -> Ext * option StepExecution.
Variable memory_write : Ext -> string -> string -> StepExecution -> Ext.
Variable limiter_acquire : Ext -> string -> string -> Dict -> Ext.
Variable content_address : Dict -> string.
Variable randint_seeded : Z -> Z.

Let body := execute_step_body Ext memory_read memory_write limiter_acquire
              content_address randint_seeded.
Let lookup := find_step Ext memory_read.

Lemma find_none_filter {A} (f : A -> bool) (l : list A) :
  List.find f l = None -> List.filter f l = [].
Proof.
  induction l as [|a l IH]; simpl; [reflexivity|].
  destruct (f a); [discriminate|exact IH].
Qed.

Lemma find_app_hit {A} (f : A -> bool) (l : list A) (a : A) :
  List.find f l = None -> f a = true -> List.find f (l ++ [a]) = Some a.
Proof.
  induction l as [|b l IH]; simpl; intros Hn Ha.
  - now rewrite Ha.
  - destruct (f b); [discriminate|auto].
Qed.

(** The body of [execute_step], taken alone, is idempotent: when the key
    of the inputs is in neither the journal nor the store, the first run
    answers [(False, out)] and appends one record, and a second run with the
    same inputs answers [(True, out)] and changes nothing. *)
Lemma execute_step_body_twice st ext ext0 sid ins tok1 tok2 now1 now2 :
  lookup st ext (content_address ins) = (ext0, None) ->
  let '(st1, ext1, r1) := body st ext sid ins None tok1 now1 in
  let '(st2, ext2, r2) := body st1 ext1 sid ins None tok2 now2 in
  r1 = (false, snd r1) /\ r2 = (true, snd r1) /\
  st2 = st1 /\ ext2 = ext1 /\
  journal_count st1 (content_address ins) = 1%nat /\
  journal st1 = journal st ++
    [mkStepExecution sid (content_address ins) ins (snd r1) now1 "success" tok1].
Proof.
  intros Hmiss. subst body lookup. unfold execute_step_body.
  rewrite Hmiss. unfold simulate_step.
  unfold find_step in Hmiss |- *.
  destruct (List.find _ (journal st)) eqn:Hj in Hmiss; [congruence|].
  cbn [journal].
  erewrite find_app_hit; [| exact Hj | cbn; apply String.eqb_refl].
  cbn. repeat split.
  unfold journal_count. cbn [journal].
  rewrite List.filter_app, (find_none_filter _ _ Hj). cbn.
  now rewrite String.eqb_refl.
Qed.

End WorkflowSafetyFacts.

(** C2 (code defect): [execute_step] is declared to return the tuple
    [(is_replay, outputs)], but it is wrapped by [@contextmanager] and has
    no [yield]. Whatever the state, the inputs and the collaborators, two
    calls in a row hand the caller two context-manager objects: neither is
    the tuple [(False, out)] or [(True, out)], unpacking either one raises
    [TypeError], and so does entering it with [with]. *)
Theorem C2_execute_step_returns_manager_not_tuple
    (Ext : Type)
    (memory_read : Ext -> string -> string -> Ext * option WorkflowSafety.StepExecution)
    (memory_write : Ext -> string -> string -> WorkflowSafety.StepExecution -> Ext)
    (limiter_acquire : Ext -> string -> string -> Dict -> Ext)
    (content_address : Dict -> string) (randint_seeded : Z -> Z)
    (st : WorkflowSafety.Safety) (ext : Ext) (sid : string) (ins : Dict)
    (tok1 tok2 : string) (now1 now2 : Z) :
  let run := WorkflowSafety.execute_step Ext memory_read memory_write
               limiter_acquire content_address randint_seeded in
  let '(st1, ext1, v1) := run st ext sid ins None tok1 now1 in
  let '(st2, ext2, v2) := run st1 ext1 sid ins None tok2 now2 in
  (forall out, v1 <> WorkflowSafety.ReturnedTuple false out) /\
  (forall out, v2 <> WorkflowSafety.ReturnedTuple true out) /\
  raises_type (WorkflowSafety.unpack_pair v1) TypeError /\
  raises_type (WorkflowSafety.unpack_pair v2) TypeError /\
  raises_type (WorkflowSafety.enter v1) TypeError /\
  raises_type (WorkflowSafety.enter v2) TypeError.
Proof.
  cbv zeta. unfold WorkflowSafety.execute_step.
  destruct (WorkflowSafety.execute_step_body _ _ _ _ _ _ st ext sid ins None tok1 now1)
    as [[st1 ext1] t1].
  destruct (WorkflowSafety.execute_step_body _ _ _ _ _ _ st1 ext1 sid ins None tok2 now2)
    as [[st2 ext2] t2].
  cbn. repeat split; intros; discriminate.
Qed.

(** ** Orchestrator *)

Section OrchestratorFacts.
Import EpisodicMemory AgentCommunication Orchestrator.

Variable Mem : Type.
Variable store_experience : Mem -> Experience -> Res Mem.
Variable add_item : Mem -> Dict -> string -> list string -> Res Mem.
Variable send_task_request : string -> Dict -> Res PyValue.
Variable offer_collaboration : string -> string -> Dict -> Res PyValue.
Variable py_str : PyValue -> string.

Abbreviation run_task :=
  (execute_task Mem store_experience add_item send_task_request py_str).
Abbreviation run_collab := (start_collaboration Mem offer_collaboration).

(** An unknown agent name: [ValueError], nothing changes. *)
Lemma execute_task_not_registered (o : State Mem) agent task elapsed :
  agents Mem o !! agent = None ->
  run_task o agent task elapsed =
    (o, Raise (mkExc ValueError ("Agent '" +:+ agent +:+ "' not registered"))).
Proof. intros H. unfold execute_task. now rewrite H. Qed.

(** A registered agent that is not idle: [RuntimeError], nothing changes. *)
Lemma execute_task_not_idle (o : State Mem) agent info task elapsed :
  agents Mem o !! agent = Some info ->
  agent_status info <> IDLE ->
  run_task o agent task elapsed =
    (o, Raise (mkExc RuntimeError ("Agent '" +:+ agent +:+ "' is not available"))).
Proof.
  intros H Hs. unfold execute_task. rewrite H.
  destruct (agent_status info); try congruence; reflexivity.
Qed.

(** The dataclass constructor is called without [timestamp] at both call
    sites, so it raises whatever the other arguments are. *)
Lemma Experience_init_no_timestamp t s c l p a ty :
  raises_type (Experience_init t s None c l p a ty) TypeError.
Proof.
  unfold Experience_init.
  destruct t, s, c, l, p, a, ty; reflexivity.
Qed.

(** An idle agent whose task request returns: the call still ends in the
    [except] block, because building the experience record raises. The
    agent is left in [ERROR], the task is counted twice, once as a success
    and once as a failure, and the caller gets a [TypeError]. *)
Lemma execute_task_completed (o : State Mem) agent info task elapsed result :
  agents Mem o !! agent = Some info ->
  agent_status info = IDLE ->
  send_task_request agent task = Ok result ->
  let '(o', r) := run_task o agent task elapsed in
  raises_type r TypeError /\
  agent_status <$> (agents Mem o' !! agent) = Some ERROR /\
  total_tasks (stats Mem o') = total_tasks (stats Mem o) + 2 /\
  successful_tasks (stats Mem o') = successful_tasks (stats Mem o) + 1 /\
  failed_tasks (stats Mem o') = failed_tasks (stats Mem o) + 1.
Proof.
  intros H Hs Hsend. unfold execute_task. rewrite H, Hs, Hsend. cbn.
  repeat split; try lia.
  rewrite !lookup_alter_eq, H. reflexivity.
Qed.

(** An idle agent whose task request raises [e]: the failure is counted and
    the agent marked, but the caller gets the [TypeError] of the record
    constructor in place of [e]. *)
Lemma execute_task_failed (o : State Mem) agent info task elapsed e :
  agents Mem o !! agent = Some info ->
  agent_status info = IDLE ->
  send_task_request agent task = Raise e ->
  let '(o', r) := run_task o agent task elapsed in
  raises_type r TypeError /\
  agent_status <$> (agents Mem o' !! agent) = Some ERROR /\
  total_tasks (stats Mem o') = total_tasks (stats Mem o) + 1 /\
  successful_tasks (stats Mem o') = successful_tasks (stats Mem o) /\
  failed_tasks (stats Mem o') = failed_tasks (stats Mem o) + 1.
Proof.
  intros H Hs Hsend. unfold execute_task. rewrite H, Hs, Hsend. cbn.
  repeat split; try lia.
  rewrite !lookup_alter_eq, H. reflexivity.
Qed.

(** The session stored by [start_collaboration] lists the initiator and
    then the given participants, exactly as given. *)
Lemma start_collaboration_participants (o : State Mem) ini parts ctype ctx
    now_ms now :
  let o' := fst (run_collab o ini parts ctype ctx now_ms now) in
  participants <$> (collaborations Mem o' !! ("collab_" +:+ pretty now_ms))
  = Some (ini :: parts).
Proof.
  cbv zeta. unfold start_collaboration.
  destruct (notify_participants _ _ _ _ _ _); cbn;
    rewrite lookup_insert_eq; reflexivity.
Qed.

Lemma mem_string_In x l : mem_string x l = true <-> In x l.
Proof.
  unfold mem_string. rewrite existsb_exists. split.
  - intros [y [Hy He]]. apply String.eqb_eq in He. now subst.
  - intros H. exists x. split; [exact H|apply String.eqb_refl].
Qed.

(** The sibling path [add_participant] does keep the list free of
    duplicates. *)
Lemma add_participant_NoDup c agent :
  List.NoDup (participants c) -> List.NoDup (participants (add_participant c agent)).
Proof.
  intros Hnd. unfold add_participant.
  destruct (mem_string agent (participants c)) eqn:E; [exact Hnd|].
  cbn. apply NoDup_ListNoDup, NoDup_app. apply NoDup_ListNoDup in Hnd.
  split; [exact Hnd|]. split.
  - intros x Hx Hx'. apply list_elem_of_singleton in Hx'. subst x.
    apply list_elem_of_In, mem_string_In in Hx. congruence.
  - apply NoDup_singleton.
Qed.

End OrchestratorFacts.

(** C4 (code defect): the agent "writer" is registered and idle and its
    task request returns [result]. [execute_task] marks it busy, then idle,
    counts a success, and then builds [Experience(...)] without the required
    [timestamp]: the [TypeError] lands in the [except] block, which marks
    the agent [ERROR], counts the task again as a failure, builds the record
    the same way and raises. Whatever the collaborators do, the caller gets
    a [TypeError], the agent is in [ERROR] and the counters read 2/1/1. *)
Theorem C4_execute_task_ends_in_error
    (Mem : Type)
    (store_experience : Mem -> EpisodicMemory.Experience -> Res Mem)
    (add_item : Mem -> Dict -> string -> list string -> Res Mem)
    (py_str : PyValue -> string) (mem0 : Mem) (result elapsed : PyValue) :
  let writer := Orchestrator.mkAgentInfo "writer" "author" ["write"]
                  Orchestrator.IDLE 0 [] in
  let o := Orchestrator.mkState Mem {[ "writer" := writer ]} ∅
             (Orchestrator.mkStats 0 0 0 0 0) mem0 in
  let '(o', r) :=
    Orchestrator.execute_task Mem store_experience add_item
      (fun _ _ => Ok result) py_str o "writer" [("action", VStr "noop")]
      elapsed in
  raises_type r TypeError /\
  Orchestrator.agent_status <$> (Orchestrator.agents Mem o' !! "writer")
    = Some Orchestrator.ERROR /\
  Orchestrator.total_tasks (Orchestrator.stats Mem o') = 2 /\
  Orchestrator.successful_tasks (Orchestrator.stats Mem o') = 1 /\
  Orchestrator.failed_tasks (Orchestrator.stats Mem o') = 1.
Proof.
  intros writer o.
  pose proof (execute_task_completed Mem store_experience add_item
                (fun _ _ => Ok result) py_str o "writer" writer
                [("action", VStr "noop")] elapsed result) as H.
  destruct (Orchestrator.execute_task _ _ _ _ _ _ _ _ _) as [o' r].
  apply H; [apply lookup_singleton_eq | reflexivity | reflexivity].
Qed.

(** C7 (code defect): a collaboration started by "a" with the participants
    "a", "b", "b" is stored with the participant list "a", "a", "b", "b":
    the initiator is put in front of the list as given and nothing removes
    duplicates, unlike [add_participant]. *)
Theorem C7_start_collaboration_keeps_duplicates
    (Mem : Type)
    (offer_collaboration : string -> string -> Dict -> Res PyValue)
    (mem0 : Mem) (ctx : Dict) (now_ms now : Z) :
  let o := Orchestrator.mkState Mem ∅ ∅ (Orchestrator.mkStats 0 0 0 0 0) mem0 in
  let o' := fst (Orchestrator.start_collaboration Mem offer_collaboration o
                   "a" ["a"; "b"; "b"] "planning" ctx now_ms now) in
  exists c,
    Orchestrator.collaborations Mem o' !! ("collab_" +:+ pretty now_ms) = Some c /\
    AgentCommunication.participants c = ["a"; "a"; "b"; "b"] /\
    ~ List.NoDup (AgentCommunication.participants c).
Proof.
  intros o o'.
  pose proof (start_collaboration_participants Mem offer_collaboration o
                "a" ["a"; "b"; "b"] "planning" ctx now_ms now) as H.
  cbv zeta in H. fold o' in H.
  destruct (Orchestrator.collaborations Mem o' !! _) as [c|]; [|discriminate].
  exists c. cbn in H. injection H as H. rewrite H.
  repeat split. intros Hnd. inversion Hnd as [|x l Hin _]; subst.
  apply Hin. left. reflexivity.
Qed.

(** ** Dictionaries and strings *)

Section DictFacts.

Lemma dict_get_set_eq (d : Dict) k v : dict_get (dict_set d k v) k = Some v.
Proof.
  induction d as [|[k' v'] d IH]; cbn.
  - now rewrite String.eqb_refl.
  - destruct (String.eqb k k') eqn:E; cbn; rewrite E; [reflexivity|exact IH].
Qed.

Lemma dict_get_set_ne (d : Dict) k k' v :
  k <> k' -> dict_get (dict_set d k v) k' = dict_get d k'.
Proof.
  intros Hne. induction d as [|[k0 v0] d IH]; cbn.
  - apply String.eqb_neq in Hne. rewrite String.eqb_sym in Hne. now rewrite Hne.
  - destruct (String.eqb k k0) eqn:E; cbn.
    + apply String.eqb_eq in E. subst k0.
      apply String.eqb_neq in Hne. rewrite String.eqb_sym in Hne.
      now rewrite Hne.
    + now rewrite IH.
Qed.

Lemma dict_get_None (d : Dict) k :
  dict_get d k = None <-> ~ In k (dict_keys d).
Proof.
  unfold dict_keys.
  induction d as [|[k' v'] d IH]; cbn.
  - tauto.
  - destruct (String.eqb k k') eqn:E.
    + apply String.eqb_eq in E. subst. split; [discriminate|tauto].
    + apply String.eqb_neq in E. rewrite IH. intuition congruence.
Qed.

(** Writing a new key appends it; the keys already there stay in place. *)
Lemma dict_keys_set_new (d : Dict) k v :
  ~ In k (dict_keys d) -> dict_keys (dict_set d k v) = dict_keys d ++ [k].
Proof.
  unfold dict_keys.
  induction d as [|[k' v'] d IH]; cbn; intros Hn; [reflexivity|].
  destruct (String.eqb k k') eqn:E.
  - apply String.eqb_eq in E. subst. tauto.
  - cbn. rewrite IH; [reflexivity|tauto].
Qed.

Lemma substring_0_app (s t : string) :
  String.substring 0 (String.length s) (s +:+ t) = s.
Proof.
  induction s as [|c s IH]; simpl.
  - destruct t; reflexivity.
  - f_equal. exact IH.
Qed.

Lemma substring_skip_app (s t : string) (m : nat) :
  String.substring (String.length s) m (s +:+ t) = String.substring 0 m t.
Proof. induction s as [|c s IH]; simpl; [reflexivity|exact IH]. Qed.

Lemma substring_0_all (s : string) :
  String.substring 0 (String.length s) s = s.
Proof. induction s as [|c s IH]; simpl; [reflexivity|f_equal; exact IH]. Qed.

Lemma length_app_string (s t : string) :
  String.length (s +:+ t) = (String.length s + String.length t)%nat.
Proof. induction s as [|c s IH]; simpl; [reflexivity|f_equal; exact IH]. Qed.

Lemma startswith_app (p t : string) : PyStr.startswith p (p +:+ t) = true.
Proof.
  unfold PyStr.startswith. apply String.prefix_correct, substring_0_app.
Qed.

Lemma endswith_app (p s : string) : PyStr.endswith p (s +:+ p) = true.
Proof.
  unfold PyStr.endswith. rewrite length_app_string.
  replace (Nat.leb (String.length p) (String.length s + String.length p))
    with true by (symmetry; apply Nat.leb_le; lia).
  replace (String.length s + String.length p - String.length p)%nat
    with (String.length s) by lia.
  rewrite substring_skip_app, substring_0_all. apply String.eqb_refl.
Qed.

Lemma append_cons (x : ascii) (a b : string) :
  String x a +:+ b = String x (a +:+ b).
Proof. reflexivity. Qed.

Lemma append_assoc (a b c : string) : (a +:+ b) +:+ c = a +:+ (b +:+ c).
Proof.
  induction a as [|x a IH]; [reflexivity|].
  now rewrite !append_cons, IH.
Qed.

(** [(a + s + b)[len(a):-len(b)]] is [s], for a non-empty [b]. *)
Lemma slice_middle (a s b : string) :
  (0 < String.length b)%nat ->
  PyStr.slice (a +:+ s +:+ b) (Z.of_nat (String.length a))
              (- Z.of_nat (String.length b)) = s.
Proof.
  intros Hb. unfold PyStr.slice, PyStr.slice_bound.
  rewrite !length_app_string.
  set (la := String.length a). set (ls := String.length s).
  set (lb := String.length b).
  replace (Z.ltb (Z.of_nat la) 0) with false by (symmetry; apply Z.ltb_ge; lia).
  replace (Z.ltb (- Z.of_nat lb) 0) with true
    by (symmetry; apply Z.ltb_lt; subst lb; lia).
  replace (Z.to_nat (Z.min (Z.max (Z.of_nat la) 0) (Z.of_nat (la + (ls + lb)))))
    with la by lia.
  replace (Z.to_nat (Z.min (Z.max (Z.of_nat (la + (ls + lb)) + - Z.of_nat lb) 0)
                           (Z.of_nat (la + (ls + lb)))))
    with (la + ls)%nat by lia.
  replace (la + ls - la)%nat with ls by lia.
  subst la ls. rewrite substring_skip_app. apply substring_0_app.
Qed.

(** ["{{" + inner + "}}"] is a template and its slice [2:-2] is [inner]. *)
Lemma template_form (inner : string) :
  WorkflowEngine.is_template ("{{" +:+ inner +:+ "}}") = true /\
  PyStr.slice ("{{" +:+ inner +:+ "}}") 2 (-2) = inner.
Proof.
  split.
  - unfold WorkflowEngine.is_template.
    rewrite startswith_app, <- append_assoc, endswith_app. reflexivity.
  - apply (slice_middle "{{" inner "}}"). simpl. lia.
Qed.

(** ["${" + path + "}"] is a path reference, not a template, and its slice
    [2:-1] is [path]. *)
Lemma path_form (path : string) :
  WorkflowEngine.is_template ("${" +:+ path +:+ "}") = false /\
  WorkflowEngine.is_path ("${" +:+ path +:+ "}") = true /\
  PyStr.slice ("${" +:+ path +:+ "}") 2 (-1) = path.
Proof.
  split; [reflexivity|]. split.
  - unfold WorkflowEngine.is_path.
    rewrite startswith_app, <- append_assoc, endswith_app. reflexivity.
  - apply (slice_middle "${" path "}"). simpl. lia.
Qed.

(** Each parameter is resolved on its own: the resolved dict holds, under
    every key, the resolution of the value given under that key. *)
Lemma resolve_parameters_get (params ctx : Dict) key :
  List.NoDup (dict_keys params) ->
  dict_get (WorkflowEngine.resolve_parameters params ctx) key =
    option_map (fun v => WorkflowEngine.resolve_value v ctx) (dict_get params key).
Proof.
  unfold WorkflowEngine.resolve_parameters.
  assert (G : forall params acc, List.NoDup (dict_keys params) ->
    dict_get (fold_left (fun resolved kv =>
        dict_set resolved (fst kv) (WorkflowEngine.resolve_value (snd kv) ctx))
        params acc) key =
    match dict_get params key with
    | Some v => Some (WorkflowEngine.resolve_value v ctx)
    | None => dict_get acc key
    end).
  { clear params. induction params as [|[k v] rest IH]; intros acc Hnd; cbn.
    - reflexivity.
    - cbn in Hnd. inversion Hnd as [|x l Hnotin Hnd']; subst.
      rewrite IH by exact Hnd'.
      destruct (String.eqb key k) eqn:E.
      + apply String.eqb_eq in E. subst key.
        apply dict_get_None in Hnotin. rewrite Hnotin.
        apply dict_get_set_eq.
      + apply String.eqb_neq in E.
        destruct (dict_get rest key); [reflexivity|].
        apply dict_get_set_ne. congruence. }
  intros Hnd. rewrite G by exact Hnd.
  destruct (dict_get params key); reflexivity.
Qed.

End DictFacts.

(** ** Workflow engine *)

Lemma get_nested_value_breaks current path :
  WorkflowEngine.path_breaks current path ->
  WorkflowEngine.get_nested_value current path = VNone.
Proof.
  revert current. induction path as [|key rest IH]; intros current; cbn.
  - tauto.
  - destruct current; try reflexivity.
    destruct (dict_get d key); [apply IH|reflexivity].
Qed.

(** C10: a parameter whose value is ["{{" + inner + "}}"], where the name
    [inner.strip()] is not a key of the context, resolves to that same
    string; a parameter ["${" + path + "}"] whose dotted path has a missing
    segment resolves to [None]. *)
Theorem C10_missing_template_kept (params ctx : Dict) (key inner : string) :
  List.NoDup (dict_keys params) ->
  dict_get ctx (PyStr.strip inner) = None ->
  (dict_get params key = Some (VStr ("{{" +:+ inner +:+ "}}")) ->
   dict_get (WorkflowEngine.resolve_parameters params ctx) key
     = Some (VStr ("{{" +:+ inner +:+ "}}"))) /\
  (forall path,
     dict_get params key = Some (VStr ("${" +:+ path +:+ "}")) ->
     WorkflowEngine.path_breaks (VDict ctx) (PyStr.split_char "." (PyStr.strip path)) ->
     dict_get (WorkflowEngine.resolve_parameters params ctx) key = Some VNone).
Proof.
  intros Hnd Habs. split.
  - intros Hp. rewrite resolve_parameters_get, Hp by exact Hnd. cbn [option_map].
    unfold WorkflowEngine.resolve_value.
    destruct (template_form inner) as [Ht Hs]. rewrite Ht, Hs, Habs. reflexivity.
  - intros path Hp Hbr. rewrite resolve_parameters_get, Hp by exact Hnd.
    cbn [option_map]. unfold WorkflowEngine.resolve_value.
    destruct (path_form path) as [Ht [Hpa Hs]]. rewrite Ht, Hpa, Hs.
    now rewrite get_nested_value_breaks.
Qed.

(** The template ["{{ nope }}"] against a context without [nope]. *)
Lemma C10_witness :
  dict_get (WorkflowEngine.resolve_parameters
              [("x", VStr "{{ nope }}"); ("y", VStr "${a.b}")]
              [("a", VDict [("c", VInt 1)])]) "x"
    = Some (VStr "{{ nope }}").
Proof.
  apply (C10_missing_template_kept
           [("x", VStr "{{ nope }}"); ("y", VStr "${a.b}")]
           [("a", VDict [("c", VInt 1)])] "x" " nope ").
  - repeat constructor; cbn; intuition discriminate.
  - reflexivity.
  - reflexivity.
Defined.

(** C9: [cancel_workflow] answers [False] and changes nothing when the id
    is not active or its execution is not running; for a running execution
    it answers [True] and leaves it cancelled with its end time set. *)
Theorem C9_cancel_workflow (eng : WorkflowEngine.Engine) (wid : string) (now : Z) :
  let '(eng', answer) := WorkflowEngine.cancel_workflow eng wid now in
  match WorkflowEngine.active_workflows eng !! wid with
  | None => answer = false /\ eng' = eng
  | Some execution =>
      match WorkflowEngine.status execution with
      | WorkflowEngine.RUNNING =>
          answer = true /\
          exists cancelled,
            WorkflowEngine.active_workflows eng' !! wid = Some cancelled /\
            WorkflowEngine.status cancelled = WorkflowEngine.CANCELLED /\
            WorkflowEngine.end_time cancelled = Some now /\
            WorkflowEngine.end_time cancelled <> None /\
            WorkflowEngine.workflow_id cancelled = WorkflowEngine.workflow_id execution /\
            WorkflowEngine.results cancelled = WorkflowEngine.results execution /\
            (forall other, other <> wid ->
               WorkflowEngine.active_workflows eng' !! other =
               WorkflowEngine.active_workflows eng !! other)
      | _ => answer = false /\ eng' = eng
      end
  end.
Proof.
  unfold WorkflowEngine.cancel_workflow.
  destruct (WorkflowEngine.active_workflows eng !! wid) as [execution|] eqn:E;
    [|split; reflexivity].
  destruct (WorkflowEngine.status execution) eqn:Es; cbn;
    try (split; reflexivity).
  split; [reflexivity|]. eexists. split; [apply lookup_insert_eq|].
  cbn. repeat split; try discriminate.
  intros other Hne. apply lookup_insert_ne. congruence.
Qed.

Section ParallelFacts.
Import WorkflowEngine.

Variable D : Type.
Variable run : WorkflowStep -> Dict -> Disp D -> Disp D * Res PyValue.

(** Collecting the outcomes of branches with pairwise distinct, new names:
    the names are appended in order, what was collected before is kept, and
    each branch has its own outcome under its name. *)
Lemma parallel_branches_spec bs ctx : forall acc (disp : Disp D),
  List.NoDup (dict_keys acc ++ map name bs) ->
  dict_keys (snd (parallel_branches D run bs ctx acc disp)) =
    dict_keys acc ++ map name bs /\
  (forall key, In key (dict_keys acc) ->
     dict_get (snd (parallel_branches D run bs ctx acc disp)) key =
     dict_get acc key) /\
  (forall k b, bs !! k = Some b ->
     dict_get (snd (parallel_branches D run bs ctx acc disp)) (name b) =
     Some (branch_slot (snd (run b ctx
             (fst (parallel_branches D run (take k bs) ctx acc disp)))))).
Proof.
  induction bs as [|b0 rest IH]; intros acc disp Hnd.
  - cbn. rewrite app_nil_r. split; [reflexivity|].
    split; [reflexivity|]. intros k b Hk. discriminate.
  - cbn [parallel_branches].
    destruct (run b0 ctx disp) as [disp1 r] eqn:Er.
    set (acc1 := dict_set acc (name b0) (branch_slot r)).
    pose proof (List.NoDup_remove_2 _ _ _ Hnd) as Hnew.
    assert (Hacc : ~ In (name b0) (dict_keys acc)).
    { intros H. apply Hnew. apply in_or_app. now left. }
    assert (Hkeys : dict_keys acc1 = dict_keys acc ++ [name b0]).
    { subst acc1. now apply dict_keys_set_new. }
    assert (Hnd1 : List.NoDup (dict_keys acc1 ++ map name rest)).
    { rewrite Hkeys, <- app_assoc. exact Hnd. }
    specialize (IH acc1 disp1 Hnd1). destruct IH as [IHk [IHold IHslot]].
    split; [|split].
    + rewrite IHk, Hkeys, <- app_assoc. reflexivity.
    + intros key Hin. rewrite IHold.
      * subst acc1. apply dict_get_set_ne. intros Heq. subst key. tauto.
      * rewrite Hkeys. apply in_or_app. now left.
    + intros [|k] b Hk.
      * cbn in Hk. injection Hk as <-. cbn [take parallel_branches fst].
        rewrite IHold.
        -- subst acc1. rewrite dict_get_set_eq, Er. reflexivity.
        -- rewrite Hkeys. apply in_or_app. right. now left.
      * cbn in Hk. cbn [take parallel_branches]. rewrite Er.
        fold acc1. exact (IHslot k b Hk).
Qed.

End ParallelFacts.

Section EngineFacts.
Import WorkflowEngine.

Variable py_int : string -> option Z.
Variable py_float : string -> option float.
Variable py_eq : PyValue -> PyValue -> Res bool.
Variable D : Type.
Variable dispatch : D -> string -> Dict -> D * Res PyValue.

Abbreviation run_step := (execute_step py_int py_float py_eq D dispatch).
Abbreviation run_task_step := (execute_task_step D dispatch).
Abbreviation run_conditional :=
  (execute_conditional_step py_int py_float py_eq D dispatch).

(** [_execute_step] on each kind of step. *)
Lemma execute_step_unfold step ctx (disp : Disp D) :
  run_step step ctx disp =
  match step_type step with
  | TASK => run_task_step step ctx disp
  | PARALLEL => execute_parallel_step D run_step step ctx disp
  | CONDITIONAL => run_conditional step ctx disp
  | LOOP => execute_loop_step D dispatch step ctx disp
  end.
Proof. destruct step; reflexivity. Qed.

(** A falsy condition: the step is skipped and the dispatcher is left as it
    was, with no call made. *)
Lemma conditional_falsy step ctx (disp : Disp D) c :
  condition step = Some c -> c <> EmptyString ->
  evaluate_condition py_int py_float py_eq c ctx = false ->
  run_conditional step ctx disp = (disp, Ok skipped).
Proof.
  intros Hc Hne Hev. unfold execute_conditional_step. rewrite Hc.
  apply String.eqb_neq in Hne. now rewrite Hne, Hev.
Qed.

(** A truthy condition: the task step is run; its result is passed on, its
    exception is wrapped in a [RuntimeError]. *)
Lemma conditional_truthy step ctx (disp : Disp D) c :
  condition step = Some c -> c <> EmptyString ->
  evaluate_condition py_int py_float py_eq c ctx = true ->
  run_conditional step ctx disp =
    match run_task_step step ctx disp with
    | (disp', Ok v) => (disp', Ok v)
    | (disp', Raise e) =>
        (disp', Raise (mkExc RuntimeError
           ("Failed to evaluate condition '" +:+ c +:+ "': " +:+ exc_str e)))
    end.
Proof.
  intros Hc Hne Hev. unfold execute_conditional_step. rewrite Hc.
  apply String.eqb_neq in Hne. now rewrite Hne, Hev.
Qed.

(** An evaluation that raises is a falsy condition. *)
Lemma evaluate_condition_raise c ctx :
  is_ok (evaluate_condition_try py_int py_float py_eq c ctx) = false ->
  evaluate_condition py_int py_float py_eq c ctx = false.
Proof.
  unfold evaluate_condition.
  destruct (evaluate_condition_try _ _ _ c ctx); [discriminate|reflexivity].
Qed.

End EngineFacts.

(** C5, as stated, fails when two nested steps share a name: the results
    are keyed by name, so the two branches named "a" leave one entry, that
    of the failing second branch, and the result of the first is lost. *)
Lemma C5_counterexample :
  ~ (forall (step : WorkflowEngine.WorkflowStep) (ctx : Dict)
            (disp : WorkflowEngine.Disp nat),
       WorkflowEngine.step_type step = WorkflowEngine.PARALLEL ->
       WorkflowEngine.parallel_steps step <> [] ->
       exists disp' results,
         Scenario.run_step step ctx disp = (disp', Ok (VDict results)) /\
         length results = length (WorkflowEngine.parallel_steps step)).
Proof.
  intros H.
  destruct (H Scenario.fan_out_same_name [] Scenario.fresh_disp eq_refl)
    as (disp' & results & Hrun & Hlen); [discriminate|].
  vm_compute in Hrun. injection Hrun as _ Hres. subst results.
  cbn in Hlen. discriminate.
Qed.

(** C5 (amended): a [Parallel] step with at least one nested step, the nested
    steps having pairwise distinct names, returns a dict and never raises. Its
    keys are the names of the nested steps, in order, so it has exactly one
    entry per nested step; the entry of a branch is the value the branch
    returned, or [{'error': str(e)}] when the branch raised [e], whatever
    the other branches did. *)
Theorem C5_parallel_containment
    (py_int : string -> option Z) (py_float : string -> option float)
    (py_eq : PyValue -> PyValue -> Res bool)
    (D : Type) (dispatch : D -> string -> Dict -> D * Res PyValue)
    (step : WorkflowEngine.WorkflowStep) (ctx : Dict)
    (disp : WorkflowEngine.Disp D) :
  let run := WorkflowEngine.execute_step py_int py_float py_eq D dispatch in
  let branches := WorkflowEngine.parallel_steps step in
  WorkflowEngine.step_type step = WorkflowEngine.PARALLEL ->
  branches <> [] ->
  List.NoDup (map WorkflowEngine.name branches) ->
  exists disp' results,
    run step ctx disp = (disp', Ok (VDict results)) /\
    dict_keys results = map WorkflowEngine.name branches /\
    length results = length branches /\
    forall k branch, branches !! k = Some branch ->
      match snd (run branch ctx
                   (WorkflowEngine.branch_start D run branches ctx disp k)) with
      | Ok v => dict_get results (WorkflowEngine.name branch) = Some v
      | Raise e =>
          dict_get results (WorkflowEngine.name branch) =
            Some (VDict [("error", VStr (exc_str e))])
      end.
Proof.
  intros run branches Hty Hne Hnd.
  pose proof (parallel_branches_spec D run branches ctx [] disp Hnd)
    as [Hkeys [_ Hslot]].
  destruct (WorkflowEngine.parallel_branches D run branches ctx [] disp)
    as [disp' results] eqn:Epb.
  exists disp', results. cbn [snd] in Hkeys, Hslot. cbn [app dict_keys] in Hkeys.
  split; [|split; [exact Hkeys|split]].
  - subst run. rewrite execute_step_unfold, Hty.
    unfold WorkflowEngine.execute_parallel_step. fold branches.
    destruct branches as [|b bs]; [congruence|]. now rewrite Epb.
  - rewrite <- (length_map fst results), <- (length_map WorkflowEngine.name branches).
    unfold dict_keys in Hkeys. now rewrite Hkeys.
  - intros k branch Hk. specialize (Hslot k branch Hk).
    unfold WorkflowEngine.branch_start.
    destruct (run branch ctx _) as [d1 [v|e]]; exact Hslot.
Qed.

(** Three branches "a", "b", "c", of which "b" raises. *)
Lemma C5_witness :
  exists disp' results,
    Scenario.run_step Scenario.fan_out [] Scenario.fresh_disp
      = (disp', Ok (VDict results)) /\
    dict_keys results = ["a"; "b"; "c"] /\
    dict_get results "b"
      = Some (VDict [("error", VStr "Agent 'bad' is not available")]).
Proof.
  destruct (C5_parallel_containment Scenario.no_int Scenario.no_float
              Scenario.same_object nat Scenario.counting_dispatch
              Scenario.fan_out [] Scenario.fresh_disp)
    as (disp' & results & Hrun & Hkeys & _ & Hslots).
  - reflexivity.
  - discriminate.
  - repeat constructor; cbn; intuition discriminate.
  - exists disp', results. split; [exact Hrun|]. split; [exact Hkeys|].
    exact (Hslots 1%nat (Scenario.task_step "b" "bad") eq_refl).
Defined.

(** A message with [ttl = 0] created at clock 0 and dequeued at clock 1. *)
Lemma C3_witness :
  snd (MessageBus.process_one 1 Scenario.bus_holding_short_lived) = [] /\
  MessageBus.messages_expired
    (MessageBus.stats (fst (MessageBus.process_one 1 Scenario.bus_holding_short_lived)))
  = 1.
Proof.
  destruct (C3_expired_never_delivered 1 Scenario.short_lived
              Scenario.bus_holding_short_lived) as [_ [Hdeq _]].
  - reflexivity.
  - specialize (Hdeq [] (-1)).
    destruct (MessageBus.process_one 1 Scenario.bus_holding_short_lived)
      as [bus' events].
    destruct Hdeq as (Hev & _ & Hexp & _).
    + discriminate.
    + reflexivity.
    + split; [exact Hev|exact Hexp].
Defined.

(** C6, as stated, fails: with [flag] bound to a value whose truth test
    raises, the evaluation of ["{{flag}}"] raises, and yet the conditional
    step returns normally. *)
Lemma C6_counterexample :
  ~ (forall (step : WorkflowEngine.WorkflowStep) (ctx : Dict)
            (disp : WorkflowEngine.Disp nat) (c : string),
       WorkflowEngine.condition step = Some c -> c <> EmptyString ->
       is_ok (WorkflowEngine.evaluate_condition_try Scenario.no_int
                Scenario.no_float Scenario.same_object c ctx) = false ->
       is_ok (snd (Scenario.run_conditional step ctx disp)) = false).
Proof.
  intros H.
  specialize (H Scenario.guarded [("flag", Scenario.flaky)] Scenario.fresh_disp
                "{{flag}}" eq_refl).
  assert (Hne : "{{flag}}" <> EmptyString) by discriminate.
  specialize (H Hne eq_refl). vm_compute in H. discriminate.
Qed.

(** C6 (amended): when the evaluation of the condition of a [Conditional]
    step raises, the evaluator answers [False]: the step returns the
    skipped marker, the dispatcher is not called, and the enclosing
    workflow goes on with the next step. *)
Theorem C6_evaluation_error_is_falsy
    (py_int : string -> option Z) (py_float : string -> option float)
    (py_eq : PyValue -> PyValue -> Res bool)
    (D : Type) (dispatch : D -> string -> Dict -> D * Res PyValue)
    (step : WorkflowEngine.WorkflowStep) (rest : list WorkflowEngine.WorkflowStep)
    (ctx : Dict) (e : WorkflowEngine.WorkflowExecution)
    (disp : WorkflowEngine.Disp D) (c : string) :
  WorkflowEngine.step_type step = WorkflowEngine.CONDITIONAL ->
  WorkflowEngine.condition step = Some c -> c <> EmptyString ->
  is_ok (WorkflowEngine.evaluate_condition_try py_int py_float py_eq c ctx) = false ->
  WorkflowEngine.evaluate_condition py_int py_float py_eq c ctx = false /\
  WorkflowEngine.execute_step py_int py_float py_eq D dispatch step ctx disp
    = (disp, Ok WorkflowEngine.skipped) /\
  WorkflowEngine.run_steps py_int py_float py_eq D dispatch (step :: rest) ctx e disp
    = WorkflowEngine.run_steps py_int py_float py_eq D dispatch rest
        (dict_set ctx (WorkflowEngine.name step +:+ "_result") WorkflowEngine.skipped)
        (WorkflowEngine.set_progress e (Some (WorkflowEngine.name step))
           (dict_set (WorkflowEngine.results e) (WorkflowEngine.name step)
                     WorkflowEngine.skipped)
           (WorkflowEngine.errors e))
        disp.
Proof.
  intros Hty Hc Hne Hraise.
  pose proof (evaluate_condition_raise py_int py_float py_eq c ctx Hraise) as Hev.
  assert (Hstep : WorkflowEngine.execute_step py_int py_float py_eq D dispatch
                    step ctx disp = (disp, Ok WorkflowEngine.skipped)).
  { rewrite execute_step_unfold, Hty.
    now apply conditional_falsy with (c := c). }
  split; [exact Hev|]. split; [exact Hstep|].
  cbn [WorkflowEngine.run_steps]. rewrite Hstep. reflexivity.
Qed.

(** ["{{flag}}"] with [flag] bound to a value whose truth test raises. *)
Lemma C6_witness :
  Scenario.run_step Scenario.guarded [("flag", Scenario.flaky)] Scenario.fresh_disp
    = (Scenario.fresh_disp, Ok WorkflowEngine.skipped).
Proof.
  apply (C6_evaluation_error_is_falsy Scenario.no_int Scenario.no_float
           Scenario.same_object nat Scenario.counting_dispatch Scenario.guarded []
           [("flag", Scenario.flaky)]
           (WorkflowEngine.mkExecution "wf" [] WorkflowEngine.RUNNING None None
              None [] [] [])
           Scenario.fresh_disp "{{flag}}").
  - reflexivity.
  - reflexivity.
  - discriminate.
  - reflexivity.
Defined.

(** C8, as stated, fails in its second half: with a truthy condition and
    no agent given, the task step raises [ValueError] and the conditional
    step raises a [RuntimeError] instead. *)
Lemma C8_counterexample :
  ~ (forall (step : WorkflowEngine.WorkflowStep) (ctx : Dict)
            (disp : WorkflowEngine.Disp nat) (c : string),
       WorkflowEngine.condition step = Some c -> c <> EmptyString ->
       WorkflowEngine.evaluate_condition Scenario.no_int Scenario.no_float
         Scenario.same_object c ctx = true ->
       Scenario.run_conditional step ctx disp = Scenario.run_task_step step ctx disp).
Proof.
  intros H.
  specialize (H Scenario.guarded_no_agent [("flag", VBool true)] Scenario.fresh_disp
                "{{flag}}" eq_refl).
  assert (Hne : "{{flag}}" <> EmptyString) by discriminate.
  specialize (H Hne eq_refl). vm_compute in H. discriminate.
Qed.

(** C8 (amended): a [Conditional] step whose condition is falsy returns
    [{'skipped': True, 'reason': 'condition_not_met'}] and leaves the
    dispatcher untouched, no call being made. With a truthy condition it
    runs the task step: the dispatcher sees the same calls, a returned
    result is passed on as it is, and an exception [e] of the task step is
    raised as a [RuntimeError] whose text wraps that of [e]. *)
Theorem C8_conditional_step
    (py_int : string -> option Z) (py_float : string -> option float)
    (py_eq : PyValue -> PyValue -> Res bool)
    (D : Type) (dispatch : D -> string -> Dict -> D * Res PyValue)
    (step : WorkflowEngine.WorkflowStep) (ctx : Dict)
    (disp : WorkflowEngine.Disp D) (c : string) :
  let cond := WorkflowEngine.execute_conditional_step py_int py_float py_eq D
                dispatch step ctx disp in
  let task := WorkflowEngine.execute_task_step D dispatch step ctx disp in
  WorkflowEngine.condition step = Some c -> c <> EmptyString ->
  (WorkflowEngine.evaluate_condition py_int py_float py_eq c ctx = false ->
     cond = (disp, Ok WorkflowEngine.skipped) /\
     WorkflowEngine.calls D (fst cond) = WorkflowEngine.calls D disp) /\
  (WorkflowEngine.evaluate_condition py_int py_float py_eq c ctx = true ->
     fst cond = fst task /\
     match snd task with
     | Ok v => snd cond = Ok v
     | Raise e =>
         snd cond = Raise (mkExc RuntimeError
           ("Failed to evaluate condition '" +:+ c +:+ "': " +:+ exc_str e))
     end).
Proof.
  intros cond task Hc Hne. split; intros Hev; subst cond task.
  - rewrite (conditional_falsy py_int py_float py_eq D dispatch step ctx disp c Hc Hne Hev).
    split; reflexivity.
  - rewrite (conditional_truthy py_int py_float py_eq D dispatch step ctx disp c Hc Hne Hev).
    destruct (WorkflowEngine.execute_task_step D dispatch step ctx disp)
      as [disp' [v|e]]; split; reflexivity.
Qed.

(** ["{{flag}}"] with [flag] bound to [False]. *)
Lemma C8_witness :
  Scenario.run_conditional Scenario.guarded [("flag", VBool false)] Scenario.fresh_disp
    = (Scenario.fresh_disp, Ok WorkflowEngine.skipped).
Proof.
  destruct (C8_conditional_step Scenario.no_int Scenario.no_float
              Scenario.same_object nat Scenario.counting_dispatch Scenario.guarded
              [("flag", VBool false)] Scenario.fresh_disp "{{flag}}")
    as [Hfalsy _].
  - reflexivity.
  - discriminate.
  - destruct Hfalsy as [H _]; [reflexivity|exact H].
Defined.

(** * Further properties of the modelled code *)

(** ** Message bus: subscriptions and delivery *)

Section SubscriptionFacts.
Import MessageBus.

(** Every subscriber of the list is called, once and in order, whether or
    not the callbacks before it raised. *)
Theorem run_callbacks_calls_all label subs message :
  called_ids (run_callbacks label subs message) = map fst subs.
Proof.
  unfold called_ids.
  induction subs as [|[sid cb] rest IH]; cbn; [reflexivity|].
  destruct (cb message); cbn; now rewrite IH.
Qed.

Lemma subscribers_getitem_spec topic bus :
  let '(bus1, l) := subscribers_getitem topic bus in
  subscribers bus1 !! topic = Some l /\
  message_queue bus1 = message_queue bus /\
  (forall t l', subscribers bus1 !! t = Some l' ->
     subscribers bus !! t = Some l' \/ l' = []).
Proof.
  unfold subscribers_getitem.
  destruct (subscribers bus !! topic) as [l|] eqn:E; cbn.
  - auto.
  - split; [apply lookup_insert_eq|]. split; [reflexivity|].
    intros t l' H. destruct (decide (topic = t)) as [->|Hne].
    + rewrite lookup_insert_eq in H. right. congruence.
    + rewrite lookup_insert_ne in H by exact Hne. now left.
Qed.

Lemma handle_broadcast_spec message bus :
  let '(bus1, events) := handle_broadcast message bus in
  message_queue bus1 = message_queue bus /\
  (forall t l', subscribers bus1 !! t = Some l' ->
     subscribers bus !! t = Some l' \/ l' = []) /\
  (forall sid m, In (Called sid m) events ->
     exists t l, subscribers bus !! t = Some l /\ In sid (map fst l)).
Proof.
  unfold handle_broadcast.
  pose proof (subscribers_getitem_spec ("broadcast." +:+ message_type message) bus) as H.
  destruct (subscribers_getitem _ bus) as [bus1 subs].
  destruct H as (Hl & Hq & Hsub). split; [exact Hq|]. split; [exact Hsub|].
  intros sid m Hin. destruct (run_callbacks_called _ _ _ _ _ Hin) as [_ Hs].
  destruct (Hsub _ _ Hl) as [Hold| ->]; [eauto|destruct Hs].
Qed.

Lemma handle_direct_message_spec message bus :
  let '(bus1, events) := handle_direct_message message bus in
  message_queue bus1 = message_queue bus /\
  (forall t l', subscribers bus1 !! t = Some l' ->
     subscribers bus !! t = Some l' \/ l' = []) /\
  (forall sid m, In (Called sid m) events ->
     exists t l, subscribers bus !! t = Some l /\ In sid (map fst l)).
Proof.
  unfold handle_direct_message.
  destruct (receiver message) as [r|]; [|apply handle_broadcast_spec].
  destruct (String.eqb r EmptyString); [apply handle_broadcast_spec|].
  pose proof (subscribers_getitem_spec ("agent." +:+ r) bus) as H.
  destruct (subscribers_getitem _ bus) as [bus1 subs].
  destruct H as (Hl & Hq & Hsub). split; [exact Hq|]. split; [exact Hsub|].
  intros sid m Hin. destruct (run_callbacks_called _ _ _ _ _ Hin) as [_ Hs].
  destruct (Hsub _ _ Hl) as [Hold| ->]; [eauto|destruct Hs].
Qed.

(** What a turn of the worker does to the subscriber table and whom it can
    call: topics are only ever added, empty, and a subscriber that is
    called was listed under some topic. *)
Lemma process_one_spec now bus :
  let '(bus1, events) := process_one now bus in
  (forall t l', subscribers bus1 !! t = Some l' ->
     subscribers bus !! t = Some l' \/ l' = []) /\
  (forall sid m, In (Called sid m) events ->
     exists t l, subscribers bus !! t = Some l /\ In sid (map fst l)).
Proof.
  unfold process_one.
  destruct (message_queue bus) as [|e rest]; [cbn; split; [auto|intros ? ? []]|].
  destruct (heappop (e :: rest)) as [q [[prio message]|err]].
  - destruct (is_expired now message); [cbn; split; [auto|intros ? ? []]|].
    set (bus2 := set_stats (set_queue bus q) _).
    destruct (String.eqb (message_type message) "broadcast").
    + pose proof (handle_broadcast_spec message bus2) as H.
      destruct (handle_broadcast message bus2) as [b ev].
      destruct H as (_ & H1 & H2). auto.
    + destruct (String.eqb (message_type message) "response").
      * split; [|intros ? ? []]. unfold handle_response.
        destruct (response_futures bus2 !! _); cbn; auto.
      * pose proof (handle_direct_message_spec message bus2) as H.
        destruct (handle_direct_message message bus2) as [b ev].
        destruct H as (_ & H1 & H2). auto.
  - cbn. split; [auto|]. intros sid m [H|[]]. discriminate.
Qed.

Lemma unsubscribed_step sid now bus :
  unsubscribed sid bus ->
  unsubscribed sid (fst (process_one now bus)) /\
  forall m, ~ In (Called sid m) (snd (process_one now bus)).
Proof.
  intros Hun. pose proof (process_one_spec now bus) as H.
  destruct (process_one now bus) as [bus1 events]. destruct H as [Hsub Hcall].
  cbn. split.
  - intros t l Hl. destruct (Hsub _ _ Hl) as [Hold| ->]; [now apply (Hun t)|].
    intros [].
  - intros m Hin. destruct (Hcall _ _ Hin) as (t & l & Hl & Hs).
    exact (Hun t l Hl Hs).
Qed.

(** Once a subscription id has been removed with [unsubscribe], no turn of
    the worker calls it again, whatever is queued and however long the
    worker runs. *)
Theorem unsubscribe_silences sid bus nows m :
  ~ In (Called sid m) (snd (process_messages nows (unsubscribe sid bus))).
Proof.
  assert (Hun : unsubscribed sid (unsubscribe sid bus)).
  { intros t l Hl. unfold unsubscribe in Hl. cbn in Hl.
    rewrite lookup_fmap in Hl.
    destruct (subscribers bus !! t) as [l0|]; [|discriminate].
    cbn in Hl. injection Hl as <-. rewrite in_map_iff.
    intros ([s cb] & Hs & Hin). cbn in Hs. subst s.
    apply filter_In in Hin. destruct Hin as [_ Hin]. cbn in Hin.
    now rewrite String.eqb_refl in Hin. }
  revert Hun. generalize (unsubscribe sid bus). clear bus.
  induction nows as [|t rest IH]; intros bus Hun; cbn; [tauto|].
  destruct (running bus); [|cbn; tauto].
  destruct (unsubscribed_step sid t bus Hun) as [Hun1 Hno].
  destruct (process_one t bus) as [bus1 ev1].
  specialize (IH bus1 Hun1).
  destruct (process_messages rest bus1) as [bus2 ev2]. cbn in *.
  intros Hin. apply in_app_or in Hin. destruct Hin as [Hin|Hin].
  - exact (Hno m Hin).
  - exact (IH Hin).
Qed.

Lemma run_callbacks_In label subs message sid :
  In sid (map fst subs) -> In (Called sid message) (run_callbacks label subs message).
Proof.
  induction subs as [|[s cb] rest IH]; cbn; [tauto|].
  intros [->|H]; [now left|]. right.
  destruct (cb message); [right|]; auto.
Qed.

(** A callback subscribed to ["agent." + r] is called with every direct
    message for [r] that the worker dequeues before it expires. *)
Theorem subscribe_then_delivered cb_id callback bus r now q prio m :
  let '(bus1, sid) := subscribe ("agent." +:+ r) cb_id callback bus in
  message_queue bus1 <> [] ->
  heappop (message_queue bus1) = (q, Ok (prio, m)) ->
  is_expired now m = false ->
  message_type m <> "broadcast" -> message_type m <> "response" ->
  receiver m = Some r -> r <> EmptyString ->
  In (Called sid m) (snd (process_one now bus1)).
Proof.
  unfold subscribe.
  pose proof (subscribers_getitem_spec ("agent." +:+ r) bus) as Hg.
  destruct (subscribers_getitem ("agent." +:+ r) bus) as [bus0 l0].
  destruct Hg as (_ & Hq0 & _).
  set (sid := "agent." +:+ r +:+ "_" +:+ pretty cb_id).
  set (bus1 := set_subscribers_count _).
  intros Hne Hpop Hfresh Hb Hr Hrcv Hrne.
  unfold process_one.
  destruct (message_queue bus1) as [|e rest] eqn:Eq; [congruence|].
  rewrite Hpop, Hfresh.
  apply String.eqb_neq in Hb, Hr, Hrne. rewrite Hb, Hr.
  unfold handle_direct_message. rewrite Hrcv, Hrne.
  unfold subscribers_getitem. cbn [subscribers set_stats set_queue].
  subst bus1. cbn [subscribers set_subscribers_count set_stats set_subscribers].
  rewrite lookup_insert_eq. cbn [snd].
  apply run_callbacks_In. rewrite map_app. apply in_or_app. right. now left.
Qed.

(** A response resolves the pending future under its correlation id and
    forgets the id: a second, late response with the same id changes
    nothing, and a future that is already done keeps its result. *)
Theorem handle_response_once message bus :
  response_futures (handle_response message bus) !! correlation_id message = None /\
  handle_response message (handle_response message bus) = handle_response message bus /\
  (forall fut v, futures bus !! fut = Some (Some v) ->
     futures (handle_response message bus) !! fut = Some (Some v)).
Proof.
  unfold handle_response at 1 3 4 5.
  destruct (response_futures bus !! correlation_id message) as [f|] eqn:E.
  - split; [cbn; apply lookup_delete_eq|]. split.
    + unfold handle_response. cbn. now rewrite lookup_delete_eq.
    + intros fut v Hv. cbn.
      destruct (futures bus !! f) as [[w|]|] eqn:Ef; try exact Hv.
      * rewrite lookup_insert_ne; [exact Hv|congruence].
      * rewrite lookup_insert_ne; [exact Hv|congruence].
  - split; [exact E|]. split; [|auto].
    unfold handle_response. now rewrite E.
Qed.

End SubscriptionFacts.

(** ** Message bus: the queue *)

Section QueueFacts.
Import MessageBus.

Lemma swap_length heap i j : length (swap heap i j) = length heap.
Proof.
  unfold swap. destruct (heap !! i), (heap !! j); try reflexivity.
  now rewrite !length_insert.
Qed.

Lemma swap_lookup (heap : list Entry) i j (x y : Entry) k :
  heap !! i = Some x -> heap !! j = Some y ->
  swap heap i j !! k =
    if decide (k = i) then Some y
    else if decide (k = j) then Some x else heap !! k.
Proof.
  intros Hi Hj. unfold swap. rewrite Hi, Hj.
  assert (Hli : (i < length heap)%nat) by (eapply lookup_lt_Some; eauto).
  assert (Hlj : (j < length heap)%nat) by (eapply lookup_lt_Some; eauto).
  destruct (decide (k = i)) as [->|Hki].
  - apply list_lookup_insert_eq. now rewrite length_insert.
  - rewrite list_lookup_insert_ne by congruence.
    destruct (decide (k = j)) as [->|Hkj].
    + now apply list_lookup_insert_eq.
    + apply list_lookup_insert_ne. congruence.
Qed.

Lemma swap_elem_of (heap : list Entry) i j (x y e : Entry) :
  heap !! i = Some x -> heap !! j = Some y ->
  e ∈ swap heap i j <-> e ∈ heap.
Proof.
  intros Hi Hj. rewrite !list_elem_of_lookup. split; intros [k Hk].
  - rewrite (swap_lookup _ _ _ _ _ _ Hi Hj) in Hk.
    destruct (decide (k = i)); [exists j; congruence|].
    destruct (decide (k = j)); [exists i; congruence|eauto].
  - destruct (decide (k = i)) as [->|Hki].
    + exists j. rewrite (swap_lookup _ _ _ _ _ _ Hi Hj).
      destruct (decide (j = i)); [congruence|].
      destruct (decide (j = j)); congruence.
    + destruct (decide (k = j)) as [->|Hkj].
      * exists i. rewrite (swap_lookup _ _ _ _ _ _ Hi Hj).
        destruct (decide (i = i)); congruence.
      * exists k. rewrite (swap_lookup _ _ _ _ _ _ Hi Hj).
        destruct (decide (k = i)); [congruence|].
        destruct (decide (k = j)); congruence.
Qed.

Lemma siftdown_S fuel heap startpos pos :
  siftdown (S fuel) heap startpos pos =
    if Nat.ltb startpos pos then
      match heap !! pos, heap !! ((pos - 1) / 2)%nat with
      | Some newitem, Some parent =>
          match entry_lt newitem parent with
          | Raise e => (heap, Raise e)
          | Ok false => (heap, Ok tt)
          | Ok true =>
              siftdown fuel (swap heap ((pos - 1) / 2) pos) startpos
                       ((pos - 1) / 2)%nat
          end
      | _, _ => (heap, Raise (mkExc IndexError "index out of range"))
      end
    else (heap, Ok tt).
Proof. reflexivity. Qed.

Lemma siftup_loop_S fuel heap startpos pos :
  siftup_loop (S fuel) heap startpos pos =
    if Nat.ltb pos (length heap / 2)%nat then
      let childpos := (2 * pos + 1)%nat in
      let pick : Res nat :=
        if Nat.ltb (childpos + 1)%nat (length heap) then
          match heap !! childpos, heap !! (childpos + 1)%nat with
          | Some a, Some b =>
              match entry_lt a b with
              | Raise e => Raise e
              | Ok true => Ok childpos
              | Ok false => Ok (childpos + 1)%nat
              end
          | _, _ => Raise (mkExc IndexError "index out of range")
          end
        else Ok childpos in
      match pick with
      | Raise e => (heap, Raise e)
      | Ok c => siftup_loop fuel (swap heap c pos) startpos c
      end
    else siftdown (S pos) heap startpos pos.
Proof. reflexivity. Qed.

(** Sifting never changes the number of entries, also when it raises. *)
Lemma siftdown_length fuel : forall heap startpos pos,
  length (fst (siftdown fuel heap startpos pos)) = length heap.
Proof.
  induction fuel as [|fuel IH]; intros heap startpos pos; [reflexivity|].
  rewrite siftdown_S.
  destruct (Nat.ltb startpos pos); [|reflexivity].
  destruct (heap !! pos) as [newitem|]; [|reflexivity].
  destruct (heap !! ((pos - 1) / 2)%nat) as [parent|]; [|reflexivity].
  destruct (entry_lt newitem parent) as [[|]|]; try reflexivity.
  rewrite IH. apply swap_length.
Qed.

Lemma siftup_loop_length fuel : forall heap startpos pos,
  length (fst (siftup_loop fuel heap startpos pos)) = length heap.
Proof.
  induction fuel as [|fuel IH]; intros heap startpos pos;
    [apply siftdown_length|].
  rewrite siftup_loop_S. cbv zeta.
  destruct (Nat.ltb pos (length heap / 2)); [|apply siftdown_length].
  destruct (Nat.ltb (2 * pos + 1 + 1) (length heap)).
  - destruct (heap !! (2 * pos + 1)%nat) as [a|]; [|reflexivity].
    destruct (heap !! (2 * pos + 1 + 1)%nat) as [b|]; [|reflexivity].
    destruct (entry_lt a b) as [[|]|]; try reflexivity;
      rewrite IH; apply swap_length.
  - rewrite IH. apply swap_length.
Qed.

Lemma length_removelast_pred {A} (l : list A) :
  length (removelast l) = pred (length l).
Proof. rewrite removelast_firstn_len, length_take. lia. Qed.

Lemma heappop_length heap :
  length (fst (heappop heap)) = pred (length heap).
Proof.
  unfold heappop. destruct (last heap) as [lastelt|] eqn:El.
  - destruct (removelast heap) as [|returnitem tl] eqn:Er.
    + cbn. apply (f_equal (@length _)) in Er.
      rewrite length_removelast_pred in Er. cbn in Er. lia.
    + pose proof (siftup_loop_length (length (<[0%nat:=lastelt]> (returnitem :: tl)))
                    (<[0%nat:=lastelt]> (returnitem :: tl)) 0 0) as Hl.
      unfold siftup.
      destruct (siftup_loop _ _ 0 0) as [heap2 r]. cbn in Hl.
      apply (f_equal (@length _)) in Er. rewrite length_removelast_pred in Er.
      cbn in Er. destruct r; cbn; lia.
  - apply last_None in El. now subst.
Qed.

(** Every turn of the worker takes exactly one entry off a non-empty
    queue, also when the removal raises and nothing is delivered. *)
Theorem process_one_takes_one now bus :
  length (message_queue (fst (process_one now bus))) =
  pred (length (message_queue bus)).
Proof.
  unfold process_one.
  destruct (message_queue bus) as [|e rest] eqn:Eq; [cbn; now rewrite Eq|].
  pose proof (heappop_length (e :: rest)) as Hl.
  destruct (heappop (e :: rest)) as [q [[prio message]|err]]; cbn [fst] in Hl.
  - destruct (is_expired now message); [exact Hl|].
    set (bus2 := set_stats (set_queue bus q) _).
    assert (Hq2 : message_queue bus2 = q) by reflexivity.
    destruct (String.eqb (message_type message) "broadcast").
    + pose proof (handle_broadcast_spec message bus2) as H.
      destruct (handle_broadcast message bus2) as [b ev].
      destruct H as (H & _). cbn. now rewrite H, Hq2.
    + destruct (String.eqb (message_type message) "response").
      * cbn. unfold handle_response.
        destruct (response_futures bus2 !! _); cbn; exact Hl.
      * pose proof (handle_direct_message_spec message bus2) as H.
        destruct (handle_direct_message message bus2) as [b ev].
        destruct H as (H & _). cbn. now rewrite H, Hq2.
  - exact Hl.
Qed.

(** Sifting an entry whose priority differs from that of every other entry
    never raises and keeps the entries. *)
Lemma siftdown_fresh fuel : forall (heap : list Entry) pos (newitem : Entry),
  heap !! pos = Some newitem ->
  (forall k (e : Entry), k <> pos -> heap !! k = Some e -> fst e <> fst newitem) ->
  snd (siftdown fuel heap 0 pos) = Ok tt /\
  forall e, e ∈ fst (siftdown fuel heap 0 pos) <-> e ∈ heap.
Proof.
  induction fuel as [|fuel IH]; intros heap pos newitem Hpos Hothers.
  - cbn. tauto.
  - rewrite siftdown_S. destruct (Nat.ltb 0 pos) eqn:Elt; [|cbn; tauto].
    apply Nat.ltb_lt in Elt. rewrite Hpos.
    assert (Hpp : ((pos - 1) / 2 < pos)%nat).
    { apply Nat.Div0.div_lt_upper_bound. lia. }
    assert (Hlen : (pos < length heap)%nat) by (eapply lookup_lt_Some; eauto).
    destruct (lookup_lt_is_Some_2 heap ((pos - 1) / 2)%nat) as [parent Hparent];
      [lia|].
    rewrite Hparent.
    assert (Hne : fst parent <> fst newitem).
    { apply (Hothers ((pos - 1) / 2)%nat); [lia|exact Hparent]. }
    unfold entry_lt.
    destruct (Z.eqb (fst newitem) (fst parent)) eqn:Eeq;
      [apply Z.eqb_eq in Eeq; congruence|].
    destruct (Z.ltb (fst newitem) (fst parent)); [|cbn; tauto].
    destruct (IH (swap heap ((pos - 1) / 2) pos) ((pos - 1) / 2)%nat newitem)
      as (Hrun & Hmem).
    + rewrite (swap_lookup _ _ _ _ _ _ Hparent Hpos).
      destruct (decide (_ = _)); congruence.
    + intros k e Hk He.
      rewrite (swap_lookup _ _ _ _ _ _ Hparent Hpos) in He.
      destruct (decide (k = ((pos - 1) / 2)%nat)); [congruence|].
      destruct (decide (k = pos)) as [->|Hkp]; [congruence|].
      now apply (Hothers k).
    + split; [exact Hrun|].
      intros e. rewrite Hmem. apply (swap_elem_of _ _ _ _ _ _ Hparent Hpos).
Qed.

(** A message that is not expired and whose priority differs from that of
    every queued entry is always accepted: [publish] returns, counts it as
    sent, and the queue holds one more entry, the new one together with all
    the old ones. *)
Theorem publish_new_priority now m bus :
  is_expired now m = false ->
  (forall e, e ∈ message_queue bus -> fst e <> - priority m) ->
  let '(bus', r) := publish now m bus in
  r = Ok tt /\
  messages_sent (stats bus') = messages_sent (stats bus) + 1 /\
  length (message_queue bus') = S (length (message_queue bus)) /\
  forall e, e ∈ message_queue bus' <->
            e = (- priority m, m) \/ e ∈ message_queue bus.
Proof.
  intros Hfresh Hprio. unfold publish. rewrite Hfresh. unfold heappush.
  set (q := message_queue bus) in *. set (item := (- priority m, m) : Entry).
  assert (Hlast : (q ++ [item]) !! (length (q ++ [item]) - 1)%nat = Some item).
  { rewrite length_app. cbn. replace (length q + 1 - 1)%nat with (length q) by lia.
    rewrite lookup_app_r by lia. now rewrite Nat.sub_diag. }
  assert (Hothers : forall k (e : Entry), k <> (length (q ++ [item]) - 1)%nat ->
            (q ++ [item]) !! k = Some e -> fst e <> fst item).
  { intros k e Hk He. rewrite length_app in Hk. cbn in Hk.
    assert (Hkq : (k < length q)%nat).
    { apply lookup_lt_Some in He. rewrite length_app in He. cbn in He. lia. }
    rewrite lookup_app_l in He by exact Hkq.
    apply (Hprio e). apply list_elem_of_lookup. eauto. }
  match goal with
  | |- context [siftdown ?f ?h ?s ?p] =>
      pose proof (siftdown_length f h s p) as Hlen;
      destruct (siftdown_fresh f h p item Hlast Hothers) as (Hrun & Hmem);
      destruct (siftdown f h s p) as [heap' r]
  end.
  cbn [fst snd] in Hlen, Hrun, Hmem. subst r. cbn.
  split; [reflexivity|]. split; [reflexivity|]. split.
  - rewrite Hlen, length_app. cbn. lia.
  - intros e. rewrite Hmem, elem_of_app, list_elem_of_singleton. tauto.
Qed.

End QueueFacts.

(** ** Messages and envelopes *)

(** A [Message] built without a correlation id, or with an empty one,
    cannot be constructed: as soon as the payload has passed its truth
    test, the constructor raises [AttributeError], whatever the other
    arguments. *)
Theorem Message_init_needs_correlation_id oid now mtype sndr rcv pl prio cid :
  cid = None \/ cid = Some EmptyString ->
  is_ok (match pl with Some v => py_bool v | None => Ok false end) = true ->
  raises_type (MessageBus.Message_init oid now mtype sndr rcv pl cid prio)
              (OtherException "AttributeError").
Proof.
  intros Hcid Hpl. unfold MessageBus.Message_init.
  destruct pl as [v|]; [destruct (py_bool v) as [[|]|]; [| |discriminate]|];
    destruct Hcid as [-> | ->]; reflexivity.
Qed.

Lemma Message_init_needs_correlation_id_witness :
  raises_type (MessageBus.Message_init 1 0 "request" "a" (Some "b") None None 1)
              (OtherException "AttributeError").
Proof.
  apply Message_init_needs_correlation_id; [left; reflexivity|reflexivity].
Defined.

(** An agent message with a non-empty correlation id survives the trip
    through the bus format: [from_message(to_message(am))] is [am] again,
    and the message in between is fresh, with the default time to live. *)
Theorem AgentMessage_round_trip (am : AgentCommunication.AgentMessage) oid now :
  AgentCommunication.correlation_id am <> EmptyString ->
  exists m,
    AgentCommunication.to_message am oid now = Ok m /\
    AgentCommunication.from_message m = Ok am /\
    MessageBus.ttl m = 300 /\ MessageBus.timestamp m = now /\
    MessageBus.is_expired now m = false.
Proof.
  intros Hcid. unfold AgentCommunication.to_message, MessageBus.Message_init.
  cbn [py_bool]. apply String.eqb_neq in Hcid. rewrite Hcid.
  eexists. split; [reflexivity|]. split.
  - unfold AgentCommunication.from_message. cbn. now destruct am.
  - split; [reflexivity|]. split; [reflexivity|].
    unfold MessageBus.is_expired. cbn. apply Z.ltb_ge. lia.
Qed.

Lemma AgentMessage_round_trip_witness :
  exists m,
    AgentCommunication.to_message Scenario.sample_offer 5 100 = Ok m /\
    AgentCommunication.from_message m = Ok Scenario.sample_offer.
Proof.
  destruct (AgentMessage_round_trip Scenario.sample_offer 5 100)
    as (m & H1 & H2 & _); [discriminate|].
  exists m. split; [exact H1|exact H2].
Defined.

(** ** Idempotency guard: the journal *)

Section JournalFacts.
Import WorkflowSafety.

Variable Ext : Type.
Variable memory_read : Ext -> string -> string -> Ext * option StepExecution.
Variable memory_write : Ext -> string -> string -> StepExecution -> Ext.
Variable limiter_acquire : Ext -> string -> string -> Dict -> Ext.
Variable content_address : Dict -> string.
Variable randint_seeded : Z -> Z.

Abbreviation guard_body :=
  (execute_step_body Ext memory_read memory_write limiter_acquire
     content_address randint_seeded).

Lemma find_key_None (l : list StepExecution) k :
  List.find (fun e => String.eqb (dedupe_key e) k) l = None ->
  ~ In k (map dedupe_key l).
Proof.
  induction l as [|e l IH]; cbn; [tauto|].
  destruct (String.eqb (dedupe_key e) k) eqn:E; [discriminate|].
  intros H [Heq|Hin]; [|exact (IH H Hin)].
  apply String.eqb_neq in E. congruence.
Qed.

(** The journal is append-only and never holds two records with the same
    dedupe key: a call leaves the old records in place, adds at most one,
    and keeps the keys pairwise distinct. *)
Theorem journal_append_only st ext sid ins key token now :
  let '(st1, _, r) := guard_body st ext sid ins key token now in
  (exists added, journal st1 = journal st ++ added /\
                 length added = (if fst r then 0 else 1)%nat /\
                 Forall (fun e => dedupe_key e = key_used content_address ins key) added) /\
  (List.NoDup (map dedupe_key (journal st)) ->
   List.NoDup (map dedupe_key (journal st1))).
Proof.
  unfold execute_step_body. fold (key_used content_address ins key).
  unfold find_step.
  destruct (List.find _ (journal st)) as [e|] eqn:Ej.
  - cbn. split; [exists []; rewrite app_nil_r; auto|auto].
  - destruct (memory_read ext _ _) as [ext1 [e|]]; cbn.
    + split; [exists []; rewrite app_nil_r; auto|auto].
    + split.
      * eexists. split; [reflexivity|]. split; [reflexivity|].
        repeat constructor.
      * intros Hnd. rewrite map_app. cbn.
        apply NoDup_ListNoDup, NoDup_app. apply NoDup_ListNoDup in Hnd.
        split; [exact Hnd|]. split; [|apply NoDup_singleton].
        intros x Hx Hx'. apply list_elem_of_singleton in Hx'. subst x.
        apply list_elem_of_In in Hx. exact (find_key_None _ _ Ej Hx).
Qed.

(** A key that is already in the journal is replayed from the earliest
    record that has it: the outputs of that record come back, nothing is
    executed, and neither the guard nor the collaborators change; the step
    id and the inputs of the call play no part when the key is given. *)
Theorem replay_from_journal st ext sid ins key token now e :
  List.find (fun x => String.eqb (dedupe_key x) (key_used content_address ins key)) (journal st)
    = Some e ->
  guard_body st ext sid ins key token now = (st, ext, (true, outputs e)).
Proof.
  intros Hf. unfold execute_step_body. fold (key_used content_address ins key).
  unfold find_step. now rewrite Hf.
Qed.

(** A first execution leaves no pending entry behind: with a fresh job
    token the outbox is afterwards what it was before. *)
Theorem outbox_cleared st ext sid ins key token now :
  get_outbox st !! token = None ->
  get_outbox (fst (fst (execute_step_body Ext memory_read memory_write
                          limiter_acquire content_address randint_seeded
                          st ext sid ins key token now)))
  = get_outbox st.
Proof.
  unfold get_outbox. intros Hfresh. unfold execute_step_body. fold (key_used content_address ins key).
  destruct (find_step _ _ st ext _) as [ext1 [e|]]; cbn; [reflexivity|].
  rewrite delete_insert_eq. now apply delete_id.
Qed.

End JournalFacts.

Lemma replay_from_journal_witness :
  Scenario.run_guard Scenario.guard_after_one tt "other"
    [("b", VInt 2)] (Some "a;") "token-2" 20
  = (Scenario.guard_after_one, tt,
     (true, [("result", VInt 8); ("processed_at", VStr "t0")])).
Proof.
  apply (replay_from_journal unit Scenario.empty_read Scenario.drop_write
           Scenario.free_acquire Scenario.keys_digest Scenario.fixed_randint
           Scenario.guard_after_one tt "other" [("b", VInt 2)] (Some "a;")
           "token-2" 20
           (WorkflowSafety.mkStepExecution "s1" "a;" [("a", VInt 1)]
              [("result", VInt 8); ("processed_at", VStr "t0")] 10 "success"
              "token-1")).
  reflexivity.
Defined.

Lemma outbox_cleared_witness :
  WorkflowSafety.outbox
    (fst (fst (Scenario.run_guard (WorkflowSafety.new_safety "wf" 7 "t0") tt
                 "s1" [("a", VInt 1)] None "token-1" 10))) = ∅.
Proof.
  apply (outbox_cleared unit Scenario.empty_read Scenario.drop_write
           Scenario.free_acquire Scenario.keys_digest Scenario.fixed_randint
           (WorkflowSafety.new_safety "wf" 7 "t0")).
  apply lookup_empty.
Defined.

(** [replay_journal] never fails: it returns the records from the given
    index on, an index at or past the end giving none, and a negative
    index [-k] giving the last [k] records (all of them when [k] exceeds
    the length); no index and index 0 both give the whole journal. *)
Theorem replay_journal_suffix (st : WorkflowSafety.Safety) (from_step : option Z) :
  let n := Z.of_nat (length (WorkflowSafety.journal st)) in
  let start := match from_step with Some k => k | None => 0 end in
  exists skipped,
    WorkflowSafety.journal st = skipped ++ WorkflowSafety.replay_journal st from_step /\
    Z.of_nat (length skipped) =
      (if Z.ltb start 0 then Z.max (n + start) 0 else Z.min start n).
Proof.
  intros n start. unfold WorkflowSafety.replay_journal. fold start. fold n.
  set (i := if Z.ltb start 0 then Z.max (n + start) 0 else Z.min start n).
  exists (take (Z.to_nat i) (WorkflowSafety.journal st)).
  split; [now rewrite take_drop|].
  rewrite length_take. subst i n. destruct (Z.ltb start 0) eqn:E.
  - apply Z.ltb_lt in E. lia.
  - apply Z.ltb_ge in E. lia.
Qed.

(** ** Orchestrator: the registry *)

Section RegistryFacts.
Import Orchestrator.

Variable Mem : Type.
Variable store_experience : Mem -> EpisodicMemory.Experience -> Res Mem.
Variable add_item : Mem -> Dict -> string -> list string -> Res Mem.
Variable send_task_request : string -> Dict -> Res PyValue.
Variable py_str : PyValue -> string.
Variable add_triple : Mem -> string -> string -> string -> Res Mem.

Abbreviation dispatch_task :=
  (execute_task Mem store_experience add_item send_task_request py_str).
Abbreviation register := (register_agent Mem add_triple).

(** Registering a new name stores the agent as idle before the knowledge
    graph is written: the record is there whether or not the call raises
    (it raises exactly when a triple cannot be added), and any further
    registration of the name is refused with [ValueError], changing neither
    the registry nor the bus. *)
Theorem register_agent_once (o : State Mem) bus agent role caps meta now cb_id
    handler role' caps' meta' now' cb_id' handler' :
  agents Mem o !! agent = None ->
  let '(o1, bus1, r1) := register o bus agent role caps meta now cb_id handler in
  agents Mem o1 !! agent =
    Some (mkAgentInfo agent role caps IDLE now
            (match meta with Some d => d | None => [] end)) /\
  (forall other, other <> agent -> agents Mem o1 !! other = agents Mem o !! other) /\
  register o1 bus1 agent role' caps' meta' now' cb_id' handler' =
    (o1, bus1, Raise (mkExc ValueError
                        ("Agent '" +:+ agent +:+ "' already registered"))).
Proof.
  intros Hnew. unfold register_agent at 1. rewrite Hnew.
  destruct (MessageBus.subscribe _ cb_id handler bus) as [bus1 sid].
  set (info := mkAgentInfo agent role caps IDLE now _).
  assert (Hreg : forall m, agents Mem
            (set_memory Mem (mkState Mem (<[agent:=info]> (agents Mem o))
               (collaborations Mem o) (stats Mem o) (memory Mem o)) m) !! agent
            = Some info) by (intros m; cbn; apply lookup_insert_eq).
  assert (Hoth : forall other, other <> agent ->
            (<[agent:=info]> (agents Mem o)) !! other = agents Mem o !! other)
    by (intros other Hne; apply lookup_insert_ne; congruence).
  cbn [memory].
  destruct (add_triple (memory Mem o) agent "is_a" role) as [m1|e].
  - destruct (add_capabilities Mem add_triple m1 agent caps) as [m2 [u|e]];
      (split; [apply Hreg|]; split; [exact Hoth|]);
      unfold register_agent; now rewrite Hreg.
  - split; [cbn; apply lookup_insert_eq|]. split; [exact Hoth|].
    unfold register_agent. cbn [agents]. now rewrite lookup_insert_eq.
Qed.

(** [unregister_agent] forgets the agent but leaves its subscription on the
    bus: after register, unregister, register the topic of the agent holds
    both handlers, the old one first, so each message for the agent is
    handed to both. An unknown name is left alone. *)
Theorem unregister_keeps_subscription (o : State Mem) bus agent role caps meta
    now cb_id handler cb_id' handler' :
  agents Mem o !! agent = None ->
  let '(o1, bus1, _) := register o bus agent role caps meta now cb_id handler in
  let o2 := unregister_agent Mem o1 agent in
  let '(o3, bus2, _) := register o2 bus1 agent role caps meta now cb_id' handler' in
  agents Mem o2 !! agent = None /\
  unregister_agent Mem o2 agent = o2 /\
  exists l,
    MessageBus.subscribers bus2 !! ("agent." +:+ agent) =
      Some (l ++ [("agent." +:+ agent +:+ "_" +:+ pretty cb_id, handler);
                  ("agent." +:+ agent +:+ "_" +:+ pretty cb_id', handler')]).
Proof.
  intros Hnew.
  unfold register_agent at 1. rewrite Hnew.
  unfold MessageBus.subscribe at 1.
  destruct (MessageBus.subscribers_getitem ("agent." +:+ agent) bus) as [b0 l0].
  set (bus1 := MessageBus.set_subscribers_count _) in *.
  assert (Hb1 : MessageBus.subscribers bus1 !! ("agent." +:+ agent) =
                Some (l0 ++ [("agent." +:+ agent +:+ "_" +:+ pretty cb_id, handler)])).
  { subst bus1. cbn. apply lookup_insert_eq. }
  set (info := mkAgentInfo agent role caps IDLE now _) in *.
  assert (Hmain : forall m,
    let o1 := set_memory Mem (mkState Mem (<[agent:=info]> (agents Mem o))
                (collaborations Mem o) (stats Mem o) (memory Mem o)) m in
    let o2 := unregister_agent Mem o1 agent in
    let '(o3, bus2, _) := register o2 bus1 agent role caps meta now cb_id' handler' in
    agents Mem o2 !! agent = None /\ unregister_agent Mem o2 agent = o2 /\
    exists l, MessageBus.subscribers bus2 !! ("agent." +:+ agent) =
      Some (l ++ [("agent." +:+ agent +:+ "_" +:+ pretty cb_id, handler);
                  ("agent." +:+ agent +:+ "_" +:+ pretty cb_id', handler')])).
  { intros m o1 o2.
    assert (Ho2 : agents Mem o2 !! agent = None).
    { subst o2 o1. unfold unregister_agent. cbn.
      rewrite lookup_insert_eq. cbn. apply lookup_delete_eq. }
    unfold register_agent. rewrite Ho2.
    unfold MessageBus.subscribe, MessageBus.subscribers_getitem. rewrite Hb1.
    set (bus2 := MessageBus.set_subscribers_count _).
    assert (Hb2 : exists l, MessageBus.subscribers bus2 !! ("agent." +:+ agent) =
      Some (l ++ [("agent." +:+ agent +:+ "_" +:+ pretty cb_id, handler);
                  ("agent." +:+ agent +:+ "_" +:+ pretty cb_id', handler')])).
    { exists l0. subst bus2. cbn. rewrite lookup_insert_eq, <- app_assoc.
      reflexivity. }
    assert (Hun : unregister_agent Mem o2 agent = o2)
      by (unfold unregister_agent; now rewrite Ho2).
    destruct (add_triple _ agent "is_a" role) as [m1|e]; [|auto].
    destruct (add_capabilities Mem add_triple m1 agent caps) as [m2 [u|e]]; auto. }
  cbn [memory].
  destruct (add_triple (memory Mem o) agent "is_a" role) as [m1|e].
  - destruct (add_capabilities Mem add_triple m1 agent caps) as [m2 [u|e]];
      apply Hmain.
  - apply (Hmain (memory Mem o)).
Qed.

(** An agent serves at most one task: once [execute_task] has reached the
    agent (it was registered and idle), the agent is left in [ERROR],
    whatever the task request did, and every later [execute_task] on it is
    refused with [RuntimeError] without touching the orchestrator. *)
Theorem agent_serves_once (o : State Mem) agent info task elapsed task' elapsed' :
  agents Mem o !! agent = Some info ->
  agent_status info = IDLE ->
  let o1 := fst (dispatch_task o agent task elapsed) in
  agent_status <$> (agents Mem o1 !! agent) = Some ERROR /\
  dispatch_task o1 agent task' elapsed' =
    (o1, Raise (mkExc RuntimeError ("Agent '" +:+ agent +:+ "' is not available"))).
Proof.
  intros Hreg Hidle. cbv zeta.
  assert (H : agent_status <$>
                (agents Mem (fst (dispatch_task o agent task elapsed)) !! agent)
              = Some ERROR).
  { destruct (send_task_request agent task) as [result|e] eqn:Es.
    - pose proof (execute_task_completed Mem store_experience add_item
                    send_task_request py_str o agent info task elapsed result
                    Hreg Hidle Es) as Hc.
      destruct (dispatch_task o agent task elapsed) as [o' r]. apply Hc.
    - pose proof (execute_task_failed Mem store_experience add_item
                    send_task_request py_str o agent info task elapsed e
                    Hreg Hidle Es) as Hc.
      destruct (dispatch_task o agent task elapsed) as [o' r]. apply Hc. }
  split; [exact H|].
  destruct (agents Mem (fst (dispatch_task o agent task elapsed)) !! agent)
    as [info1|] eqn:E1; [|discriminate].
  cbn in H. injection H as H.
  apply (execute_task_not_idle Mem store_experience add_item send_task_request
           py_str _ agent info1 task' elapsed' E1). congruence.
Qed.

(** After [unregister_agent] the name is unknown again: its status is
    [None] and a task for it is refused with [ValueError]; the other agents
    are as before. *)
Theorem unregister_agent_forgets (o : State Mem) agent task elapsed :
  let o1 := unregister_agent Mem o agent in
  get_agent_status Mem o1 agent = None /\
  dispatch_task o1 agent task elapsed =
    (o1, Raise (mkExc ValueError ("Agent '" +:+ agent +:+ "' not registered"))) /\
  (forall other, other <> agent ->
     agents Mem o1 !! other = agents Mem o !! other).
Proof.
  cbv zeta.
  assert (H : agents Mem (unregister_agent Mem o agent) !! agent = None).
  { unfold unregister_agent. destruct (agents Mem o !! agent) eqn:E; [|exact E].
    cbn. apply lookup_delete_eq. }
  split; [unfold get_agent_status; now rewrite H|]. split.
  - now apply execute_task_not_registered.
  - intros other Hne. unfold unregister_agent.
    destruct (agents Mem o !! agent); [|reflexivity].
    cbn. apply lookup_delete_ne. congruence.
Qed.

(** Collaboration ids come from the clock in milliseconds: two
    collaborations started within the same millisecond share one id, the
    second session replaces the first in the table, and both are counted. *)
Theorem start_collaboration_same_millisecond
    (offer_collaboration : string -> string -> Dict -> Res PyValue)
    (o : State Mem) ini parts ctype ctx ini' parts' ctype' ctx' now_ms now now' :
  let o1 := fst (start_collaboration Mem offer_collaboration o ini parts ctype
                   ctx now_ms now) in
  let o2 := fst (start_collaboration Mem offer_collaboration o1 ini' parts'
                   ctype' ctx' now_ms now') in
  collaborations Mem o2 =
    <["collab_" +:+ pretty now_ms :=
        AgentCommunication.CollaborationContext_init
          ("collab_" +:+ pretty now_ms) ini' (ini' :: parts') ctype' ctx' now']>
      (collaborations Mem o) /\
  total_collaborations (stats Mem o2) = total_collaborations (stats Mem o) + 2 /\
  active_collaborations (stats Mem o2) = active_collaborations (stats Mem o) + 2.
Proof.
  cbv zeta. unfold start_collaboration.
  destruct (notify_participants Mem offer_collaboration _ parts ctype ctx);
    cbn [fst];
    destruct (notify_participants Mem offer_collaboration _ parts' ctype' ctx');
    cbn; (split; [apply insert_insert_eq|split; lia]).
Qed.

End RegistryFacts.

Lemma register_agent_once_witness :
  let '(o1, bus1, r1) :=
    Orchestrator.register_agent unit Scenario.accept_triple
      (Orchestrator.mkState unit ∅ ∅ (Orchestrator.mkStats 0 0 0 0 0) tt)
      MessageBus.new_bus "writer" "author" ["write"] None 0 1
      Scenario.quiet_callback in
  Orchestrator.agents unit o1 !! "writer" = Some Scenario.writer_info.
Proof.
  pose proof (register_agent_once unit Scenario.accept_triple
                (Orchestrator.mkState unit ∅ ∅ (Orchestrator.mkStats 0 0 0 0 0) tt)
                MessageBus.new_bus "writer" "author" ["write"] None 0 1
                Scenario.quiet_callback "author" ["write"] None 0 1
                Scenario.quiet_callback (lookup_empty _)) as H.
  destruct (Orchestrator.register_agent _ _ _ _ _ _ _ _ _ _ _) as [[o1 bus1] r1].
  exact (proj1 H).
Defined.

Lemma unregister_keeps_subscription_witness :
  let '(o1, bus1, _) :=
    Orchestrator.register_agent unit Scenario.accept_triple
      (Orchestrator.mkState unit ∅ ∅ (Orchestrator.mkStats 0 0 0 0 0) tt)
      MessageBus.new_bus "writer" "author" ["write"] None 0 1
      Scenario.quiet_callback in
  Orchestrator.agents unit (Orchestrator.unregister_agent unit o1 "writer")
    !! "writer" = None.
Proof.
  pose proof (unregister_keeps_subscription unit Scenario.accept_triple
                (Orchestrator.mkState unit ∅ ∅ (Orchestrator.mkStats 0 0 0 0 0) tt)
                MessageBus.new_bus "writer" "author" ["write"] None 0 1
                Scenario.quiet_callback 2 Scenario.quiet_callback
                (lookup_empty _)) as H.
  destruct (Orchestrator.register_agent _ _ _ _ _ _ _ _ _ _ _) as [[o1 bus1] r1].
  cbv zeta in H.
  destruct (Orchestrator.register_agent unit Scenario.accept_triple
              (Orchestrator.unregister_agent unit o1 "writer") bus1 "writer"
              "author" ["write"] None 0 2 Scenario.quiet_callback)
    as [[o3 bus2] r3].
  exact (proj1 H).
Defined.

Lemma agent_serves_once_witness :
  Scenario.run_task (fst (Scenario.run_task Scenario.one_writer "writer"
                            [("action", VStr "noop")] VNone))
    "writer" [("action", VStr "noop")] VNone
  = (fst (Scenario.run_task Scenario.one_writer "writer"
            [("action", VStr "noop")] VNone),
     Raise (mkExc RuntimeError "Agent 'writer' is not available")).
Proof.
  apply (agent_serves_once unit Scenario.accept_experience Scenario.accept_item
           Scenario.answer_received Scenario.show Scenario.one_writer "writer"
           Scenario.writer_info [("action", VStr "noop")] VNone
           [("action", VStr "noop")] VNone).
  - apply lookup_singleton_eq.
  - reflexivity.
Defined.

(** ** Workflow engine: steps and runs *)

Section RunFacts.
Import WorkflowEngine.

Variable py_int : string -> option Z.
Variable py_float : string -> option float.
Variable py_eq : PyValue -> PyValue -> Res bool.
Variable D : Type.
Variable dispatch : D -> string -> Dict -> D * Res PyValue.

Abbreviation step_run := (execute_step py_int py_float py_eq D dispatch).
Abbreviation steps_run := (run_steps py_int py_float py_eq D dispatch).
Abbreviation loop_run := (execute_loop_step D dispatch).


Lemma loop_items_spec step ctx loop_var l : forall i (disp : Disp D),
  length (snd (loop_items D dispatch step ctx loop_var l i disp)) = length l /\
  (forall d a, orchestrator D disp = Some d -> agent step = Some a ->
     a <> EmptyString ->
     is_Some (orchestrator D (fst (loop_items D dispatch step ctx loop_var l i disp))) /\
     calls D (fst (loop_items D dispatch step ctx loop_var l i disp)) =
       calls D disp ++
       imap (fun k item =>
               (a, task_of step (loop_context ctx loop_var (i + Z.of_nat k) item))) l).
Proof.
  induction l as [|item rest IH]; intros i disp.
  - cbn. split; [reflexivity|]. intros d a Hd _ _.
    rewrite app_nil_r. split; [rewrite Hd; eauto|reflexivity].
  - cbn [loop_items].
    destruct (execute_task_step D dispatch step _ disp) as [disp1 r] eqn:Et.
    specialize (IH (i + 1) disp1).
    destruct (loop_items D dispatch step ctx loop_var rest (i + 1) disp1)
      as [disp2 slots]. cbn [fst snd] in *.
    destruct IH as [IHlen IHcalls]. split; [cbn; now rewrite IHlen|].
    intros d a Hd Ha Hne. unfold execute_task_step in Et.
    rewrite Hd, Ha in Et. apply String.eqb_neq in Hne. rewrite Hne in Et.
    destruct (dispatch d a _) as [d' r'] eqn:Ed. injection Et as <- <-.
    destruct (IHcalls d' a eq_refl Ha) as [Ho Hc];
      [now apply String.eqb_neq|].
    split; [exact Ho|]. rewrite Hc. cbn [calls imap].
    rewrite <- app_assoc. cbn. f_equal. f_equal.
    + unfold task_of, loop_context. now rewrite Z.add_0_r.
    + apply imap_ext. intros k x _. cbn.
      replace (i + 1 + Z.of_nat k) with (i + Z.of_nat (S k)) by lia. reflexivity.
Qed.

(** A [Loop] step over a literal list never raises and returns a list with
    one slot per item. With a dispatcher and an agent it sends exactly one
    task per item, in order, each with the parameters resolved in the
    context of its iteration (the loop variable bound to the item,
    [loop_index] to its position), whatever the earlier iterations did. *)
Theorem loop_over_list step cfg l ctx (disp : Disp D) :
  loop_config step = Some cfg -> items cfg = Some (VList l) ->
  let loop_var := match variable cfg with Some v => v | None => "item" end in
  exists disp' slots,
    loop_run step ctx disp = (disp', Ok (VList slots)) /\
    length slots = length l /\
    (forall d a, orchestrator D disp = Some d -> agent step = Some a ->
       a <> EmptyString ->
       calls D disp' = calls D disp ++
         imap (fun k item =>
                 (a, task_of step (loop_context ctx loop_var (Z.of_nat k) item))) l).
Proof.
  intros Hcfg Hitems loop_var. unfold execute_loop_step.
  rewrite Hcfg, Hitems. cbn [iterate]. fold loop_var.
  pose proof (loop_items_spec step ctx loop_var l 0 disp) as [Hlen Hcalls].
  destruct (loop_items D dispatch step ctx loop_var l 0 disp) as [disp' slots].
  exists disp', slots. cbn [fst snd] in *. split; [reflexivity|].
  split; [exact Hlen|]. intros d a Hd Ha Hne.
  destruct (Hcalls d a Hd Ha Hne) as [_ Hc]. rewrite Hc. f_equal.
Qed.

(** Steps run strictly in order and a failure is final: running a list of
    steps followed by more steps is running the list and, if it did not
    raise, the rest from the context, the execution record and the
    dispatcher that it left; once a step has raised, the steps after it
    have no effect at all. *)
Theorem run_steps_app l rest ctx e (disp : Disp D) :
  steps_run (l ++ rest) ctx e disp =
    match steps_run l ctx e disp with
    | (e1, disp1, Ok ctx1) => steps_run rest ctx1 e1 disp1
    | (e1, disp1, Raise err) => (e1, disp1, Raise err)
    end.
Proof.
  revert ctx e disp. induction l as [|s l IH]; intros ctx e disp.
  - reflexivity.
  - cbn [app run_steps].
    destruct (step_run s ctx disp) as [disp1 [v|err]]; [apply IH|reflexivity].
Qed.

(** The result of a step reaches the next one: after a step named [n] has
    returned [v], a parameter ["{{" + n + "_result}}"] of the following
    step resolves to [v]. *)
Theorem step_result_reaches_next s1 s2 rest ctx e (disp disp1 : Disp D) v x :
  step_run s1 ctx disp = (disp1, Ok v) ->
  PyStr.strip (name s1 +:+ "_result") = name s1 +:+ "_result" ->
  List.NoDup (dict_keys (parameters s2)) ->
  dict_get (parameters s2) x = Some (VStr ("{{" +:+ (name s1 +:+ "_result") +:+ "}}")) ->
  let ctx1 := dict_set ctx (name s1 +:+ "_result") v in
  steps_run (s1 :: s2 :: rest) ctx e disp =
    steps_run (s2 :: rest) ctx1
      (set_progress e (Some (name s1)) (dict_set (results e) (name s1) v) (errors e))
      disp1 /\
  dict_get (resolve_parameters (parameters s2) ctx1) x = Some v.
Proof.
  intros Hrun Hstrip Hnd Hx ctx1. split.
  - cbn [run_steps]. now rewrite Hrun.
  - rewrite resolve_parameters_get, Hx by exact Hnd. cbn [option_map].
    unfold resolve_value.
    destruct (template_form (name s1 +:+ "_result")) as [Ht Hs].
    rewrite Ht, Hs, Hstrip. subst ctx1. now rewrite dict_get_set_eq.
Qed.

Lemma fold_dict_set_keys (f : PyValue -> PyValue) (params : Dict) :
  forall acc, List.NoDup (dict_keys acc ++ dict_keys params) ->
  dict_keys (fold_left (fun resolved kv => dict_set resolved (fst kv) (f (snd kv)))
                       params acc) = dict_keys acc ++ dict_keys params.
Proof.
  induction params as [|[k v] rest IH]; intros acc Hnd; cbn.
  - now rewrite app_nil_r.
  - cbn in Hnd.
    assert (Hnew : ~ In k (dict_keys acc)).
    { intros H. apply (List.NoDup_remove_2 _ _ _ Hnd). apply in_or_app. now left. }
    rewrite IH; rewrite (dict_keys_set_new _ _ _ Hnew), <- app_assoc;
      [reflexivity|exact Hnd].
Qed.

(** Resolving parameters keeps the keys, in order, and changes only the
    values that are strings of the form ["{{...}}"] or ["${...}"]: every
    other value is passed on as it is. *)
Theorem resolve_parameters_keeps params ctx :
  List.NoDup (dict_keys params) ->
  dict_keys (resolve_parameters params ctx) = dict_keys params /\
  (forall k v, dict_get params k = Some v ->
     (forall t, v = VStr t -> is_template t = false /\ is_path t = false) ->
     dict_get (resolve_parameters params ctx) k = Some v).
Proof.
  intros Hnd. split.
  - unfold resolve_parameters.
    exact (fold_dict_set_keys (fun v => resolve_value v ctx) params [] Hnd).
  - intros k v Hk Hplain. rewrite resolve_parameters_get, Hk by exact Hnd.
    cbn. f_equal. destruct v; try reflexivity.
    destruct (Hplain s eq_refl) as [Ht Hp]. cbn. now rewrite Ht, Hp.
Qed.

(** A condition that starts with ["{{"] and ends with ["}}"] is always read
    as one variable name, also when it is meant as a comparison of two
    templates: ["{{a}} == {{b}}"] looks up the name ["a}} == {{b"], so it
    is false unless the context has that very key, however [a] and [b] are
    bound. *)
Theorem template_comparison_is_lookup a b ctx :
  dict_get ctx (PyStr.strip (a +:+ "}} == {{" +:+ b)) = None ->
  evaluate_condition py_int py_float py_eq
    ("{{" +:+ a +:+ "}} == {{" +:+ b +:+ "}}") ctx = false.
Proof.
  intros Hmiss. unfold evaluate_condition, evaluate_condition_try.
  replace ("{{" +:+ a +:+ "}} == {{" +:+ b +:+ "}}")
    with ("{{" +:+ (a +:+ "}} == {{" +:+ b) +:+ "}}")
    by (now rewrite !append_assoc).
  destruct (template_form (a +:+ "}} == {{" +:+ b)) as [Ht Hs].
  rewrite Ht, Hs. unfold context_get. now rewrite Hmiss.
Qed.

(** [execute_workflow] on a registered name never raises: it answers a
    dict whose [success] entry tells whether every step returned, the
    execution ends [COMPLETED] or [FAILED] with its end time set, and the
    id is no longer active afterwards, so that it cannot be cancelled. *)
Theorem execute_workflow_cleans_up (eng : Engine) wname config input wid t0 t1
    (disp : Disp D) now :
  workflow_definitions eng !! wname = Some config ->
  let '(eng', disp', ex, r) :=
    execute_workflow py_int py_float py_eq D dispatch eng wname input wid t0 t1 disp in
  exists final answer,
    ex = Some final /\ r = Ok (VDict answer) /\
    end_time final = Some t1 /\
    (status final = COMPLETED /\ dict_get answer "success" = Some (VBool true) \/
     status final = FAILED /\ dict_get answer "success" = Some (VBool false) /\
     errors final <> []) /\
    get_workflow_status eng' wid = None /\
    cancel_workflow eng' wid now = (eng', false) /\
    workflow_definitions eng' = workflow_definitions eng.
Proof.
  intros Hdef. unfold execute_workflow. rewrite Hdef.
  destruct (execute_workflow_sync _ _ _ _ _ _ input disp) as [[e1 disp1] [v|err]];
    eexists; eexists; (split; [reflexivity|]); (split; [reflexivity|]);
    (split; [reflexivity|]); (split; [|split; [|split]]);
    try reflexivity;
    try (unfold get_workflow_status; cbn; apply lookup_delete_eq);
    try (unfold cancel_workflow; cbn; now rewrite lookup_delete_eq).
  - left. split; reflexivity.
  - right. split; [reflexivity|]. split; [reflexivity|].
    cbn. intros H. now apply app_eq_nil in H as [_ H].
Qed.

End RunFacts.

(** ** Instances *)

Lemma subscribe_then_delivered_witness :
  let '(bus1, sid) :=
    MessageBus.subscribe "agent.writer" 9 Scenario.quiet_callback
      (MessageBus.set_queue MessageBus.new_bus [(-5, Scenario.urgent)]) in
  In (MessageBus.Called sid Scenario.urgent) (snd (MessageBus.process_one 1 bus1)).
Proof.
  pose proof (subscribe_then_delivered 9 Scenario.quiet_callback
                (MessageBus.set_queue MessageBus.new_bus [(-5, Scenario.urgent)])
                "writer" 1 [] (-5) Scenario.urgent) as H.
  change ("agent." +:+ "writer") with "agent.writer" in H.
  destruct (MessageBus.subscribe "agent.writer" 9 Scenario.quiet_callback _)
    as [bus1 sid] eqn:E.
  vm_compute in E. injection E as <- <-.
  apply H; [discriminate|reflexivity|reflexivity|discriminate|discriminate
           |reflexivity|discriminate].
Defined.

Lemma publish_new_priority_witness :
  let '(bus', r) :=
    MessageBus.publish 0 Scenario.urgent Scenario.bus_holding_short_lived in
  r = Ok tt /\ length (MessageBus.message_queue bus') = 2%nat.
Proof.
  pose proof (publish_new_priority 0 Scenario.urgent
                Scenario.bus_holding_short_lived) as H.
  destruct (MessageBus.publish 0 Scenario.urgent Scenario.bus_holding_short_lived)
    as [bus' r].
  destruct H as (Hr & _ & Hlen & _).
  - reflexivity.
  - intros e He. apply list_elem_of_singleton in He. subst e. discriminate.
  - split; [exact Hr|exact Hlen].
Defined.


Lemma loop_over_list_witness :
  exists disp' slots,
    WorkflowEngine.execute_loop_step nat Scenario.counting_dispatch
      Scenario.each_item [] Scenario.fresh_disp = (disp', Ok (VList slots)) /\
    length slots = 3%nat.
Proof.
  destruct (loop_over_list nat Scenario.counting_dispatch Scenario.each_item
              (WorkflowEngine.mkLoopConfig None
                 (Some (VList [VInt 1; VInt 2; VInt 3])))
              [VInt 1; VInt 2; VInt 3] [] Scenario.fresh_disp eq_refl eq_refl)
    as (disp' & slots & Hrun & Hlen & _).
  exists disp', slots. split; [exact Hrun|exact Hlen].
Defined.

Lemma step_result_reaches_next_witness :
  dict_get
    (WorkflowEngine.resolve_parameters [("x", VStr "{{task1_result}}")]
       (dict_set [] "task1_result" (VInt 0))) "x" = Some (VInt 0).
Proof.
  refine (proj2 (step_result_reaches_next Scenario.no_int Scenario.no_float
           Scenario.same_object nat Scenario.counting_dispatch
           (Scenario.task_step "task1" "writer")
           (WorkflowEngine.mkStep "task2" WorkflowEngine.TASK (Some "writer")
              (Some "noop") [("x", VStr "{{task1_result}}")] [] None [] None)
           [] []
           (WorkflowEngine.mkExecution "wf" [] WorkflowEngine.RUNNING None None
              None [] [] [])
           Scenario.fresh_disp
           (WorkflowEngine.mkDisp nat (Some 1%nat)
              [("writer", [("action", VStr "noop"); ("parameters", VDict []);
                           ("context", VDict [])])])
           (VInt 0) "x" _ _ _ _)).
  - reflexivity.
  - reflexivity.
  - repeat constructor. intros [].
  - reflexivity.
Defined.

Lemma resolve_parameters_keeps_witness :
  dict_keys (WorkflowEngine.resolve_parameters
               [("n", VInt 3); ("s", VStr "plain"); ("t", VStr "{{n}}")]
               [("n", VInt 4)]) = ["n"; "s"; "t"].
Proof.
  apply (resolve_parameters_keeps
           [("n", VInt 3); ("s", VStr "plain"); ("t", VStr "{{n}}")]
           [("n", VInt 4)]).
  repeat constructor; cbn; intuition discriminate.
Defined.

Lemma template_comparison_is_lookup_witness :
  WorkflowEngine.evaluate_condition Scenario.no_int Scenario.no_float
    Scenario.same_object "{{a}} == {{b}}" [("a", VInt 1); ("b", VInt 1)] = false.
Proof.
  apply (template_comparison_is_lookup Scenario.no_int Scenario.no_float
           Scenario.same_object "a" "b" [("a", VInt 1); ("b", VInt 1)]).
  reflexivity.
Defined.

Lemma execute_workflow_cleans_up_witness :
  let '(eng', disp', ex, r) :=
    WorkflowEngine.execute_workflow Scenario.no_int Scenario.no_float
      Scenario.same_object nat Scenario.counting_dispatch
      Scenario.engine_with_chain "chain" [] "chain_1" 10 20 Scenario.fresh_disp in
  WorkflowEngine.get_workflow_status eng' "chain_1" = None.
Proof.
  pose proof (execute_workflow_cleans_up Scenario.no_int Scenario.no_float
                Scenario.same_object nat Scenario.counting_dispatch
                Scenario.engine_with_chain "chain" Scenario.chained [] "chain_1"
                10 20 Scenario.fresh_disp 30) as H.
  destruct (WorkflowEngine.execute_workflow _ _ _ _ _ _ _ _ _ _ _ _)
    as [[[eng' disp'] ex] r].
  destruct H as (final & answer & _ & _ & _ & _ & Hs & _).
  - apply lookup_insert_eq.
  - exact Hs.
Defined.

Lemma add_participant_NoDup_witness :
  List.NoDup (AgentCommunication.participants
    (AgentCommunication.add_participant
       (AgentCommunication.CollaborationContext_init "c" "a" ["a"; "b"]
          "planning" [] 0) "b")).
Proof.
  apply add_participant_NoDup. repeat constructor; cbn; intuition discriminate.
Defined.

(** ** Message bus: priority order *)

From Stdlib Require Import ZifyNat.

Section HeapOrderFacts.
Import MessageBus.

(** Linear arithmetic with the parent index [(i - 1) / 2]. *)
Ltac dlia := zify; Z.to_euclidean_division_equations; lia.

Lemma entry_lt_distinct (a b : Entry) :
  fst a <> fst b -> entry_lt a b = Ok (Z.ltb (fst a) (fst b)).
Proof.
  intros H. unfold entry_lt.
  destruct (Z.eqb (fst a) (fst b)) eqn:E; [apply Z.eqb_eq in E; congruence|].
  reflexivity.
Qed.

Lemma swap_distinct (heap : list Entry) i j (x y : Entry) :
  heap !! i = Some x -> heap !! j = Some y ->
  distinct_priorities heap -> distinct_priorities (swap heap i j).
Proof.
  intros Hi Hj Hd k1 k2 a b Hne Ha Hb.
  rewrite (swap_lookup _ _ _ _ _ _ Hi Hj) in Ha.
  rewrite (swap_lookup _ _ _ _ _ _ Hi Hj) in Hb.
  destruct (decide (k1 = i)), (decide (k1 = j)), (decide (k2 = i)),
    (decide (k2 = j)); simplify_eq;
    (eapply Hd; cycle 1; [eassumption|eassumption|congruence]).
Qed.

Lemma siftdown_ordered fuel : forall (heap : list Entry) pos,
  (pos < fuel)%nat -> (pos < length heap)%nat ->
  distinct_priorities heap -> almost_ordered heap pos ->
  snd (siftdown fuel heap 0 pos) = Ok tt /\
  heap_ordered (fst (siftdown fuel heap 0 pos)) /\
  distinct_priorities (fst (siftdown fuel heap 0 pos)) /\
  forall e, e ∈ fst (siftdown fuel heap 0 pos) <-> e ∈ heap.
Proof.
  induction fuel as [|fuel IH]; intros heap pos Hfuel Hlen Hd [Hord Hgp]; [dlia|].
  rewrite siftdown_S. destruct (Nat.ltb 0 pos) eqn:Elt.
  - apply Nat.ltb_lt in Elt.
    destruct (lookup_lt_is_Some_2 heap pos Hlen) as [newitem Hpos].
    assert (Hpp : ((pos - 1) / 2 < pos)%nat) by dlia.
    destruct (lookup_lt_is_Some_2 heap ((pos - 1) / 2)%nat) as [parent Hparent];
      [dlia|].
    rewrite Hpos, Hparent.
    assert (Hne : fst newitem <> fst parent).
    { apply (Hd pos ((pos - 1) / 2)%nat); [dlia|assumption..]. }
    rewrite (entry_lt_distinct _ _ Hne).
    destruct (Z.ltb (fst newitem) (fst parent)) eqn:Ecmp.
    + apply Z.ltb_lt in Ecmp.
      assert (Hsw := swap_lookup heap ((pos - 1) / 2)%nat pos parent newitem).
      destruct (IH (swap heap ((pos - 1) / 2) pos) ((pos - 1) / 2)%nat)
        as (R1 & R2 & R3 & R4);
        [| | | |split; [exact R1|]; split; [exact R2|]; split; [exact R3|];
               intros x; rewrite R4;
               apply (swap_elem_of _ _ _ _ _ _ Hparent Hpos)].
      * dlia.
      * rewrite swap_length. dlia.
      * eapply swap_distinct; eauto.
      * split.
        -- intros i e p Hi Hip He Hp.
           rewrite Hsw in He, Hp by assumption.
           destruct (decide (i = ((pos - 1) / 2)%nat)); [congruence|].
           destruct (decide (i = pos)) as [->|Hipos].
           ++ destruct (decide (_ = _)); [|congruence]. congruence.
           ++ destruct (decide (((i - 1) / 2)%nat = ((pos - 1) / 2)%nat)) as [Eq|Nq].
              ** injection Hp as <-.
                 assert (fst parent < fst e); [|dlia].
                 apply (Hord i e parent Hi Hipos He). now rewrite Eq.
              ** destruct (decide (((i - 1) / 2)%nat = pos)) as [Eq2|Nq2].
                 --- injection Hp as <-.
                     apply (Hgp i e parent Elt Hi Eq2 He Hparent).
                 --- apply (Hord i e p Hi Hipos He Hp).
        -- intros c e g Hpp0 Hc Hcp He Hg.
           rewrite Hsw in He, Hg by assumption.
           destruct (decide (c = ((pos - 1) / 2)%nat)); [dlia|].
           destruct (decide (((pos - 1) / 2 - 1) / 2 = (pos - 1) / 2)%nat); [dlia|].
           destruct (decide (((pos - 1) / 2 - 1) / 2 = pos)%nat); [dlia|].
           assert (Hgpar : fst g < fst parent).
           { apply (Hord ((pos - 1) / 2)%nat parent g); [dlia|dlia|assumption..]. }
           destruct (decide (c = pos)) as [->|Hcpos].
           ++ injection He as <-. exact Hgpar.
           ++ assert (fst parent < fst e); [|dlia].
              apply (Hord c e parent Hc Hcpos He). now rewrite Hcp.
    + apply Z.ltb_ge in Ecmp. cbn. split; [reflexivity|].
      split; [|split; [exact Hd|tauto]].
      intros i e p Hi He Hp. destruct (decide (i = pos)) as [->|Hipos].
      * assert (e = newitem) by congruence. assert (p = parent) by congruence.
        subst. dlia.
      * apply (Hord i e p Hi Hipos He Hp).
  - apply Nat.ltb_ge in Elt. cbn. split; [reflexivity|].
    split; [|split; [exact Hd|tauto]].
    intros i e p Hi He Hp. apply (Hord i e p Hi); [dlia|assumption..].
Qed.





(** Publishing a message of a new priority keeps the queue an ordered heap
    of pairwise distinct priorities. *)
Theorem publish_keeps_order now m bus :
  is_expired now m = false ->
  heap_ordered (message_queue bus) -> distinct_priorities (message_queue bus) ->
  (forall e, e ∈ message_queue bus -> fst e <> - priority m) ->
  snd (publish now m bus) = Ok tt /\
  heap_ordered (message_queue (fst (publish now m bus))) /\
  distinct_priorities (message_queue (fst (publish now m bus))).
Proof.
  intros Hfresh Hord Hd Hprio. unfold publish. rewrite Hfresh. unfold heappush.
  set (q := message_queue bus) in *. set (item := (- priority m, m) : Entry).
  assert (Hlook : forall k (e : Entry), (q ++ [item]) !! k = Some e ->
            (k < length q)%nat /\ q !! k = Some e \/ k = length q /\ e = item).
  { intros k e He. destruct (decide (k < length q)%nat) as [Hk|Hk].
    - left. split; [exact Hk|]. now rewrite lookup_app_l in He.
    - right. assert (Hkl : (k < length (q ++ [item]))%nat)
        by (eapply lookup_lt_Some; eauto).
      rewrite length_app in Hkl. cbn in Hkl.
      assert (k = length q) by lia. subst k. split; [reflexivity|].
      rewrite lookup_app_r in He by lia. rewrite Nat.sub_diag in He.
      cbn in He. congruence. }
  assert (Hd1 : distinct_priorities (q ++ [item])).
  { intros i j a b Hij Ha Hb.
    destruct (Hlook _ _ Ha) as [[Hi Ha']|[-> ->]],
             (Hlook _ _ Hb) as [[Hj Hb']|[-> ->]].
    - apply (Hd i j); assumption.
    - apply (Hprio a). apply list_elem_of_lookup. eauto.
    - intros Heq. apply (Hprio b); [apply list_elem_of_lookup; eauto|].
      now rewrite <- Heq.
    - congruence. }
  assert (Hal : almost_ordered (q ++ [item]) (length (q ++ [item]) - 1)).
  { rewrite length_app. cbn. replace (length q + 1 - 1)%nat with (length q) by lia.
    split.
    - intros i e p Hi Hin He Hp.
      destruct (Hlook _ _ He) as [[Hil He']|[-> _]]; [|congruence].
      destruct (Hlook _ _ Hp) as [[Hpl Hp']|[Hpe _]]; [|dlia].
      apply (Hord i e p); assumption.
    - intros c e g _ Hc Hcp He _. apply lookup_lt_Some in He.
      rewrite length_app in He. cbn in He. dlia. }
  match goal with
  | |- context [siftdown ?f ?h ?s ?p] =>
      destruct (siftdown_ordered f h p) as (R1 & R2 & R3 & _);
        [rewrite length_app; cbn; lia | rewrite length_app; cbn; lia
        | exact Hd1 | exact Hal | ];
      destruct (siftdown f h s p) as [heap' r]
  end.
  cbn [fst snd] in *. subst r. cbn. auto.
Qed.


End HeapOrderFacts.

Lemma singleton_heap_ordered (e : MessageBus.Entry) :
  MessageBus.heap_ordered [e] /\ MessageBus.distinct_priorities [e].
Proof.
  split.
  - intros [|i] x p Hi Hx Hp; [lia|discriminate].
  - intros [|i] [|j] a b Hij Ha Hb; try discriminate. congruence.
Qed.

Lemma publish_keeps_order_witness :
  snd (MessageBus.publish 0 Scenario.urgent Scenario.bus_holding_short_lived) = Ok tt.
Proof.
  apply (publish_keeps_order 0 Scenario.urgent Scenario.bus_holding_short_lived).
  - reflexivity.
  - apply singleton_heap_ordered.
  - apply singleton_heap_ordered.
  - intros e He. apply list_elem_of_singleton in He. subst e. discriminate.
Defined.


(** ** Rate limiter *)

Section LimiterFacts.

Import RateLimiter.

Lemma cell_get_set cells m c m' :
  cell_get (cell_set cells m c) m' =
  if String.eqb m' m then Some c else cell_get cells m'.
Proof.
  induction cells as [|[k c'] rest IH]; simpl.
  - destruct (String.eqb m' m); reflexivity.
  - destruct (String.eqb m k) eqn:E; simpl.
    + apply String.eqb_eq in E. subst k.
      destruct (String.eqb m' m); reflexivity.
    + rewrite IH. destruct (String.eqb m' k) eqn:E1; [|reflexivity].
      destruct (String.eqb m' m) eqn:E2; [|reflexivity].
      apply String.eqb_eq in E1, E2. subst. rewrite String.eqb_refl in E.
      discriminate.
Qed.

Lemma cells_of_floats lim entity metric c :
  only_floats lim -> cell_get (cells_of lim entity) metric = Some c -> c = CFloat.
Proof.
  intros H. unfold cells_of. destruct (usage lim !! entity) as [cells|] eqn:E.
  - intros Hg. exact (H _ _ _ _ E Hg).
  - discriminate.
Qed.

Lemma only_floats_usage lim lim' :
  usage lim' = usage lim -> only_floats lim -> only_floats lim'.
Proof. intros E H e cells m c Hl. rewrite E in Hl. exact (H e cells m c Hl). Qed.

Lemma set_cell_floats lim entity metric :
  only_floats lim -> only_floats (set_cell lim entity metric CFloat).
Proof.
  intros H e cells m c Hl Hg. simpl in Hl.
  destruct (decide (e = entity)) as [->|Hne].
  - rewrite lookup_insert_eq in Hl. injection Hl as <-.
    rewrite cell_get_set in Hg. destruct (String.eqb m metric).
    + congruence.
    + exact (cells_of_floats _ _ _ _ H Hg).
  - rewrite lookup_insert_ne in Hl by congruence. exact (H _ _ _ _ Hl Hg).
Qed.

Lemma limit_of_limited quota metric :
  metric = "tokens" \/ metric = "cpu" \/ metric = "outbound" ->
  limit_of quota metric <> None.
Proof. intros [-> | [-> | ->]]; discriminate. Qed.

(** On a limiter whose cells are all floats, the loop over the cost ends
    at the first metric that has a limit. *)
Lemma charge_floats lim entity quota now cost :
  only_floats lim ->
  only_floats (fst (charge lim entity quota now cost)) /\
  (snd (charge lim entity quota now cost) = Ok None \/
   raises_type (snd (charge lim entity quota now cost))
               (OtherException "AttributeError")) /\
  (names_limited_metric cost ->
   raises_type (snd (charge lim entity quota now cost))
               (OtherException "AttributeError")).
Proof.
  intros H. induction cost as [|[metric value] rest IH]; simpl.
  - split; [exact H|]. split; [now left|].
    intros (m & v & [] & _).
  - destruct (limit_of quota metric) as [limit|] eqn:El.
    + assert (Hc : cell_get (cells_of lim entity) metric = None \/
                   cell_get (cells_of lim entity) metric = Some CFloat).
      { destruct (cell_get (cells_of lim entity) metric) as [c|] eqn:Ec;
          [right|now left].
        now rewrite (cells_of_floats _ _ _ _ H Ec). }
      destruct Hc as [Hc|Hc]; rewrite Hc; simpl;
        (split; [now apply set_cell_floats|split; [now right|reflexivity]]).
    + destruct IH as (IH1 & IH2 & IH3). split; [exact IH1|]. split; [exact IH2|].
      intros (m & v & [Heq|Hin] & Hm).
      * injection Heq as -> ->. now apply limit_of_limited in El.
      * apply IH3. now exists m, v.
Qed.

Lemma total_usage_floats cells :
  (forall metric c, cell_get cells metric = Some c -> c = CFloat) ->
  cells = [] \/ raises_type (total_usage cells) TypeError.
Proof.
  destruct cells as [|[k c] rest]; [now left|].
  intros H. right. specialize (H k c). simpl in H. rewrite String.eqb_refl in H.
  rewrite (H eq_refl). reflexivity.
Qed.

Lemma acquire_floats lim entity cost now :
  only_floats lim -> only_floats (fst (acquire lim entity cost now)).
Proof.
  intros H. unfold acquire.
  set (c := match cost with Some c => c | None => _ end).
  set (quota := match quotas lim !! entity with Some q => q | None => _ end).
  set (window := trim _ now).
  set (lim1 := mkLimiter _ _ (usage lim) (alerts lim)).
  assert (H1 : only_floats lim1) by (now apply (only_floats_usage lim)).
  destruct (Z.leb (rps quota) (Z.of_nat (length window))); [exact H1|].
  destruct (charge_floats lim1 entity quota now c H1) as (Hf & _ & _).
  destruct (charge lim1 entity quota now c) as [lim2 [[refusal|]|e]];
    simpl in Hf; try exact Hf.
  assert (H3 : only_floats
                 (mkLimiter (quotas lim2) (windows lim2)
                    (<[entity := cells_of lim2 entity]> (usage lim2))
                    (alerts lim2))).
  { intros e cells m c0 Hl Hg. simpl in Hl.
    destruct (decide (e = entity)) as [->|Hne].
    - rewrite lookup_insert_eq in Hl. injection Hl as <-.
      exact (cells_of_floats _ _ _ _ Hf Hg).
    - rewrite lookup_insert_ne in Hl by congruence. exact (Hf _ _ _ _ Hl Hg). }
  destruct (total_usage (cells_of lim2 entity)) as [total|e]; [|exact H3].
  destruct (Z.ltb (budget_alert_threshold quota) total); [|exact H3].
  revert H3. apply only_floats_usage. reflexivity.
Qed.

(** No limiter that can be met holds anything but floats in its cells:
    the dict that [acquire] would store is never stored. *)
Lemma reachable_only_floats lim : reachable lim -> only_floats lim.
Proof.
  induction 1 as [|lim entity quota _ IH|lim entity cost now _ IH].
  - intros e cells m c Hl. simpl in Hl. rewrite lookup_empty in Hl. discriminate.
  - revert IH. apply only_floats_usage. reflexivity.
  - now apply acquire_floats.
Qed.

Lemma acquire_outcome lim entity cost now :
  only_floats lim ->
  (forall c, cost = Some c -> names_limited_metric c) ->
  (exists current limit,
     snd (acquire lim entity cost now)
       = Ok (false, Some (RpsExceeded current limit))) \/
  raises_type (snd (acquire lim entity cost now))
              (OtherException "AttributeError").
Proof.
  intros H Hcost. unfold acquire.
  set (c := match cost with Some c => c | None => _ end).
  assert (Hc : names_limited_metric c).
  { subst c. destruct cost as [c|]; [now apply Hcost|].
    exists "tokens", 0. split; [now left|now left]. }
  clearbody c.
  set (quota := match quotas lim !! entity with Some q => q | None => _ end).
  set (window := trim _ now).
  set (lim1 := mkLimiter _ _ (usage lim) (alerts lim)).
  assert (H1 : only_floats lim1) by (now apply (only_floats_usage lim)).
  destruct (Z.leb (rps quota) (Z.of_nat (length window))).
  - left. now eexists _, _.
  - right. destruct (charge_floats lim1 entity quota now c H1) as (_ & _ & Hr).
    specialize (Hr Hc).
    destruct (charge lim1 entity quota now c) as [lim2 [r|e]]; simpl in Hr;
      [contradiction|exact Hr].
Qed.

(** Through [set_quota] and [acquire] alone, [acquire] never grants
    a request whose cost names [tokens], [cpu] or [outbound] (the default
    cost names all three): the call answers that the request rate is
    exceeded, or it raises [AttributeError], because the usage cell it
    reads is the float of [defaultdict(float)], which has no [get]. *)
Theorem acquire_never_grants lim entity cost now :
  reachable lim ->
  (forall c, cost = Some c -> names_limited_metric c) ->
  (exists current limit,
     snd (acquire lim entity cost now)
       = Ok (false, Some (RpsExceeded current limit))) \/
  raises_type (snd (acquire lim entity cost now))
              (OtherException "AttributeError").
Proof.
  intros Hr. apply acquire_outcome. now apply reachable_only_floats.
Qed.

End LimiterFacts.

(** ** The guard over the module-level objects *)

Section WiredFacts.

Import WorkflowSafety Wired.

Variable start_span : string -> Manager.
Variable set_attribute : Res unit.
Variable record_success : Res unit.
Variable Store : Type.
Variable read_block : Store -> string -> string -> Store * Res (Flow PyValue).
Variable write_block :
  Store * RateLimiter.Limiter -> string -> string -> StepExecution ->
  Store * RateLimiter.Limiter * Res (Flow PyValue).
Variable from_persisted : PyValue -> Res StepExecution.
Variable content_address : Dict -> string.
Variable randint_seeded : Z -> Z.
Variable str_len : Dict -> Z.

(** [instrument_memory_operation] has no value to give to a [with]. *)
Lemma instrument_gives_none target :
  instrument_memory_operation start_span set_attribute = Ok target -> target = WNone.
Proof.
  unfold instrument_memory_operation.
  destruct (snd (py_with _ _ _)); [|discriminate]. congruence.
Qed.

(** [MemoryStore.read] never returns and never reaches its block. *)
Lemma read_raises store ns key :
  exists e, read start_span set_attribute Store read_block store ns key
            = (store, Raise e).
Proof.
  unfold read.
  destruct (instrument_memory_operation start_span set_attribute) as [t|e] eqn:E.
  - apply instrument_gives_none in E. subst t. now eexists.
  - now eexists.
Qed.

(** [_simulate_step] never runs with the limiter's consent: on a
    limiter that can be met, the call of [limiter.acquire] raises
    [AttributeError], or the step is simulated although the limiter's
    answer, which is dropped, was that the request rate is exceeded. *)
Theorem simulate_step_without_consent st lim sid ins clock :
  RateLimiter.reachable lim ->
  raises_type (snd (simulate_step randint_seeded str_len st lim sid ins clock))
              (OtherException "AttributeError") \/
  (snd (simulate_step randint_seeded str_len st lim sid ins clock)
     = Ok [("result", VInt (randint_seeded (seed st)));
           ("processed_at", VStr (clock_injected st))] /\
   exists current limit,
     snd (RateLimiter.acquire lim (workflow_id st)
            (Some [("tokens", str_len ins)]) clock)
       = Ok (false, Some (RateLimiter.RpsExceeded current limit))).
Proof.
  intros Hr. unfold simulate_step.
  destruct (acquire_outcome lim (workflow_id st)
              (Some [("tokens", str_len ins)]) clock) as [(cur & l & E)|E].
  - now apply reachable_only_floats.
  - intros c [= <-]. exists "tokens", (str_len ins). split; [now left|now left].
  - right. destruct (RateLimiter.acquire _ _ _ _) as [lim1 r]. simpl in E.
    subst r. simpl. split; [reflexivity|now eexists _, _].
  - left. destruct (RateLimiter.acquire _ _ _ _) as [lim1 [r|e]]; simpl in E;
      [contradiction|exact E].
Qed.

(** Over the module's own memory store, [execute_step] never changes
    the guard, and for a key that the journal does not hold it changes
    neither the store nor the limiter and never returns a pair:
    [_find_step] goes to [memory.read], whose [with] is given the [None]
    of [instrument_memory_operation]. *)
Theorem execute_step_never_records sid ins key token now clock st store lim :
  let run :=
    execute_step_body start_span set_attribute record_success Store
      read_block write_block from_persisted content_address randint_seeded
      str_len sid ins key token now clock (st, store, lim) in
  fst (fst (fst run)) = st /\
  (List.find (fun e => String.eqb (dedupe_key e) (key_used content_address ins key))
             (journal st) = None ->
   fst run = (st, store, lim) /\ forall r, snd run <> Ok (Returns r)).
Proof.
  cbv zeta. unfold execute_step_body, py_with.
  destruct (on_enter (start_span "workflow_step_execute")) as [[]|e0];
    [|split; [reflexivity|intros _; split; [reflexivity|discriminate]]].
  unfold execute_step_block. fold (key_used content_address ins key).
  unfold find_step.
  destruct (List.find _ (journal st)) as [e|] eqn:Hf.
  - split; [|discriminate].
    destruct record_success as [[]|x]; simpl.
    + now destruct (on_exit _).
    + now destruct (on_exception _ x).
  - destruct (read_raises store (journal_namespace st)
                (key_used content_address ins key)) as [e He].
    rewrite He. simpl.
    destruct (on_exception _ e); simpl;
      (split; [reflexivity|intros _; split; [reflexivity|discriminate]]).
Qed.

End WiredFacts.

Lemma acquire_never_grants_witness :
  (exists current limit,
     snd (RateLimiter.acquire RateLimiter.new_limiter "wf" None 0)
       = Ok (false, Some (RateLimiter.RpsExceeded current limit))) \/
  raises_type (snd (RateLimiter.acquire RateLimiter.new_limiter "wf" None 0))
              (OtherException "AttributeError").
Proof.
  apply (acquire_never_grants RateLimiter.new_limiter "wf" None 0).
  - apply RateLimiter.reach_new.
  - discriminate.
Defined.

Lemma simulate_step_without_consent_witness :
  raises_type
    (snd (Wired.simulate_step Scenario.fixed_randint Scenario.count_keys
            (WorkflowSafety.new_safety "wf" 7 "t0") RateLimiter.new_limiter
            "s1" [("a", VInt 1)] 0))
    (OtherException "AttributeError").
Proof.
  destruct (simulate_step_without_consent Scenario.fixed_randint
              Scenario.count_keys (WorkflowSafety.new_safety "wf" 7 "t0")
              RateLimiter.new_limiter "s1" [("a", VInt 1)] 0
              RateLimiter.reach_new) as [H|[H _]].
  - exact H.
  - discriminate H.
Defined.

Lemma execute_step_never_records_witness :
  fst (Scenario.wired_step "s1" [("a", VInt 1)] None "token-1" 10 0
         (WorkflowSafety.new_safety "wf" 7 "t0", tt, RateLimiter.new_limiter))
  = (WorkflowSafety.new_safety "wf" 7 "t0", tt, RateLimiter.new_limiter).
Proof.
  apply (execute_step_never_records Scenario.quiet_span (Ok tt) (Ok tt) unit
           Scenario.nothing_stored Scenario.accept_write Scenario.no_record
           Scenario.keys_digest Scenario.fixed_randint Scenario.count_keys
           "s1" [("a", VInt 1)] None "token-1" 10 0
           (WorkflowSafety.new_safety "wf" 7 "t0") tt RateLimiter.new_limiter).
  reflexivity.
Defined.
